(** * Damage-tracking service: inspections, damages, work orders, vendors

    A shallow embedding of the four domain services of the repository
    (InspectionService, DamageService, WorkOrderService, VendorService)
    together with the two utilities whose control flow they depend on
    (RabbitMQUtil.publishEvent and CVIntegrationService), and the
    properties of the specification that are stated about them.
    The last part states further properties of the same services and of
    three HTTP handlers built on them.

    Conventions of the embedding.
    - A JavaScript [number] is a rational ([Q]); NaN and the infinities are
      not represented.  A Prisma [Int] column is a [Z].
    - A [Date] is its [getTime()] value, a [Z] of milliseconds; [new Date()]
      is read from a [now] argument.
    - An optional parameter or nullable column is an [option]; [None] stands
      for [undefined] in a parameter object and for [null] in a row.
    - [async] methods run to completion one after the other: a method is a
      function from the database to an outcome and the database it leaves
      behind.  A rejected promise is [Thrown]; what was written before the
      throw stays written.
    - Answers of the outside world (object store, vision service, identifier
      generator, clock) are arguments of the method that asks for them.
    - Rows carry the columns that some modelled method reads, writes or
      branches on; purely descriptive columns (names, addresses, ...) are
      left out.
    - The schema of the store is not among the sources: referential
      constraints are not checked on insert, and what is proved about an
      insert is proved for a row whose parent is stored.
    - A lookup table written as an object literal answers the keys it
      inherits from [Object.prototype] too ([JS.get_or]). *)

From Stdlib Require Import ZArith QArith Qround Lia Lqa Bool Ascii String.
From stdpp Require Import gmap strings list fin_maps.

Local Open Scope string_scope.
Local Open Scope Z_scope.
Local Open Scope list_scope.

(** ** Outcomes and the database monad *)

Inductive outcome (A : Type) : Type :=
| Returned (a : A)
| Thrown (msg : string).
Arguments Returned {A} a.
Arguments Thrown {A} msg.

Definition is_returned {A} (o : outcome A) : bool :=
  match o with Returned _ => true | Thrown _ => false end.

Module JS.

(** [x || d] on an optional string: [undefined] and the empty string are
    falsy. *)
Definition or_string (x : option string) (d : string) : string :=
  match x with
  | Some s => if String.eqb s "" then d else s
  | None => d
  end.

(** [x || d] on a number. *)
Definition or_Z (x d : Z) : Z := if Z.eqb x 0 then d else x.

Definition Qlt_bool (x y : Q) : bool := negb (Qle_bool y x).

Definition Math_ceil (x : Q) : Z := Qceiling x.

(** [Math.round] rounds halves towards plus infinity. *)
Definition Math_round (x : Q) : Z := Qfloor (x + (1 # 2)).

Definition ofZ (z : Z) : Q := inject_Z z.

(** [l.reduce((sum, r) => sum + r, 0)] *)
Definition sumQ (l : list Q) : Q := fold_left Qplus l 0%Q.

(** [l.reduce((sum, r) => sum + r, 0) / l.length] *)
Definition meanQ (l : list Q) : Q := (sumQ l / ofZ (Z.of_nat (length l)))%Q.

Definition lower_ascii (c : ascii) : ascii :=
  let n := nat_of_ascii c in
  if (65 <=? n)%nat && (n <=? 90)%nat then ascii_of_nat (n + 32) else c.

Fixpoint toLowerCase (s : string) : string :=
  match s with
  | EmptyString => EmptyString
  | String c s' => String (lower_ascii c) (toLowerCase s')
  end.

(** The own property [key] of an object literal. *)
Fixpoint lookup_key {V} (k : string) (table : list (string * V)) : option V :=
  match table with
  | [] => None
  | (k', v) :: rest => if String.eqb k k' then Some v else lookup_key k rest
  end.

(** The members of [Object.prototype] (Node.js).  An object literal answers
    these keys as well as its own: with a function, or for [__proto__] with
    the prototype object, each of them truthy. *)
Definition prototype_members : list string :=
  ["constructor"; "__defineGetter__"; "__defineSetter__"; "hasOwnProperty";
   "__lookupGetter__"; "__lookupSetter__"; "isPrototypeOf";
   "propertyIsEnumerable"; "toString"; "valueOf"; "__proto__";
   "toLocaleString"].

Definition inherited (key : string) : bool :=
  existsb (String.eqb key) prototype_members.

(** The value of [literal[key] || fallback] for a literal whose own values
    are truthy: one of them, the fallback, or what the literal inherits
    under that key, which is no value of the literal's type. *)
Inductive Lookup (V : Type) : Type :=
| Found (v : V)
| Inherited (key : string).
Arguments Found {V} v.
Arguments Inherited {V} key.

Definition get_or {V} (literal : list (string * V)) (key : string)
    (fallback : V) : Lookup V :=
  match lookup_key key literal with
  | Some v => Found v
  | None => if inherited key then Inherited key else Found fallback
  end.

End JS.

(** ** Enumerations

    Modelled from the spec: the Prisma schema that declares these
    enumerations is not part of the sources; the members are the ones the
    services use and the specification lists. *)

Inductive InspectionStatus := I_SCHEDULED | I_IN_PROGRESS | I_COMPLETED.

Inductive DamageStatus :=
| REPORTED | UNDER_REVIEW | DISPUTED | APPROVED | REPAIR_SCHEDULED | REPAIRED
| D_VERIFIED.

Inductive DamageType :=
| SCRATCH | STAIN | CRACK | BURN | WATER_DAMAGE | HOLE | BROKEN_ITEM | DENT
| MOLD | PEST | OTHER.

Inductive Severity := MINOR | MODERATE | MAJOR | CRITICAL.

Inductive WorkOrderStatus :=
| PENDING | ASSIGNED | SCHEDULED | IN_PROGRESS | COMPLETED | VERIFIED
| CANCELLED.

Inductive VendorStatus := V_PENDING | V_ACTIVE | V_SUSPENDED.

Inductive Condition := EXCELLENT | GOOD | FAIR | POOR.

#[global] Instance InspectionStatus_eq_dec : EqDecision InspectionStatus.
Proof. solve_decision. Defined.
#[global] Instance DamageStatus_eq_dec : EqDecision DamageStatus.
Proof. solve_decision. Defined.
#[global] Instance WorkOrderStatus_eq_dec : EqDecision WorkOrderStatus.
Proof. solve_decision. Defined.

(** ** Rows *)

Record GeoFix := { latitude : Q; longitude : Q; accuracy : Q }.

Record PhotoMetadata := {
  photo_url : string;
  photo_timestamp : Z;
  photo_gps : option GeoFix;
  photo_room : string;
  photo_angle : option string;
  photo_device : option string
}.

Record Inspection := {
  insp_id : string;
  insp_propertyId : string;
  insp_inspectorId : string;
  insp_scheduledAt : Z;
  insp_status : InspectionStatus;
  insp_startedAt : option Z;
  insp_completedAt : option Z;
  insp_photos : option (list PhotoMetadata);
  insp_overallCondition : option Condition;
  insp_notes : option string;
  insp_startLocation : option GeoFix;
  insp_endLocation : option GeoFix;
  insp_reportUrl : option string;
  insp_reportGeneratedAt : option Z
}.

Record BoundingBox := { bb_x : Q; bb_y : Q; bb_width : Q; bb_height : Q }.

Record Damage := {
  dmg_id : string;
  dmg_inspectionId : string;
  dmg_propertyId : string;
  dmg_room : string;
  dmg_location : string;
  dmg_damageType : DamageType;
  dmg_severity : Severity;
  dmg_status : DamageStatus;
  dmg_estimatedCostManual : option Q;
  dmg_estimatedCostAi : option Q;
  dmg_actualCost : option Q;
  dmg_beforePhotoUrl : option string;
  dmg_afterPhotoUrl : option string;
  dmg_photos : list string;
  dmg_aiDetected : bool;
  dmg_aiConfidence : option Q;
  dmg_aiDamageType : option string;
  dmg_aiSeverity : option string;
  dmg_aiBoundingBox : option BoundingBox;
  dmg_aiMetadata : option string
}.

Record WorkOrder := {
  wo_id : string;
  wo_propertyId : string;
  wo_damageId : option string;
  wo_status : WorkOrderStatus;
  wo_vendorId : option string;
  wo_assignedAt : option Z;
  wo_scheduledAt : option Z;
  wo_startedAt : option Z;
  wo_completedAt : option Z;
  wo_estimatedCost : option Q;
  wo_actualCost : option Q;
  wo_laborCost : option Q;
  wo_materialsCost : option Q;
  wo_completionNotes : option string;
  wo_vendorNotes : option string;
  wo_verifiedAt : option Z;
  wo_verifiedBy : option string;
  wo_qualityRating : option Q;
  wo_vendorRating : option Q
}.

Record Vendor := {
  v_id : string;
  v_status : VendorStatus;
  v_internalNotes : option string;
  v_totalJobs : Z;
  v_completedJobs : Z;
  v_cancelledJobs : Z;
  v_avgCompletionTime : option Z;
  v_avgResponseTime : option Z;
  v_qualityScore : option Q;
  v_rating : option Q
}.

Record VendorReview := {
  rev_vendorId : string;
  rev_workOrderId : option string;
  rev_reviewerId : string;
  rev_rating : Q;
  rev_qualityRating : option Q;
  rev_wouldRecommend : bool;
  rev_wouldHireAgain : bool;
  rev_photos : list string
}.

(** The relational store: one table per entity, keyed by the primary key.
    Reviews are only ever inserted and read back in bulk, so that table is
    the list of its rows in insertion order. *)
Record Db := {
  inspections : gmap string Inspection;
  damages : gmap string Damage;
  workOrders : gmap string WorkOrder;
  vendors : gmap string Vendor;
  vendorReviews : list VendorReview
}.

Definition with_inspections (t : gmap string Inspection) (db : Db) : Db :=
  {| inspections := t; damages := damages db; workOrders := workOrders db;
     vendors := vendors db; vendorReviews := vendorReviews db |}.
Definition with_damages (t : gmap string Damage) (db : Db) : Db :=
  {| inspections := inspections db; damages := t; workOrders := workOrders db;
     vendors := vendors db; vendorReviews := vendorReviews db |}.
Definition with_workOrders (t : gmap string WorkOrder) (db : Db) : Db :=
  {| inspections := inspections db; damages := damages db; workOrders := t;
     vendors := vendors db; vendorReviews := vendorReviews db |}.
Definition with_vendors (t : gmap string Vendor) (db : Db) : Db :=
  {| inspections := inspections db; damages := damages db;
     workOrders := workOrders db; vendors := t;
     vendorReviews := vendorReviews db |}.
Definition with_vendorReviews (t : list VendorReview) (db : Db) : Db :=
  {| inspections := inspections db; damages := damages db;
     workOrders := workOrders db; vendors := vendors db; vendorReviews := t |}.

Definition M (A : Type) : Type := Db -> outcome A * Db.

Definition ret {A} (a : A) : M A := fun db => (Returned a, db).
Definition throw {A} (msg : string) : M A := fun db => (Thrown msg, db).
Definition bind {A B} (m : M A) (k : A -> M B) : M B :=
  fun db =>
    match m db with
    | (Returned a, db') => k a db'
    | (Thrown e, db') => (Thrown e, db')
    end.
Definition lift {A} (o : outcome A) : M A := fun db => (o, db).
Definition get_db : M Db := fun db => (Returned db, db).

(** [try { m } catch (error) { console.error(...) }] around a call whose
    value is not used: the failure is logged and dropped. *)
Definition swallow (m : M unit) : M unit :=
  fun db => (Returned tt, snd (m db)).

#[global] Instance M_ret : MRet M := @ret.
#[global] Instance M_bind : MBind M := fun A B k m => bind m k.

(** ** Event publisher (utils/rabbitmq.util.ts) *)

Record Channel := { ch_open : bool }.

Record RabbitMQUtil := { channel : option Channel }.

Record EventPayload := {
  eventType : string;
  entityType : string;
  entityId : string
}.

Module RabbitMQ.

(** [new RabbitMQUtil()]: the channel field starts out [null]. *)
Definition new : RabbitMQUtil := {| channel := None |}.

(** [connect()]: on success the channel is set; a broker that cannot be
    reached rethrows. *)
Definition connect (brokerUp : bool) (r : RabbitMQUtil)
  : outcome unit * RabbitMQUtil :=
  if brokerUp then (Returned tt, {| channel := Some {| ch_open := true |} |})
  else (Thrown "connect ECONNREFUSED", r).

(** [publishEvent(event)]: throws when the channel was never set, and
    rethrows whatever [channel.publish] throws (a closed channel). *)
Definition publishEvent (r : RabbitMQUtil) (event : EventPayload)
  : outcome unit :=
  match channel r with
  | None => Thrown "RabbitMQ channel not initialized"
  | Some ch => if ch_open ch then Returned tt else Thrown "Channel closed"
  end.

End RabbitMQ.

(** ** The Prisma client, as far as the services use it *)

Module Prisma.

Section Table.
Context {R : Type}.
Variable get : Db -> gmap string R.
Variable set : gmap string R -> Db -> Db.

(** [create({ data })]: the primary key comes from the identifier
    generator; a key that is already taken violates uniqueness. *)
Definition create (id : string) (row : R) : M R :=
  fun db =>
    match get db !! id with
    | Some _ => (Thrown "Unique constraint failed on the fields: (`id`)", db)
    | None => (Returned row, set (<[id := row]> (get db)) db)
    end.

(** [update({ where: { id }, data })]: rejects when no row has the key. *)
Definition update (id : string) (data : R -> R) : M R :=
  fun db =>
    match get db !! id with
    | Some row =>
        let row' := data row in
        (Returned row', set (<[id := row']> (get db)) db)
    | None => (Thrown "Record to update not found.", db)
    end.

Definition findUnique (id : string) : M (option R) :=
  fun db => (Returned (get db !! id), db).

(** [delete({ where: { id } })] *)
Definition delete (id : string) : M R :=
  fun db =>
    match get db !! id with
    | Some row => (Returned row, set (base.delete id (get db)) db)
    | None => (Thrown "Record to delete does not exist.", db)
    end.

(** [findMany({ where })] and [count({ where })] *)
Definition findMany (p : R -> bool) : M (list R) :=
  fun db => (Returned (List.filter p (snd <$> map_to_list (get db))), db).

Definition count (p : R -> bool) : M Z :=
  fun db =>
    (Returned (Z.of_nat (length (List.filter p (snd <$> map_to_list (get db))))),
     db).
End Table.

(** In [data], a field that is [undefined] is left as it is. *)
Definition patch {A} (new : option A) (old : A) : A :=
  match new with Some a => a | None => old end.

Definition patch_null {A} (new : option A) (old : option A) : option A :=
  match new with Some a => Some a | None => old end.

End Prisma.

(** ** Object store (utils/s3.util.ts): only the result matters here *)

Record S3UploadResult := { s3_url : string; s3_key : string }.

(** ** The rendered report (pdf-lib), as far as layout goes

    A document is its number of pages and the text runs drawn so far, each
    tagged with the index of the page object it was drawn through. *)

Module Pdf.

Inductive DetailKind :=
| DInspectionId | DPropertyId | DType | DStatus | DScheduled | DCompleted
| DOverallCondition.

Inductive Content :=
| Title
| Detail (k : DetailKind)
| DamagesHeading
| DamageLine (damageType : DamageType) (severity : Severity) (room : string)
| NotesHeading
| NotesLine (line : string).

Record DrawOp := {
  op_page : nat;
  op_content : Content;
  op_x : Z;
  op_y : Z;
  op_size : Z;
  op_bold : bool
}.

Record Document := { pageCount : nat; drawn : list DrawOp }.

Definition create : Document := {| pageCount := 0; drawn := [] |}.

(** [pdfDoc.addPage([612, 792])] returns the page it appended. *)
Definition addPage (doc : Document) : nat * Document :=
  (pageCount doc, {| pageCount := S (pageCount doc); drawn := drawn doc |}).

(** [page.drawText(text, { x, y, size, font })]: the run it places.  The
    call first has the font encode the text, which a standard font refuses
    for a character outside WinAnsi; see [encode_all]. *)
Definition drawText (page : nat) (c : Content) (x y size : Z) (bold : bool)
    (doc : Document) : Document :=
  {| pageCount := pageCount doc;
     drawn := (drawn doc ++
               [{| op_page := page; op_content := c; op_x := x; op_y := y;
                   op_size := size; op_bold := bold |}])%list |}.

Definition page_height : Z := 792.

(** The font's answer to the text of a run, [Thrown] when it cannot encode
    it: an answer of the library, given as an argument like those of the
    services outside. *)
Definition Encoder : Type := Content -> outcome unit.

(** The runs in drawing order, each put to the font: the first refusal is
    the error of the [drawText] call that asked, and no later call is
    made. *)
Fixpoint encode_all (encodeText : Encoder) (ops : list DrawOp) : outcome unit :=
  match ops with
  | [] => Returned tt
  | op :: rest =>
      match encodeText (op_content op) with
      | Returned _ => encode_all encodeText rest
      | Thrown msg => Thrown msg
      end
  end.

(** What was drawn through page object [p]. *)
Definition on_page (p : nat) (doc : Document) : list DrawOp :=
  List.filter (fun op => Nat.eqb (op_page op) p) (drawn doc).

End Pdf.

(** ** Inspection service *)

Module InspectionService.

Record t := { rabbitMQ : RabbitMQUtil }.

(** The constructor builds its own publisher and never connects it. *)
Definition new : t := {| rabbitMQ := RabbitMQ.new |}.

Record CreateInspectionParams := {
  c_propertyId : string;
  c_inspectorId : string;
  c_scheduledAt : Z;
  c_notes : option string
}.

Record UpdateInspectionParams := {
  u_status : option InspectionStatus;
  u_startedAt : option Z;
  u_completedAt : option Z;
  u_photos : option (list PhotoMetadata);
  u_overallCondition : option Condition;
  u_notes : option string;
  u_startLocation : option GeoFix;
  u_endLocation : option GeoFix
}.

Definition no_update : UpdateInspectionParams :=
  {| u_status := None; u_startedAt := None; u_completedAt := None;
     u_photos := None; u_overallCondition := None; u_notes := None;
     u_startLocation := None; u_endLocation := None |}.

Definition createInspection (svc : t) (newId : string)
    (params : CreateInspectionParams) : M Inspection :=
  inspection ← Prisma.create inspections with_inspections newId
    {| insp_id := newId;
       insp_propertyId := c_propertyId params;
       insp_inspectorId := c_inspectorId params;
       insp_scheduledAt := c_scheduledAt params;
       insp_status := I_SCHEDULED;
       insp_startedAt := None; insp_completedAt := None;
       insp_photos := None; insp_overallCondition := None;
       insp_notes := c_notes params;
       insp_startLocation := None; insp_endLocation := None;
       insp_reportUrl := None; insp_reportGeneratedAt := None |};
  lift (RabbitMQ.publishEvent (rabbitMQ svc)
          {| eventType := "created"; entityType := "inspection";
             entityId := insp_id inspection |});;
  mret inspection.

(** The [data] object of [updateInspection] applied to a row: every
    parameter that is not [undefined] overwrites its column. *)
Definition apply_update (params : UpdateInspectionParams) (i : Inspection)
  : Inspection :=
  {| insp_id := insp_id i;
     insp_propertyId := insp_propertyId i;
     insp_inspectorId := insp_inspectorId i;
     insp_scheduledAt := insp_scheduledAt i;
     insp_status := Prisma.patch (u_status params) (insp_status i);
     insp_startedAt := Prisma.patch_null (u_startedAt params) (insp_startedAt i);
     insp_completedAt :=
       Prisma.patch_null (u_completedAt params) (insp_completedAt i);
     insp_photos := Prisma.patch_null (u_photos params) (insp_photos i);
     insp_overallCondition :=
       Prisma.patch_null (u_overallCondition params) (insp_overallCondition i);
     insp_notes := Prisma.patch_null (u_notes params) (insp_notes i);
     insp_startLocation :=
       Prisma.patch_null (u_startLocation params) (insp_startLocation i);
     insp_endLocation :=
       Prisma.patch_null (u_endLocation params) (insp_endLocation i);
     insp_reportUrl := insp_reportUrl i;
     insp_reportGeneratedAt := insp_reportGeneratedAt i |}.

Definition updateInspection (svc : t) (id : string)
    (params : UpdateInspectionParams) : M Inspection :=
  inspection ← Prisma.update inspections with_inspections id
                 (apply_update params);
  lift (RabbitMQ.publishEvent (rabbitMQ svc)
          {| eventType := "updated"; entityType := "inspection";
             entityId := insp_id inspection |});;
  mret inspection.

Definition startInspection (svc : t) (now : Z) (id : string)
    (location : option GeoFix) : M Inspection :=
  updateInspection svc id
    {| u_status := Some I_IN_PROGRESS; u_startedAt := Some now;
       u_completedAt := None; u_photos := None; u_overallCondition := None;
       u_notes := None; u_startLocation := location; u_endLocation := None |}.

Definition completeInspection (svc : t) (now : Z) (id : string)
    (overallCondition : Condition) (notes : option string)
    (location : option GeoFix) : M Inspection :=
  updateInspection svc id
    {| u_status := Some I_COMPLETED; u_startedAt := None;
       u_completedAt := Some now; u_photos := None;
       u_overallCondition := Some overallCondition;
       u_notes := notes; u_startLocation := None; u_endLocation := location |}.

Record PhotoParams := {
  p_room : string;
  p_angle : option string;
  p_gps : option GeoFix;
  p_device : option string
}.

Definition addPhoto (svc : t) (now : Z) (upload : outcome S3UploadResult)
    (id : string) (metadata : PhotoParams) : M Inspection :=
  uploadResult ← lift upload;
  found ← Prisma.findUnique inspections id;
  match found with
  | None => throw ("Inspection " +:+ id +:+ " not found")
  | Some inspection =>
      let currentPhotos := default [] (insp_photos inspection) in
      let newPhoto :=
        {| photo_url := s3_url uploadResult; photo_timestamp := now;
           photo_gps := p_gps metadata; photo_room := p_room metadata;
           photo_angle := p_angle metadata;
           photo_device := p_device metadata |} in
      updateInspection svc id
        {| u_status := None; u_startedAt := None; u_completedAt := None;
           u_photos := Some (currentPhotos ++ [newPhoto])%list;
           u_overallCondition := None; u_notes := None;
           u_startLocation := None; u_endLocation := None |}
  end.

(** *** Report generation *)

Definition is_space (c : ascii) : bool := Ascii.eqb c " "%char.

(** Strings are sequences of one-byte characters: [length], [trim] and
    [toLowerCase] agree with JavaScript on ASCII text.

    [text.split(' ')] *)
Fixpoint split_spaces (s : string) : list string :=
  match s with
  | EmptyString => [EmptyString]
  | String c s' =>
      match split_spaces s' with
      | w :: ws => if is_space c then EmptyString :: w :: ws
                   else String c w :: ws
      | [] => [String c EmptyString]
      end
  end.

Definition is_white (c : ascii) : bool :=
  let n := nat_of_ascii c in
  ((9 <=? n)%nat && (n <=? 13)%nat) || (n =? 32)%nat.

Fixpoint trimStart (s : string) : string :=
  match s with
  | EmptyString => EmptyString
  | String c s' => if is_white c then trimStart s' else s
  end.

Fixpoint trimEnd (s : string) : string :=
  match s with
  | EmptyString => EmptyString
  | String c s' =>
      let t := trimEnd s' in
      if is_white c && String.eqb t EmptyString then EmptyString
      else String c t
  end.

Definition trim (s : string) : string := trimEnd (trimStart s).

(** The [for (const word of words)] loop of [wrapText]; the state is
    [(lines, currentLine)]. *)
Fixpoint wrap_words (maxLength : nat) (words : list string)
    (lines : list string) (currentLine : string) : list string * string :=
  match words with
  | [] => (lines, currentLine)
  | word :: rest =>
      if (maxLength <? String.length (currentLine +:+ word))%nat
      then wrap_words maxLength rest (lines ++ [trim currentLine])%list
             (word +:+ " ")
      else wrap_words maxLength rest lines (currentLine +:+ word +:+ " ")
  end.

Definition wrapText (text : string) (maxLength : nat) : list string :=
  let '(lines, currentLine) :=
    wrap_words maxLength (split_spaces text) [] EmptyString in
  if String.eqb (trim currentLine) EmptyString then lines
  else (lines ++ [trim currentLine])%list.

(** The layout cursor: the document and [yPosition]. *)
Definition Cursor : Type := Pdf.Document * Z.

Definition details : list Pdf.DetailKind :=
  [Pdf.DInspectionId; Pdf.DPropertyId; Pdf.DType; Pdf.DStatus;
   Pdf.DScheduled; Pdf.DCompleted; Pdf.DOverallCondition].

Fixpoint draw_details (page : nat) (ds : list Pdf.DetailKind) (cur : Cursor)
  : Cursor :=
  match ds with
  | [] => cur
  | detail :: rest =>
      let '(doc, yPosition) := cur in
      let doc := Pdf.drawText page (Pdf.Detail detail) 50 yPosition 12 false doc in
      draw_details page rest (doc, yPosition - 20)
  end.

(** The loop over [inspection.damages].  [page] is the page object bound
    before the loop; the page appended when the cursor runs low is bound to
    a fresh constant [newPage] that nothing reads afterwards. *)
Fixpoint draw_damages (page : nat) (height : Z) (ds : list Damage)
    (cur : Cursor) : Cursor :=
  match ds with
  | [] => cur
  | damage :: rest =>
      let '(doc, yPosition) := cur in
      let doc :=
        Pdf.drawText page
          (Pdf.DamageLine (dmg_damageType damage) (dmg_severity damage)
             (dmg_room damage))
          70 yPosition 11 false doc in
      let yPosition := yPosition - 20 in
      if yPosition <? 100 then
        let '(newPage, doc) := Pdf.addPage doc in
        draw_damages page height rest (doc, height - 50)
      else draw_damages page height rest (doc, yPosition)
  end.

Fixpoint draw_notes (page : nat) (lines : list string) (cur : Cursor)
  : Cursor :=
  match lines with
  | [] => cur
  | line :: rest =>
      let '(doc, yPosition) := cur in
      let doc := Pdf.drawText page (Pdf.NotesLine line) 50 yPosition 11 false doc in
      draw_notes page rest (doc, yPosition - 15)
  end.

(** The drawing part of [generateReport], from [PDFDocument.create()] to
    just before [pdfDoc.save()]: the document laid out when every
    [drawText] returns. *)
Definition render (inspection : Inspection) (inspection_damages : list Damage)
  : Pdf.Document :=
  let pdfDoc := Pdf.create in
  let '(page, pdfDoc) := Pdf.addPage pdfDoc in
  let height := Pdf.page_height in
  let yPosition := height - 50 in
  let pdfDoc := Pdf.drawText page Pdf.Title 50 yPosition 24 true pdfDoc in
  let yPosition := yPosition - 40 in
  let '(pdfDoc, yPosition) := draw_details page details (pdfDoc, yPosition) in
  let yPosition := yPosition - 20 in
  let '(pdfDoc, yPosition) :=
    if (0 <? length inspection_damages)%nat then
      let pdfDoc :=
        Pdf.drawText page Pdf.DamagesHeading 50 yPosition 16 true pdfDoc in
      let yPosition := yPosition - 30 in
      draw_damages page height inspection_damages (pdfDoc, yPosition)
    else (pdfDoc, yPosition) in
  let '(pdfDoc, yPosition) :=
    match insp_notes inspection with
    | Some notes =>
        if String.eqb notes EmptyString then (pdfDoc, yPosition)
        else
          let yPosition := yPosition - 20 in
          let pdfDoc :=
            Pdf.drawText page Pdf.NotesHeading 50 yPosition 14 true pdfDoc in
          let yPosition := yPosition - 25 in
          draw_notes page (wrapText notes 80) (pdfDoc, yPosition)
    | None => (pdfDoc, yPosition)
    end in
  pdfDoc.

Definition set_report (url : string) (now : Z) (i : Inspection) : Inspection :=
  {| insp_id := insp_id i;
     insp_propertyId := insp_propertyId i;
     insp_inspectorId := insp_inspectorId i;
     insp_scheduledAt := insp_scheduledAt i;
     insp_status := insp_status i;
     insp_startedAt := insp_startedAt i;
     insp_completedAt := insp_completedAt i;
     insp_photos := insp_photos i;
     insp_overallCondition := insp_overallCondition i;
     insp_notes := insp_notes i;
     insp_startLocation := insp_startLocation i;
     insp_endLocation := insp_endLocation i;
     insp_reportUrl := Some url;
     insp_reportGeneratedAt := Some now |}.

(** [generateReport(id)]; [encodeText] is the font's answer to the text of
    a run and [uploadFile] the object store's answer to the rendered
    document.  A run the font refuses ends the call in the [drawText] that
    drew it, before anything is saved or uploaded. *)
Definition generateReport (svc : t) (now : Z) (encodeText : Pdf.Encoder)
    (uploadFile : Pdf.Document -> outcome S3UploadResult) (id : string)
  : M string :=
  found ← Prisma.findUnique inspections id;
  match found with
  | None => throw ("Inspection " +:+ id +:+ " not found")
  | Some inspection =>
      inspection_damages ←
        Prisma.findMany damages (fun d => String.eqb (dmg_inspectionId d) id);
      let pdfDoc := render inspection inspection_damages in
      lift (Pdf.encode_all encodeText (Pdf.drawn pdfDoc));;
      uploadResult ← lift (uploadFile pdfDoc);
      Prisma.update inspections with_inspections id
        (set_report (s3_url uploadResult) now);;
      mret (s3_url uploadResult)
  end.

(** *** Lookup and removal *)

Definition getInspection (id : string) : M (option Inspection) :=
Prisma.findUnique inspections id.

End InspectionService.

(** ** Vision client (services/cv-integration.service.ts) *)

Record Config := { ai_confidenceThreshold : Q }.

(** [parseFloat(process.env.AI_CONFIDENCE_THRESHOLD || '0.75')] with the
    variable unset. *)
Definition default_config : Config := {| ai_confidenceThreshold := 3 # 4 |}.

Record AIDetectionResult := {
  detected : bool;
  confidence : Q;
  ai_damageType : option string;
  ai_severity : option string;
  ai_boundingBox : option BoundingBox;
  ai_metadata : option string
}.

Record Detection := {
  det_type : string;
  det_confidence : Q;
  det_boundingBox : BoundingBox;
  det_severity : string
}.

Record CVDetectionResponse := {
  cv_success : bool;
  cv_detections : option (list Detection);
  cv_metadata : option string
}.

Record CostResponse := {
  cr_estimatedCost : option Q;
  cr_confidence : option Q
}.

(** [estimatedCost] is a number, or what [baseEstimates[severity]] inherits. *)
Record CostEstimate := {
  estimatedCost : JS.Lookup Q;
  estimate_confidence : Q
}.

Module CVIntegrationService.

Definition nothing_detected (metadata : option string) : AIDetectionResult :=
  {| detected := false; confidence := 0%Q; ai_damageType := None;
     ai_severity := None; ai_boundingBox := None; ai_metadata := metadata |}.

(** [detections.reduce((prev, current) =>
      current.confidence > prev.confidence ? current : prev)] *)
Definition bestDetection (first : Detection) (others : list Detection)
  : Detection :=
  fold_left
    (fun prev current =>
       if JS.Qlt_bool (det_confidence prev) (det_confidence current)
       then current else prev)
    others first.

(** [detectDamage]; [response] is the answer to the POST, [Thrown] for a
    transport failure, a timeout or a non-2xx status. *)
Definition detectDamage (response : outcome CVDetectionResponse)
  : AIDetectionResult :=
  match response with
  | Thrown msg => nothing_detected (Some msg)
  | Returned data =>
      match cv_success data, cv_detections data with
      | true, Some (first :: others) =>
          let best := bestDetection first others in
          {| detected := true;
             confidence := det_confidence best;
             ai_damageType := Some (det_type best);
             ai_severity := Some (det_severity best);
             ai_boundingBox := Some (det_boundingBox best);
             ai_metadata := cv_metadata data |}
      | _, _ => nothing_detected None
      end
  end.

Definition baseEstimates : list (string * Q) :=
  [("MINOR", 100 # 1); ("MODERATE", 500 # 1); ("MAJOR", 2000 # 1);
   ("CRITICAL", 5000 # 1)].

(** [estimateRepairCost]; absent or zero figures in the answer count as 0,
    and a failed request is answered with [baseEstimates[severity] || 500]
    at confidence 0.3. *)
Definition estimateRepairCost (response : outcome CostResponse)
    (damageType severity : string) : CostEstimate :=
  match response with
  | Returned data =>
      {| estimatedCost := JS.Found (default 0%Q (cr_estimatedCost data));
         estimate_confidence := default 0%Q (cr_confidence data) |}
  | Thrown _ =>
      {| estimatedCost := JS.get_or baseEstimates severity (500 # 1);
         estimate_confidence := 3 # 10 |}
  end.

(** *** Image comparison *)

Record Difference := {
diff_type : string;
diff_severity : string;
diff_boundingBox : BoundingBox;
diff_confidence : Q
}.

Record Comparison := {
hasChanges : bool;
cmp_confidence : Q;
differences : list Difference
}.

Definition no_changes : Comparison :=
{| hasChanges := false; cmp_confidence := 0%Q; differences := [] |}.

(** [Math.max(...values)], called on a non-empty array only. *)
Definition Math_max (first : Q) (others : list Q) : Q :=
fold_left (fun best x => if JS.Qlt_bool best x then x else best) others first.

Definition to_difference (detection : Detection) : Difference :=
{| diff_type := det_type detection;
   diff_severity := det_severity detection;
   diff_boundingBox := det_boundingBox detection;
   diff_confidence := det_confidence detection |}.

(** [compareImages]; an answer without a [detections] array makes
    [.map] throw inside the [try], which ends in the [catch] branch like a
    transport failure. *)
Definition compareImages (response : outcome CVDetectionResponse)
  : Comparison :=
match response with
| Thrown _ => no_changes
| Returned data =>
    if negb (cv_success data) then no_changes
    else
      match cv_detections data with
      | None => no_changes
      | Some detections =>
          let differences := to_difference <$> detections in
          let maxConfidence :=
            match diff_confidence <$> differences with
            | first :: others => Math_max first others
            | [] => 0%Q
            end in
          {| hasChanges := (0 <? length differences)%nat;
             cmp_confidence := maxConfidence;
             differences := differences |}
      end
end.

End CVIntegrationService.

(** ** Damage service *)

Module DamageService.

Record t := { rabbitMQ : RabbitMQUtil }.

Definition new : t := {| rabbitMQ := RabbitMQ.new |}.

(** [mapping[aiType.toLowerCase()] || 'OTHER'] *)
Definition mapAIDamageType (aiType : string) : JS.Lookup DamageType :=
  JS.get_or
    [("stain", STAIN); ("hole", HOLE); ("crack", CRACK); ("burn", BURN);
     ("water_damage", WATER_DAMAGE); ("water", WATER_DAMAGE);
     ("broken", BROKEN_ITEM); ("scratch", SCRATCH); ("dent", DENT);
     ("mold", MOLD); ("pest", PEST)]
    (JS.toLowerCase aiType) OTHER.

(** [mapping[aiSeverity.toLowerCase()] || 'MODERATE'] *)
Definition mapAISeverity (aiSeverity : string) : JS.Lookup Severity :=
  JS.get_or
    [("minor", MINOR); ("moderate", MODERATE); ("major", MAJOR);
     ("critical", CRITICAL); ("severe", CRITICAL)]
    (JS.toLowerCase aiSeverity) MODERATE.

(** [prisma.damage.create({ data })] for an AI-detected damage.  The
    [damageType], [severity] and [estimatedCostAi] of [data] come out of
    lookup tables; when one of them is an inherited function or object
    instead of an enum member or a number, the client refuses [data] and
    nothing reaches the store (its message, which goes on to name the
    field, is cut short here). *)
Definition create_detected (newId : string)
    (damageType : JS.Lookup DamageType) (severity : JS.Lookup Severity)
    (estimatedCostAi : JS.Lookup Q)
    (data : DamageType -> Severity -> Q -> Damage) : M Damage :=
  match damageType, severity, estimatedCostAi with
  | JS.Found t, JS.Found s, JS.Found c =>
      Prisma.create damages with_damages newId (data t s c)
  | _, _, _ => throw "Invalid `prisma.damage.create()` invocation"
  end.

Record DetectParams := {
  d_inspectionId : string;
  d_propertyId : string;
  d_room : string;
  d_location : string
}.

(** What the outside world answers during one [detectDamageFromImage]:
    the object store to the upload, the vision service to the detection
    and to the cost request, the knowledge store to the pattern, and the
    identifier generator to the insert. *)
Record DetectWorld := {
  w_upload : outcome S3UploadResult;
  w_detection : outcome CVDetectionResponse;
  w_cost : outcome CostResponse;
  w_nexus : outcome unit;
  w_newId : string
}.

(** [storeDamagePatternInNexus]: a POST inside [try]/[catch]. *)
Definition storeDamagePatternInNexus (answer : outcome unit) : M unit :=
  swallow (lift answer).

Definition detectDamageFromImage (cfg : Config) (svc : t) (w : DetectWorld)
    (params : DetectParams) : M (option Damage) :=
  uploadResult ← lift (w_upload w);
  let aiResult := CVIntegrationService.detectDamage (w_detection w) in
  if negb (detected aiResult)
     || JS.Qlt_bool (confidence aiResult) (ai_confidenceThreshold cfg)
  then mret None
  else
    let costEstimate :=
      CVIntegrationService.estimateRepairCost (w_cost w)
        (JS.or_string (ai_damageType aiResult) "OTHER")
        (JS.or_string (ai_severity aiResult) "MODERATE") in
    damage ← create_detected (w_newId w)
      (mapAIDamageType (JS.or_string (ai_damageType aiResult) "OTHER"))
      (mapAISeverity (JS.or_string (ai_severity aiResult) "MODERATE"))
      (estimatedCost costEstimate)
      (fun damageType severity estimatedCostAi =>
         {| dmg_id := w_newId w;
            dmg_inspectionId := d_inspectionId params;
            dmg_propertyId := d_propertyId params;
            dmg_room := d_room params;
            dmg_location := d_location params;
            dmg_damageType := damageType;
            dmg_severity := severity;
            dmg_status := UNDER_REVIEW;
            dmg_estimatedCostManual := None;
            dmg_estimatedCostAi := Some estimatedCostAi;
            dmg_actualCost := None;
            dmg_beforePhotoUrl := None;
            dmg_afterPhotoUrl := None;
            dmg_photos := [s3_url uploadResult];
            dmg_aiDetected := true;
            dmg_aiConfidence := Some (confidence aiResult);
            dmg_aiDamageType := ai_damageType aiResult;
            dmg_aiSeverity := ai_severity aiResult;
            dmg_aiBoundingBox := ai_boundingBox aiResult;
            dmg_aiMetadata := ai_metadata aiResult |});
    storeDamagePatternInNexus (w_nexus w);;
    lift (RabbitMQ.publishEvent (rabbitMQ svc)
            {| eventType := "ai_detected"; entityType := "damage";
               entityId := dmg_id damage |});;
    mret (Some damage).

(** *** Manual entry, patches and photos *)

Record CreateDamageParams := {
cd_inspectionId : string;
cd_propertyId : string;
cd_room : string;
cd_location : string;
cd_damageType : DamageType;
cd_severity : Severity;
cd_estimatedCostManual : option Q
}.

(** [sendDamageNotification]: a POST inside [try]/[catch]. *)
Definition sendDamageNotification (answer : outcome unit) : M unit :=
swallow (lift answer).

Definition createDamage (svc : t) (newId : string) (notification : outcome unit)
    (params : CreateDamageParams) : M Damage :=
damage ← Prisma.create damages with_damages newId
  {| dmg_id := newId;
     dmg_inspectionId := cd_inspectionId params;
     dmg_propertyId := cd_propertyId params;
     dmg_room := cd_room params;
     dmg_location := cd_location params;
     dmg_damageType := cd_damageType params;
     dmg_severity := cd_severity params;
     dmg_status := REPORTED;
     dmg_estimatedCostManual := cd_estimatedCostManual params;
     dmg_estimatedCostAi := None;
     dmg_actualCost := None;
     dmg_beforePhotoUrl := None;
     dmg_afterPhotoUrl := None;
     dmg_photos := [];
     dmg_aiDetected := false;
     dmg_aiConfidence := None;
     dmg_aiDamageType := None;
     dmg_aiSeverity := None;
     dmg_aiBoundingBox := None;
     dmg_aiMetadata := None |};
lift (RabbitMQ.publishEvent (rabbitMQ svc)
        {| eventType := "created"; entityType := "damage";
           entityId := dmg_id damage |});;
sendDamageNotification notification;;
mret damage.

Record UpdateDamageParams := {
ud_room : option string;
ud_location : option string;
ud_damageType : option DamageType;
ud_severity : option Severity;
ud_status : option DamageStatus;
ud_estimatedCostManual : option Q;
ud_actualCost : option Q;
ud_beforePhotoUrl : option string;
ud_afterPhotoUrl : option string;
ud_photos : option (list string)
}.

Definition photos_only (photos : list string) : UpdateDamageParams :=
{| ud_room := None; ud_location := None; ud_damageType := None;
   ud_severity := None; ud_status := None; ud_estimatedCostManual := None;
   ud_actualCost := None; ud_beforePhotoUrl := None; ud_afterPhotoUrl := None;
   ud_photos := Some photos |}.

Definition apply_update (params : UpdateDamageParams) (d : Damage) : Damage :=
{| dmg_id := dmg_id d;
   dmg_inspectionId := dmg_inspectionId d;
   dmg_propertyId := dmg_propertyId d;
   dmg_room := Prisma.patch (ud_room params) (dmg_room d);
   dmg_location := Prisma.patch (ud_location params) (dmg_location d);
   dmg_damageType := Prisma.patch (ud_damageType params) (dmg_damageType d);
   dmg_severity := Prisma.patch (ud_severity params) (dmg_severity d);
   dmg_status := Prisma.patch (ud_status params) (dmg_status d);
   dmg_estimatedCostManual :=
     Prisma.patch_null (ud_estimatedCostManual params)
       (dmg_estimatedCostManual d);
   dmg_estimatedCostAi := dmg_estimatedCostAi d;
   dmg_actualCost := Prisma.patch_null (ud_actualCost params) (dmg_actualCost d);
   dmg_beforePhotoUrl :=
     Prisma.patch_null (ud_beforePhotoUrl params) (dmg_beforePhotoUrl d);
   dmg_afterPhotoUrl :=
     Prisma.patch_null (ud_afterPhotoUrl params) (dmg_afterPhotoUrl d);
   dmg_photos := Prisma.patch (ud_photos params) (dmg_photos d);
   dmg_aiDetected := dmg_aiDetected d;
   dmg_aiConfidence := dmg_aiConfidence d;
   dmg_aiDamageType := dmg_aiDamageType d;
   dmg_aiSeverity := dmg_aiSeverity d;
   dmg_aiBoundingBox := dmg_aiBoundingBox d;
   dmg_aiMetadata := dmg_aiMetadata d |}.

Definition updateDamage (svc : t) (id : string) (params : UpdateDamageParams)
  : M Damage :=
damage ← Prisma.update damages with_damages id (apply_update params);
lift (RabbitMQ.publishEvent (rabbitMQ svc)
        {| eventType := "updated"; entityType := "damage";
           entityId := dmg_id damage |});;
mret damage.

Definition getDamage (id : string) : M (option Damage) :=
Prisma.findUnique damages id.

(** [addPhoto(id, imageBuffer)]: the row is looked up before the image is
    uploaded. *)
Definition addPhoto (svc : t) (upload : outcome S3UploadResult) (id : string)
  : M Damage :=
found ← getDamage id;
match found with
| None => throw ("Damage " +:+ id +:+ " not found")
| Some damage =>
    uploadResult ← lift upload;
    let currentPhotos := dmg_photos damage in
    updateDamage svc id (photos_only (currentPhotos ++ [s3_url uploadResult]))
end.

(** *** Before/after comparison *)

(** What the outside world answers during one [compareBeforeAfter]: the
    object store to the two uploads, the vision service to the comparison
    and to the cost request made for a difference, and the identifier
    generator to the n-th insert of the call. *)
Record CompareWorld := {
cw_before : outcome S3UploadResult;
cw_after : outcome S3UploadResult;
cw_comparison : outcome CVDetectionResponse;
cw_cost : CVIntegrationService.Difference -> outcome CostResponse;
cw_newId : nat -> string
}.

(** [Promise.all([upload(before), upload(after)])]; when both uploads fail
    the rejection reported is taken to be the first one's. *)
Definition upload_both (w : CompareWorld)
  : outcome (S3UploadResult * S3UploadResult) :=
match cw_before w, cw_after w with
| Returned b, Returned a => Returned (b, a)
| Thrown msg, _ => Thrown msg
| _, Thrown msg => Thrown msg
end.

(** The [data] of the row stored for one difference, given the values that
    come out of the lookup tables. *)
Definition comparison_row (params : DetectParams)
    (beforeUpload afterUpload : S3UploadResult) (id : string)
    (diff : CVIntegrationService.Difference)
    (damageType : DamageType) (severity : Severity) (estimatedCostAi : Q)
  : Damage :=
{| dmg_id := id;
   dmg_inspectionId := d_inspectionId params;
   dmg_propertyId := d_propertyId params;
   dmg_room := d_room params;
   dmg_location := d_location params;
   dmg_damageType := damageType;
   dmg_severity := severity;
   dmg_status := UNDER_REVIEW;
   dmg_estimatedCostManual := None;
   dmg_estimatedCostAi := Some estimatedCostAi;
   dmg_actualCost := None;
   dmg_beforePhotoUrl := Some (s3_url beforeUpload);
   dmg_afterPhotoUrl := Some (s3_url afterUpload);
   dmg_photos := [s3_url beforeUpload; s3_url afterUpload];
   dmg_aiDetected := true;
   dmg_aiConfidence := Some (CVIntegrationService.diff_confidence diff);
   dmg_aiDamageType := Some (CVIntegrationService.diff_type diff);
   dmg_aiSeverity := Some (CVIntegrationService.diff_severity diff);
   dmg_aiBoundingBox := Some (CVIntegrationService.diff_boundingBox diff);
   dmg_aiMetadata := None |}.

(** The [for (const diff of comparison.differences)] loop; [created] is the
    [damages] array so far. *)
Fixpoint compare_loop (cfg : Config) (w : CompareWorld) (params : DetectParams)
    (beforeUpload afterUpload : S3UploadResult)
    (diffs : list CVIntegrationService.Difference) (created : list Damage)
  : M (list Damage) :=
match diffs with
| [] => mret created
| diff :: rest =>
    if JS.Qlt_bool (CVIntegrationService.diff_confidence diff)
         (ai_confidenceThreshold cfg)
    then compare_loop cfg w params beforeUpload afterUpload rest created
    else
      let costEstimate :=
        CVIntegrationService.estimateRepairCost (cw_cost w diff)
          (CVIntegrationService.diff_type diff)
          (CVIntegrationService.diff_severity diff) in
      damage ← create_detected (cw_newId w (length created))
                 (mapAIDamageType (CVIntegrationService.diff_type diff))
                 (mapAISeverity (CVIntegrationService.diff_severity diff))
                 (estimatedCost costEstimate)
                 (comparison_row params beforeUpload afterUpload
                    (cw_newId w (length created)) diff);
      compare_loop cfg w params beforeUpload afterUpload rest
        (created ++ [damage])
end.

Definition compareBeforeAfter (cfg : Config) (svc : t) (w : CompareWorld)
    (params : DetectParams) : M (list Damage) :=
uploads ← lift (upload_both w);
let '(beforeUpload, afterUpload) := uploads in
let comparison := CVIntegrationService.compareImages (cw_comparison w) in
compare_loop cfg w params beforeUpload afterUpload
  (CVIntegrationService.differences comparison) [].

End DamageService.

(** ** Work-order service *)

Module WorkOrderService.

Record t := { rabbitMQ : RabbitMQUtil }.

Definition new : t := {| rabbitMQ := RabbitMQ.new |}.

Record UpdateWorkOrderParams := {
  u_status : option WorkOrderStatus;
  u_vendorId : option string;
  u_assignedAt : option Z;
  u_scheduledAt : option Z;
  u_startedAt : option Z;
  u_completedAt : option Z;
  u_estimatedCost : option Q;
  u_actualCost : option Q;
  u_laborCost : option Q;
  u_materialsCost : option Q;
  u_completionNotes : option string;
  u_vendorNotes : option string;
  u_verifiedAt : option Z;
  u_verifiedBy : option string;
  u_qualityRating : option Q;
  u_vendorRating : option Q
}.

Definition no_update : UpdateWorkOrderParams :=
  {| u_status := None; u_vendorId := None; u_assignedAt := None;
     u_scheduledAt := None; u_startedAt := None; u_completedAt := None;
     u_estimatedCost := None; u_actualCost := None; u_laborCost := None;
     u_materialsCost := None; u_completionNotes := None;
     u_vendorNotes := None; u_verifiedAt := None; u_verifiedBy := None;
     u_qualityRating := None; u_vendorRating := None |}.

(** [data: params]: every key that is present overwrites its column. *)
Definition apply_update (params : UpdateWorkOrderParams) (wo : WorkOrder)
  : WorkOrder :=
  {| wo_id := wo_id wo;
     wo_propertyId := wo_propertyId wo;
     wo_damageId := wo_damageId wo;
     wo_status := Prisma.patch (u_status params) (wo_status wo);
     wo_vendorId := Prisma.patch_null (u_vendorId params) (wo_vendorId wo);
     wo_assignedAt := Prisma.patch_null (u_assignedAt params) (wo_assignedAt wo);
     wo_scheduledAt :=
       Prisma.patch_null (u_scheduledAt params) (wo_scheduledAt wo);
     wo_startedAt := Prisma.patch_null (u_startedAt params) (wo_startedAt wo);
     wo_completedAt :=
       Prisma.patch_null (u_completedAt params) (wo_completedAt wo);
     wo_estimatedCost :=
       Prisma.patch_null (u_estimatedCost params) (wo_estimatedCost wo);
     wo_actualCost := Prisma.patch_null (u_actualCost params) (wo_actualCost wo);
     wo_laborCost := Prisma.patch_null (u_laborCost params) (wo_laborCost wo);
     wo_materialsCost :=
       Prisma.patch_null (u_materialsCost params) (wo_materialsCost wo);
     wo_completionNotes :=
       Prisma.patch_null (u_completionNotes params) (wo_completionNotes wo);
     wo_vendorNotes :=
       Prisma.patch_null (u_vendorNotes params) (wo_vendorNotes wo);
     wo_verifiedAt := Prisma.patch_null (u_verifiedAt params) (wo_verifiedAt wo);
     wo_verifiedBy := Prisma.patch_null (u_verifiedBy params) (wo_verifiedBy wo);
     wo_qualityRating :=
       Prisma.patch_null (u_qualityRating params) (wo_qualityRating wo);
     wo_vendorRating :=
       Prisma.patch_null (u_vendorRating params) (wo_vendorRating wo) |}.

Definition updateWorkOrder (svc : t) (id : string)
    (params : UpdateWorkOrderParams) : M WorkOrder :=
  workOrder ← Prisma.update workOrders with_workOrders id
                (apply_update params);
  lift (RabbitMQ.publishEvent (rabbitMQ svc)
          {| eventType := "updated"; entityType := "work_order";
             entityId := wo_id workOrder |});;
  mret workOrder.

Definition startWorkOrder (svc : t) (now : Z) (id : string) : M WorkOrder :=
  updateWorkOrder svc id
    {| u_status := Some IN_PROGRESS; u_vendorId := None; u_assignedAt := None;
       u_scheduledAt := None; u_startedAt := Some now; u_completedAt := None;
       u_estimatedCost := None; u_actualCost := None; u_laborCost := None;
       u_materialsCost := None; u_completionNotes := None;
       u_vendorNotes := None; u_verifiedAt := None; u_verifiedBy := None;
       u_qualityRating := None; u_vendorRating := None |}.

(** An identifier in an [if (...)]: [null] and the empty string are
    falsy. *)
Definition truthy_id (o : option string) : option string :=
  match o with
  | Some s => if String.eqb s "" then None else Some s
  | None => None
  end.

(** A number in an [if (...)] or before [?]: zero is falsy, and so is
    [undefined] or [null]. *)
Definition truthy_Z (o : option Z) : option Z :=
  match o with
  | Some z => if Z.eqb z 0 then None else Some z
  | None => None
  end.

Definition ms_per_day : Z := 1000 * 60 * 60 * 24.
Definition ms_per_hour : Z := 1000 * 60 * 60.

(** [Math.ceil((later.getTime() - earlier.getTime()) / unit)], computed
    when both dates are present. *)
Definition elapsed (unit : Z) (later earlier : option Z) : option Z :=
  match later, earlier with
  | Some l, Some e => Some (JS.Math_ceil (JS.ofZ (l - e) / JS.ofZ unit))
  | _, _ => None
  end.

(** [old ? (old * completedJobs + sample) / (completedJobs + 1) : sample],
    then [Math.round]. *)
Definition merged_average (old : option Z) (completedJobs sample : Z) : Z :=
  JS.Math_round
    match truthy_Z old with
    | Some avg =>
        ((JS.ofZ avg * JS.ofZ completedJobs + JS.ofZ sample)
         / JS.ofZ (completedJobs + 1))%Q
    | None => JS.ofZ sample
    end.

(** The [updates] object of [updateVendorStats] applied to the row. *)
Definition stats_update (vendor : Vendor)
    (completionTime responseTime : option Z) (row : Vendor) : Vendor :=
  {| v_id := v_id row;
     v_status := v_status row;
     v_internalNotes := v_internalNotes row;
     v_totalJobs := v_totalJobs row + 1;
     v_completedJobs := v_completedJobs row + 1;
     v_cancelledJobs := v_cancelledJobs row;
     v_avgCompletionTime :=
       match truthy_Z completionTime with
       | Some sample =>
           Some (merged_average (v_avgCompletionTime vendor)
                   (v_completedJobs vendor) sample)
       | None => v_avgCompletionTime row
       end;
     v_avgResponseTime :=
       match truthy_Z responseTime with
       | Some sample =>
           Some (merged_average (v_avgResponseTime vendor)
                   (v_completedJobs vendor) sample)
       | None => v_avgResponseTime row
       end;
     v_qualityScore := v_qualityScore row;
     v_rating := v_rating row |}.

Definition updateVendorStats (vendorId : string) (workOrder : WorkOrder)
  : M unit :=
  found ← Prisma.findUnique vendors vendorId;
  match found with
  | None => mret tt
  | Some vendor =>
      let completionTime :=
        elapsed ms_per_day (wo_completedAt workOrder) (wo_startedAt workOrder) in
      let responseTime :=
        elapsed ms_per_hour (wo_startedAt workOrder) (wo_assignedAt workOrder) in
      Prisma.update vendors with_vendors vendorId
        (stats_update vendor completionTime responseTime);;
      mret tt
  end.

(** [vendor.completedJobs || 1] *)
Definition totalRatings (vendor : Vendor) : Z :=
  JS.or_Z (v_completedJobs vendor) 1.

(** [vendor.rating ? parseFloat(vendor.rating.toString()) : 0]; a stored
    decimal is an object, hence truthy whatever its value. *)
Definition currentRating (vendor : Vendor) : Q := default 0%Q (v_rating vendor).

Definition newAvgRating (vendor : Vendor) (newRating : Q) : Q :=
  ((currentRating vendor * JS.ofZ (totalRatings vendor - 1) + newRating)
   / JS.ofZ (totalRatings vendor))%Q.

Definition set_rating (r : Q) (row : Vendor) : Vendor :=
  {| v_id := v_id row;
     v_status := v_status row;
     v_internalNotes := v_internalNotes row;
     v_totalJobs := v_totalJobs row;
     v_completedJobs := v_completedJobs row;
     v_cancelledJobs := v_cancelledJobs row;
     v_avgCompletionTime := v_avgCompletionTime row;
     v_avgResponseTime := v_avgResponseTime row;
     v_qualityScore := v_qualityScore row;
     v_rating := Some r |}.

Definition updateVendorRating (vendorId : string) (newRating : Q) : M unit :=
  found ← Prisma.findUnique vendors vendorId;
  match found with
  | None => mret tt
  | Some vendor =>
      Prisma.update vendors with_vendors vendorId
        (set_rating (newAvgRating vendor newRating));;
      mret tt
  end.

(** [data: { status, actualCost }] on a damage row. *)
Definition set_damage (status : DamageStatus) (actualCost : option Q)
    (d : Damage) : Damage :=
  {| dmg_id := dmg_id d;
     dmg_inspectionId := dmg_inspectionId d;
     dmg_propertyId := dmg_propertyId d;
     dmg_room := dmg_room d;
     dmg_location := dmg_location d;
     dmg_damageType := dmg_damageType d;
     dmg_severity := dmg_severity d;
     dmg_status := status;
     dmg_estimatedCostManual := dmg_estimatedCostManual d;
     dmg_estimatedCostAi := dmg_estimatedCostAi d;
     dmg_actualCost := Prisma.patch_null actualCost (dmg_actualCost d);
     dmg_beforePhotoUrl := dmg_beforePhotoUrl d;
     dmg_afterPhotoUrl := dmg_afterPhotoUrl d;
     dmg_photos := dmg_photos d;
     dmg_aiDetected := dmg_aiDetected d;
     dmg_aiConfidence := dmg_aiConfidence d;
     dmg_aiDamageType := dmg_aiDamageType d;
     dmg_aiSeverity := dmg_aiSeverity d;
     dmg_aiBoundingBox := dmg_aiBoundingBox d;
     dmg_aiMetadata := dmg_aiMetadata d |}.

Record CompleteParams := {
  cp_actualCost : option Q;
  cp_laborCost : option Q;
  cp_materialsCost : option Q;
  cp_completionNotes : option string;
  cp_vendorNotes : option string
}.

(** [notifyCompletion] and [notifyVendor]: a read and a POST inside
    [try]/[catch]. *)
Definition notify (answer : outcome unit) : M unit := swallow (lift answer).

Definition completeWorkOrder (svc : t) (now : Z) (notification : outcome unit)
    (id : string) (params : CompleteParams) : M WorkOrder :=
  workOrder ← updateWorkOrder svc id
    {| u_status := Some COMPLETED; u_vendorId := None; u_assignedAt := None;
       u_scheduledAt := None; u_startedAt := None; u_completedAt := Some now;
       u_estimatedCost := None;
       u_actualCost := cp_actualCost params;
       u_laborCost := cp_laborCost params;
       u_materialsCost := cp_materialsCost params;
       u_completionNotes := cp_completionNotes params;
       u_vendorNotes := cp_vendorNotes params;
       u_verifiedAt := None; u_verifiedBy := None;
       u_qualityRating := None; u_vendorRating := None |};
  match truthy_id (wo_damageId workOrder) with
  | Some damageId =>
      Prisma.update damages with_damages damageId
        (set_damage REPAIRED (cp_actualCost params));;
      mret tt
  | None => mret tt
  end;;
  match truthy_id (wo_vendorId workOrder) with
  | Some vendorId => updateVendorStats vendorId workOrder
  | None => mret tt
  end;;
  notify notification;;
  mret workOrder.

Definition verifyWorkOrder (svc : t) (now : Z) (id : string)
    (verifiedBy : string) (qualityRating vendorRating : Q) : M WorkOrder :=
  workOrder ← updateWorkOrder svc id
    {| u_status := Some VERIFIED; u_vendorId := None; u_assignedAt := None;
       u_scheduledAt := None; u_startedAt := None; u_completedAt := None;
       u_estimatedCost := None; u_actualCost := None; u_laborCost := None;
       u_materialsCost := None; u_completionNotes := None;
       u_vendorNotes := None;
       u_verifiedAt := Some now; u_verifiedBy := Some verifiedBy;
       u_qualityRating := Some qualityRating;
       u_vendorRating := Some vendorRating |};
  match truthy_id (wo_damageId workOrder) with
  | Some damageId =>
      Prisma.update damages with_damages damageId (set_damage D_VERIFIED None);;
      mret tt
  | None => mret tt
  end;;
  match truthy_id (wo_vendorId workOrder) with
  | Some vendorId => updateVendorRating vendorId vendorRating
  | None => mret tt
  end;;
  mret workOrder.

(** *** Creation, assignment, scheduling, cancellation *)

Record CreateWorkOrderParams := {
cw_propertyId : string;
cw_damageId : option string;
cw_vendorId : option string;
cw_scheduledAt : option Z;
cw_estimatedCost : option Q
}.

Definition createWorkOrder (svc : t) (now : Z) (newId : string)
    (notification : outcome unit) (params : CreateWorkOrderParams)
  : M WorkOrder :=
workOrder ← Prisma.create workOrders with_workOrders newId
  {| wo_id := newId;
     wo_propertyId := cw_propertyId params;
     wo_damageId := cw_damageId params;
     wo_status :=
       match truthy_id (cw_vendorId params) with
       | Some _ => ASSIGNED
       | None => PENDING
       end;
     wo_vendorId := cw_vendorId params;
     wo_assignedAt :=
       match truthy_id (cw_vendorId params) with
       | Some _ => Some now
       | None => None
       end;
     wo_scheduledAt := cw_scheduledAt params;
     wo_startedAt := None;
     wo_completedAt := None;
     wo_estimatedCost := cw_estimatedCost params;
     wo_actualCost := None;
     wo_laborCost := None;
     wo_materialsCost := None;
     wo_completionNotes := None;
     wo_vendorNotes := None;
     wo_verifiedAt := None;
     wo_verifiedBy := None;
     wo_qualityRating := None;
     wo_vendorRating := None |};
match truthy_id (cw_damageId params) with
| Some damageId =>
    Prisma.update damages with_damages damageId
      (set_damage REPAIR_SCHEDULED None);;
    mret tt
| None => mret tt
end;;
lift (RabbitMQ.publishEvent (rabbitMQ svc)
        {| eventType := "created"; entityType := "work_order";
           entityId := wo_id workOrder |});;
match truthy_id (cw_vendorId params) with
| Some _ => notify notification
| None => mret tt
end;;
mret workOrder.

(** [data: { cancelledJobs: { increment: 1 } }] *)
Definition count_cancellation (row : Vendor) : Vendor :=
{| v_id := v_id row;
   v_status := v_status row;
   v_internalNotes := v_internalNotes row;
   v_totalJobs := v_totalJobs row;
   v_completedJobs := v_completedJobs row;
   v_cancelledJobs := v_cancelledJobs row + 1;
   v_avgCompletionTime := v_avgCompletionTime row;
   v_avgResponseTime := v_avgResponseTime row;
   v_qualityScore := v_qualityScore row;
   v_rating := v_rating row |}.

Definition cancelWorkOrder (svc : t) (id : string) (reason : option string)
  : M WorkOrder :=
workOrder ← updateWorkOrder svc id
  {| u_status := Some CANCELLED; u_vendorId := None; u_assignedAt := None;
     u_scheduledAt := None; u_startedAt := None; u_completedAt := None;
     u_estimatedCost := None; u_actualCost := None; u_laborCost := None;
     u_materialsCost := None; u_completionNotes := reason;
     u_vendorNotes := None; u_verifiedAt := None; u_verifiedBy := None;
     u_qualityRating := None; u_vendorRating := None |};
match truthy_id (wo_vendorId workOrder) with
| Some vendorId =>
    Prisma.update vendors with_vendors vendorId count_cancellation;;
    mret tt
| None => mret tt
end;;
mret workOrder.

End WorkOrderService.

(** ** Vendor service *)

Module VendorService.

Record t := { rabbitMQ : RabbitMQUtil }.

Definition new : t := {| rabbitMQ := RabbitMQ.new |}.

Record ReviewParams := {
  r_workOrderId : option string;
  r_reviewerId : string;
  r_rating : Q;
  r_qualityRating : option Q;
  r_wouldRecommend : option bool;
  r_wouldHireAgain : option bool;
  r_photos : option (list string)
}.

(** [prisma.vendorReview.create] and [findMany({ where: { vendorId } })].
    The schema is not part of the sources, so no foreign-key check is made
    on insert; the properties below are about stored vendors. *)
Definition create_review (row : VendorReview) : M VendorReview :=
  fun db =>
    (Returned row, with_vendorReviews (vendorReviews db ++ [row])%list db).

Definition reviews_of (vendorId : string) (db : Db) : list VendorReview :=
  List.filter (fun r => String.eqb (rev_vendorId r) vendorId)
    (vendorReviews db).

Definition find_reviews (vendorId : string) : M (list VendorReview) :=
  fun db => (Returned (reviews_of vendorId db), db).

Definition has_quality (r : VendorReview) : bool :=
  match rev_qualityRating r with Some _ => true | None => false end.

Definition set_scores (rating : Q) (qualityScore : option Q) (row : Vendor)
  : Vendor :=
  {| v_id := v_id row;
     v_status := v_status row;
     v_internalNotes := v_internalNotes row;
     v_totalJobs := v_totalJobs row;
     v_completedJobs := v_completedJobs row;
     v_cancelledJobs := v_cancelledJobs row;
     v_avgCompletionTime := v_avgCompletionTime row;
     v_avgResponseTime := v_avgResponseTime row;
     v_qualityScore := Prisma.patch_null qualityScore (v_qualityScore row);
     v_rating := Some rating |}.

(** [reviews.reduce((sum, r) => sum + r.rating, 0) / reviews.length] *)
Definition avgRating (reviews : list VendorReview) : Q :=
  JS.meanQ (rev_rating <$> reviews).

(** The mean of [r.qualityRating || 0] over the reviews whose
    [qualityRating] is not [null], or [undefined] when there is none. *)
Definition avgQuality (reviews : list VendorReview) : option Q :=
  let qualityReviews := List.filter has_quality reviews in
  if (0 <? length qualityReviews)%nat
  then Some (JS.meanQ ((fun r => default 0%Q (rev_qualityRating r))
                         <$> qualityReviews))
  else None.

Definition recalculateVendorRating (vendorId : string) : M unit :=
  reviews ← find_reviews vendorId;
  if (length reviews =? 0)%nat then mret tt
  else
    Prisma.update vendors with_vendors vendorId
      (set_scores (avgRating reviews) (avgQuality reviews));;
    mret tt.

(** The review row that [addReview] inserts. *)
Definition review_row (vendorId : string) (params : ReviewParams)
  : VendorReview :=
  {| rev_vendorId := vendorId;
     rev_workOrderId := r_workOrderId params;
     rev_reviewerId := r_reviewerId params;
     rev_rating := r_rating params;
     rev_qualityRating := r_qualityRating params;
     rev_wouldRecommend := default true (r_wouldRecommend params);
     rev_wouldHireAgain := default true (r_wouldHireAgain params);
     rev_photos := default [] (r_photos params) |}.

Definition addReview (svc : t) (vendorId : string) (params : ReviewParams)
  : M VendorReview :=
  if JS.Qlt_bool (r_rating params) 1 || JS.Qlt_bool 5 (r_rating params)
  then throw "Rating must be between 1 and 5"
  else
    review ← create_review (review_row vendorId params);
    recalculateVendorRating vendorId;;
    mret review.

Definition active_statuses : list WorkOrderStatus :=
  [PENDING; ASSIGNED; SCHEDULED; IN_PROGRESS].

(** [where: { vendorId: id, status: { in: [...] } }] *)
Definition is_active_order_of (id : string) (wo : WorkOrder) : bool :=
  bool_decide (wo_vendorId wo = Some id)
  && bool_decide (wo_status wo ∈ active_statuses).

Definition deleteVendor (svc : t) (id : string) : M unit :=
  activeWorkOrders ← Prisma.count workOrders (is_active_order_of id);
  if 0 <? activeWorkOrders
  then throw "Cannot delete vendor with active work orders"
  else
    Prisma.delete vendors with_vendors id;;
    lift (RabbitMQ.publishEvent (rabbitMQ svc)
            {| eventType := "deleted"; entityType := "vendor";
               entityId := id |});;
    mret tt.

(** *** Status changes, metrics, review pages, service areas *)

Record UpdateVendorParams := {
uv_status : option VendorStatus;
uv_internalNotes : option string
}.

Definition apply_update (params : UpdateVendorParams) (row : Vendor) : Vendor :=
{| v_id := v_id row;
   v_status := Prisma.patch (uv_status params) (v_status row);
   v_internalNotes :=
     Prisma.patch_null (uv_internalNotes params) (v_internalNotes row);
   v_totalJobs := v_totalJobs row;
   v_completedJobs := v_completedJobs row;
   v_cancelledJobs := v_cancelledJobs row;
   v_avgCompletionTime := v_avgCompletionTime row;
   v_avgResponseTime := v_avgResponseTime row;
   v_qualityScore := v_qualityScore row;
   v_rating := v_rating row |}.

Definition updateVendor (svc : t) (id : string) (params : UpdateVendorParams)
  : M Vendor :=
vendor ← Prisma.update vendors with_vendors id (apply_update params);
lift (RabbitMQ.publishEvent (rabbitMQ svc)
        {| eventType := "updated"; entityType := "vendor";
           entityId := v_id vendor |});;
mret vendor.

Definition activateVendor (svc : t) (id : string) : M Vendor :=
updateVendor svc id {| uv_status := Some V_ACTIVE; uv_internalNotes := None |}.

Definition suspendVendor (svc : t) (id : string) (reason : option string)
  : M Vendor :=
updateVendor svc id
  {| uv_status := Some V_SUSPENDED; uv_internalNotes := reason |}.

(** An optional number in an [if (...)]: zero is falsy. *)
Definition nonzero (o : option Z) : option Z :=
match o with
| Some z => if Z.eqb z 0 then None else Some z
| None => None
end.

Record ServiceArea := { sa_city : string; sa_state : string; sa_radiusMiles : Q }.

(** A string parameter in an [if (...)] or before [&&]: [undefined] and
    the empty string are falsy. *)
Definition given (o : option string) : option string :=
match o with
| Some s => if String.eqb s "" then None else Some s
| None => None
end.

(** The callback of [serviceAreas.some(...)] *)
Definition area_matches (city state : option string) (area : ServiceArea)
  : bool :=
match given state with
| Some s => String.eqb (sa_state area) s
| None => true
end
&& match given city with
   | Some c => String.eqb (sa_city area) c
   | None => true
   end.

(** The second pass of [searchVendorsBySpecialty], over the rows the query
    returned, each with its [serviceAreas] column. *)
Definition filterByServiceArea {A} (city state : option string)
    (found : list (A * list ServiceArea)) : list (A * list ServiceArea) :=
match given city, given state with
| None, None => found
| _, _ =>
    List.filter (fun vendor => existsb (area_matches city state) (snd vendor))
      found
end.

Record Page (A : Type) := {
pg_data : list A;
pg_page : Z;
pg_limit : Z;
pg_total : Z;
pg_totalPages : Z
}.
Arguments pg_data {A}.
Arguments pg_page {A}.
Arguments pg_limit {A}.
Arguments pg_total {A}.
Arguments pg_totalPages {A}.

(** [where: { vendorId, rating: { gte: minRating } }], the rating bound
    only when [minRating] is truthy. *)
Definition review_matches (vendorId : string) (minRating : option Z)
    (r : VendorReview) : bool :=
String.eqb (rev_vendorId r) vendorId
&& match nonzero minRating with
   | Some m => Qle_bool (inject_Z m) (rev_rating r)
   | None => true
   end.

(** [getReviews]: [skip = (page - 1) * limit], [take = limit], newest
    first (rows are created one after the other, so newest first is the
    reverse of insertion order), and [totalPages = ceil(total / limit)].
    What Prisma does with a negative [skip] or [take] is not modelled: the
    properties below are about [page >= 1] and [limit >= 1]. *)
Definition getReviews (vendorId : string) (page limit : Z)
    (minRating : option Z) : M (Page VendorReview) :=
let skip := (page - 1) * limit in
db ← get_db;
let matching :=
  List.filter (review_matches vendorId minRating) (rev (vendorReviews db)) in
let total := Z.of_nat (length matching) in
mret {| pg_data := firstn (Z.to_nat limit) (skipn (Z.to_nat skip) matching);
        pg_page := page;
        pg_limit := limit;
        pg_total := total;
        pg_totalPages := JS.Math_ceil (JS.ofZ total / JS.ofZ limit) |}.

End VendorService.

(** ** HTTP layer (controllers) *)

(** What a handler sends: a payload with a status code, an error body, or
    an empty answer. *)
Inductive Reply (A : Type) : Type :=
| Sent (code : Z) (payload : A)
| Failed (code : Z) (error message : string)
| Empty (code : Z).
Arguments Sent {A} code payload.
Arguments Failed {A} code error message.
Arguments Empty {A} code.

Definition reply_code {A} (r : Reply A) : Z :=
match r with
| Sent code _ => code
| Failed code _ _ => code
| Empty code => code
end.

Record User := { userId : string; role : string }.

Module Controller.

(** The [catch (error)] branch every handler ends with. *)
Definition internal_error {A} (msg : string) : Reply A :=
Failed 500 "Internal Server Error" msg.

(** [InspectionController.getInspection] *)
Definition getInspection (id : string) (db : Db) : Reply Inspection * Db :=
match InspectionService.getInspection id db with
| (Returned (Some inspection), db') => (Sent 200 inspection, db')
| (Returned None, db') => (Failed 404 "Not Found" "Inspection not found", db')
| (Thrown msg, db') => (internal_error msg, db')
end.

(** [VendorController.deleteVendor] *)
Definition deleteVendor (svc : VendorService.t) (id : string) (db : Db)
  : Reply unit * Db :=
match VendorService.deleteVendor svc id db with
| (Returned _, db') => (Empty 204, db')
| (Thrown msg, db') => (internal_error msg, db')
end.

(** [VendorController.addReview] *)
Definition addReview (svc : VendorService.t) (id : string)
    (params : VendorService.ReviewParams) (db : Db)
  : Reply VendorReview * Db :=
match VendorService.addReview svc id params db with
| (Returned review, db') => (Sent 201 review, db')
| (Thrown msg, db') => (internal_error msg, db')
end.

(** The fields of the request body that [createInspection] passes on;
    [scheduledAt] is the parsed date. *)
Record CreateInspectionBody := {
b_propertyId : string;
b_inspectorId : option string;
b_scheduledAt : Z;
b_notes : option string
}.

(** [InspectionController.createInspection]; the inspector is
    [body.inspectorId || user.userId]. *)
Definition createInspection (svc : InspectionService.t) (newId : string)
    (user : User) (body : CreateInspectionBody) (db : Db)
  : Reply Inspection * Db :=
match
  InspectionService.createInspection svc newId
    {| InspectionService.c_propertyId := b_propertyId body;
       InspectionService.c_inspectorId :=
         JS.or_string (b_inspectorId body) (userId user);
       InspectionService.c_scheduledAt := b_scheduledAt body;
       InspectionService.c_notes := b_notes body |} db
with
| (Returned inspection, db') => (Sent 201 inspection, db')
| (Thrown msg, db') => (internal_error msg, db')
end.

End Controller.

(** * Specification vocabulary *)

(** ** Inspections *)

Definition completed_consistent (i : Inspection) : Prop :=
  is_Some (insp_completedAt i) -> insp_status i = I_COMPLETED.

#[global] Instance completed_consistent_dec i : Decision (completed_consistent i).
Proof. unfold completed_consistent. apply _. Defined.

Definition inspection_invariant (db : Db) : Prop :=
  map_Forall (fun _ i => completed_consistent i) (inspections db).

#[global] Instance inspection_invariant_dec db : Decision (inspection_invariant db).
Proof. unfold inspection_invariant. apply _. Defined.

(** A patch that keeps the invariant whatever row it meets. *)
Definition patch_consistent (params : InspectionService.UpdateInspectionParams)
  : Prop :=
  InspectionService.u_status params = Some I_COMPLETED
  \/ (InspectionService.u_status params = None
      /\ InspectionService.u_completedAt params = None).


(** *** Sample rows *)

Definition sample_inspection : Inspection :=
  {| insp_id := "insp-1"; insp_propertyId := "prop-1";
     insp_inspectorId := "user-1"; insp_scheduledAt := 1000;
     insp_status := I_COMPLETED; insp_startedAt := Some 2000;
     insp_completedAt := Some 3000; insp_photos := None;
     insp_overallCondition := Some GOOD; insp_notes := Some "n";
     insp_startLocation := None; insp_endLocation := None;
     insp_reportUrl := None; insp_reportGeneratedAt := None |}.

Definition empty_db : Db :=
  {| inspections := ∅; damages := ∅; workOrders := ∅; vendors := ∅;
     vendorReviews := [] |}.

Definition completed_db : Db :=
  with_inspections {[ "insp-1" := sample_inspection ]} empty_db.

Definition sample_damage : Damage :=
  {| dmg_id := "dmg-1"; dmg_inspectionId := "insp-1"; dmg_propertyId := "prop-1";
     dmg_room := "kitchen"; dmg_location := "wall"; dmg_damageType := STAIN;
     dmg_severity := MINOR; dmg_status := REPORTED;
     dmg_estimatedCostManual := None; dmg_estimatedCostAi := None;
     dmg_actualCost := None; dmg_beforePhotoUrl := None;
     dmg_afterPhotoUrl := None; dmg_photos := []; dmg_aiDetected := false;
     dmg_aiConfidence := None; dmg_aiDamageType := None; dmg_aiSeverity := None;
     dmg_aiBoundingBox := None; dmg_aiMetadata := None |}.

(** *** Report layout *)

Definition all_drawn_on (p : nat) (doc : Pdf.Document) : Prop :=
  Forall (fun op => Pdf.op_page op = p) (Pdf.drawn doc).

(** The report of an inspection with twenty-two damages. *)
Definition long_report : Pdf.Document :=
  InspectionService.render sample_inspection (repeat sample_damage 22).

(** ** AI detection *)

(** The vision client reports a detection whose confidence reaches the
    configured threshold. *)
Definition confident (cfg : Config) (aiResult : AIDetectionResult) : Prop :=
  detected aiResult = true
  /\ (ai_confidenceThreshold cfg <= confidence aiResult)%Q.


Definition sample_box : BoundingBox :=
  {| bb_x := 1; bb_y := 2; bb_width := 3; bb_height := 4 |}.


Definition sample_detect_params : DamageService.DetectParams :=
  {| DamageService.d_inspectionId := "insp-1";
     DamageService.d_propertyId := "prop-1";
     DamageService.d_room := "kitchen";
     DamageService.d_location := "wall" |}.

(** ** Vendors *)

Definition valid_rating (r : Q) : Prop := (1 <= r)%Q /\ (r <= 5)%Q.

(** The vendor has a work order that is still open. *)
Definition has_active_order (db : Db) (id : string) : Prop :=
  exists k wo,
    workOrders db !! k = Some wo
    /\ wo_vendorId wo = Some id
    /\ wo_status wo ∈ VendorService.active_statuses.

Definition sample_vendor : Vendor :=
  {| v_id := "vendor-1"; v_status := V_ACTIVE; v_internalNotes := None;
     v_totalJobs := 1; v_completedJobs := 1; v_cancelledJobs := 0;
     v_avgCompletionTime := Some 2; v_avgResponseTime := None;
     v_qualityScore := None; v_rating := Some (4 # 1) |}.

Definition vendor_db : Db :=
  with_vendors {[ "vendor-1" := sample_vendor ]} empty_db.

Definition sample_review (rating : Q) (quality : option Q)
  : VendorService.ReviewParams :=
  {| VendorService.r_workOrderId := None;
     VendorService.r_reviewerId := "user-1";
     VendorService.r_rating := rating;
     VendorService.r_qualityRating := quality;
     VendorService.r_wouldRecommend := None;
     VendorService.r_wouldHireAgain := None;
     VendorService.r_photos := None |}.

(** A publisher whose channel has been opened. *)
Definition connected : RabbitMQUtil :=
  {| channel := Some {| ch_open := true |} |}.

(** The arithmetic mean of the specification: the sum of the values over
    their number. *)
Definition arithmetic_mean (l : list Q) : Q :=
  (fold_right Qplus 0 l / inject_Z (Z.of_nat (length l)))%Q.

(** [addReview] called once per element, in order, for one vendor. *)
Definition add_reviews (svc : VendorService.t) (vendorId : string)
    (reviews : list VendorService.ReviewParams) (db : Db) : Db :=
  fold_left (fun db params => snd (VendorService.addReview svc vendorId params db))
    reviews db.

Definition three_reviews : list VendorService.ReviewParams :=
  [sample_review (5 # 1) None; sample_review (4 # 1) (Some (3 # 1));
   sample_review (3 # 1) None].

(** ** Work orders *)

(** The publisher of the service accepts events. *)
Definition can_publish (r : RabbitMQUtil) : Prop :=
  channel r = Some {| ch_open := true |}.

(** The running-rating formula of the specification. *)
Definition incremental_rating (oldRating : Q) (completedJobs : Z)
    (vendorRating : Q) : Q :=
  ((oldRating * inject_Z (completedJobs - 1) + vendorRating)
   / inject_Z completedJobs)%Q.

(** The running-average formula of the specification, before rounding. *)
Definition incremental_average (oldAvg completedJobsBefore sample : Z) : Q :=
  ((inject_Z oldAvg * inject_Z completedJobsBefore + inject_Z sample)
   / inject_Z (completedJobsBefore + 1))%Q.

(** A vendor that has completed nothing yet but already carries a rating. *)
Definition fresh_vendor : Vendor :=
  {| v_id := "vendor-2"; v_status := V_ACTIVE; v_internalNotes := None;
     v_totalJobs := 0; v_completedJobs := 0; v_cancelledJobs := 0;
     v_avgCompletionTime := None; v_avgResponseTime := None;
     v_qualityScore := None; v_rating := Some (4 # 1) |}.

(** A vendor whose only completed job had no start date. *)
Definition unseeded_vendor : Vendor :=
  {| v_id := "vendor-3"; v_status := V_ACTIVE; v_internalNotes := None;
     v_totalJobs := 1; v_completedJobs := 1; v_cancelledJobs := 0;
     v_avgCompletionTime := None; v_avgResponseTime := None;
     v_qualityScore := None; v_rating := None |}.

Definition sample_order (id : string) (damageId vendorId : option string)
    (assignedAt startedAt : option Z) (actualCost : option Q) : WorkOrder :=
  {| wo_id := id; wo_propertyId := "prop-1"; wo_damageId := damageId;
     wo_status := IN_PROGRESS; wo_vendorId := vendorId;
     wo_assignedAt := assignedAt; wo_scheduledAt := None;
     wo_startedAt := startedAt; wo_completedAt := None;
     wo_estimatedCost := None; wo_actualCost := actualCost;
     wo_laborCost := None; wo_materialsCost := None;
     wo_completionNotes := None; wo_vendorNotes := None;
     wo_verifiedAt := None; wo_verifiedBy := None; wo_qualityRating := None;
     wo_vendorRating := None |}.

Definition no_costs : WorkOrderService.CompleteParams :=
  {| WorkOrderService.cp_actualCost := None;
     WorkOrderService.cp_laborCost := None;
     WorkOrderService.cp_materialsCost := None;
     WorkOrderService.cp_completionNotes := None;
     WorkOrderService.cp_vendorNotes := None |}.

Definition with_cost (c : Q) : WorkOrderService.CompleteParams :=
  {| WorkOrderService.cp_actualCost := Some c;
     WorkOrderService.cp_laborCost := None;
     WorkOrderService.cp_materialsCost := None;
     WorkOrderService.cp_completionNotes := None;
     WorkOrderService.cp_vendorNotes := None |}.

Definition connected_orders : WorkOrderService.t :=
  {| WorkOrderService.rabbitMQ := connected |}.

(** The database after the cascade onto the linked damage, if any. *)
Definition cascaded (status : DamageStatus) (actualCost : option Q)
    (damageId : option string) (db : Db) : Db :=
  match WorkOrderService.truthy_id damageId with
  | Some did =>
      match damages db !! did with
      | Some d =>
          with_damages
            (<[did := WorkOrderService.set_damage status actualCost d]>
               (damages db)) db
      | None => db
      end
  | None => db
  end.

(** A work order that links to a damage links to a stored one. *)
Definition link_resolves (wo : WorkOrder) (db : Db) : Prop :=
  forall did,
    WorkOrderService.truthy_id (wo_damageId wo) = Some did ->
    is_Some (damages db !! did).

(** An order of "vendor-2", not linked to any damage. *)
Definition rating_db : Db :=
  with_workOrders
    {[ "wo-1" := sample_order "wo-1" None (Some "vendor-2") None None None ]}
    (with_vendors {[ "vendor-2" := fresh_vendor ]} empty_db).

(** [new] is the running average after [sample], as far as the
    specification and the code agree: merged by the formula into a stored
    non-zero average, or equal to the sample when no average is stored. *)
Definition merged_into (old : option Z) (completedJobsBefore sample : Z)
    (new : option Z) : Prop :=
  (forall avg, old = Some avg -> avg <> 0 ->
     new = Some (JS.Math_round
                   (incremental_average avg completedJobsBefore sample)))
  /\ (old = None -> new = Some sample).

(** ceil of the number of [unit]s between two instants *)
Definition ceil_between (unit later earlier : Z) : Z :=
  Qceiling (inject_Z (later - earlier) / inject_Z unit).

Definition four_days : Z := 4 * WorkOrderService.ms_per_day.

(** An order started at 0 and completed after four days. *)
Definition four_day_order (vendorId : string) : WorkOrder :=
  {| wo_id := "wo-4"; wo_propertyId := "prop-1"; wo_damageId := None;
     wo_status := COMPLETED; wo_vendorId := Some vendorId;
     wo_assignedAt := None; wo_scheduledAt := None;
     wo_startedAt := Some 0; wo_completedAt := Some four_days;
     wo_estimatedCost := None; wo_actualCost := None;
     wo_laborCost := None; wo_materialsCost := None;
     wo_completionNotes := None; wo_vendorNotes := None;
     wo_verifiedAt := None; wo_verifiedBy := None; wo_qualityRating := None;
     wo_vendorRating := None |}.

Definition unseeded_db : Db :=
  with_vendors {[ "vendor-3" := unseeded_vendor ]} empty_db.

(** An order with a recorded cost of 100, linked to a reported damage. *)
Definition repair_db : Db :=
  with_workOrders
    {[ "wo-2" := sample_order "wo-2" (Some "dmg-1") None None None
                   (Some (100 # 1)) ]}
    (with_damages {[ "dmg-1" := sample_damage ]} empty_db).

(** ** Further sample data *)

Definition sample_create : InspectionService.CreateInspectionParams :=
  {| InspectionService.c_propertyId := "prop-1";
     InspectionService.c_inspectorId := "user-1";
     InspectionService.c_scheduledAt := 1000;
     InspectionService.c_notes := None |}.

Definition sample_photo_params : InspectionService.PhotoParams :=
  {| InspectionService.p_room := "kitchen";
     InspectionService.p_angle := None;
     InspectionService.p_gps := None;
     InspectionService.p_device := None |}.

Definition sample_upload : S3UploadResult :=
  {| s3_url := "https://bucket/photo.jpg"; s3_key := "photo.jpg" |}.

(** The line being filled is empty or a body of fitting length followed by
    one space. *)
Definition fitting_line (maxLength : nat) (currentLine : string) : Prop :=
  currentLine = ""
  \/ exists body, currentLine = body +:+ " "
                  /\ (String.length body <= maxLength)%nat.

(** The text runs of a report, in drawing order: title, the seven detail
    lines, the damages under their heading, the wrapped notes under
    theirs. *)
Definition damage_line (d : Damage) : Pdf.Content :=
  Pdf.DamageLine (dmg_damageType d) (dmg_severity d) (dmg_room d).

Definition report_contents (inspection : Inspection)
    (inspection_damages : list Damage) : list Pdf.Content :=
  [Pdf.Title]
  ++ (Pdf.Detail <$> InspectionService.details)
  ++ match inspection_damages with
     | [] => []
     | _ => Pdf.DamagesHeading :: (damage_line <$> inspection_damages)
     end
  ++ match insp_notes inspection with
     | Some notes =>
         if String.eqb notes "" then []
         else Pdf.NotesHeading
              :: (Pdf.NotesLine <$> InspectionService.wrapText notes 80)
     | None => []
     end.

Definition contents_of (doc : Pdf.Document) : list Pdf.Content :=
  Pdf.op_content <$> Pdf.drawn doc.

(** ** Vision client *)

(** The names of the enumeration members, as the database spells them. *)
Definition severity_label (s : Severity) : string :=
  match s with
  | MINOR => "MINOR" | MODERATE => "MODERATE" | MAJOR => "MAJOR"
  | CRITICAL => "CRITICAL"
  end.

Definition damageType_label (t : DamageType) : string :=
  match t with
  | SCRATCH => "SCRATCH" | STAIN => "STAIN" | CRACK => "CRACK"
  | BURN => "BURN" | WATER_DAMAGE => "WATER_DAMAGE" | HOLE => "HOLE"
  | BROKEN_ITEM => "BROKEN_ITEM" | DENT => "DENT" | MOLD => "MOLD"
  | PEST => "PEST" | OTHER => "OTHER"
  end.

Definition two_detections : CVDetectionResponse :=
  {| cv_success := true;
     cv_detections :=
       Some [ {| det_type := "stain"; det_confidence := 6 # 10;
                 det_boundingBox := sample_box; det_severity := "minor" |};
              {| det_type := "crack"; det_confidence := 9 # 10;
                 det_boundingBox := sample_box; det_severity := "major" |} ];
     cv_metadata := None |}.

(** ** Before/after comparison *)

(** The difference reaches the configured threshold. *)
Definition qualifies (cfg : Config) (diff : CVIntegrationService.Difference)
  : bool :=
  Qle_bool (ai_confidenceThreshold cfg)
    (CVIntegrationService.diff_confidence diff).

(** The labels can be stored: neither names, in lower case, a member of
    [Object.prototype], and when the cost request fails the severity label
    as it was given names none either.  (The tables of the services are
    object literals; under such a key they answer with what they inherit,
    which no enum or decimal column takes.) *)
Definition storable_labels (cost : outcome CostResponse)
    (damageType severity : string) : Prop :=
  JS.inherited (JS.toLowerCase damageType) = false
  /\ JS.inherited (JS.toLowerCase severity) = false
  /\ (forall msg, cost = Thrown msg -> JS.inherited severity = false).

(** The stored damage is the record of this difference between these two
    uploads, for the inspection and place given. *)
Definition records_difference (params : DamageService.DetectParams)
    (beforeUpload afterUpload : S3UploadResult)
    (damage : Damage) (diff : CVIntegrationService.Difference) : Prop :=
  dmg_status damage = UNDER_REVIEW
  /\ dmg_aiDetected damage = true
  /\ dmg_aiConfidence damage = Some (CVIntegrationService.diff_confidence diff)
  /\ dmg_aiDamageType damage = Some (CVIntegrationService.diff_type diff)
  /\ dmg_aiSeverity damage = Some (CVIntegrationService.diff_severity diff)
  /\ dmg_aiBoundingBox damage
     = Some (CVIntegrationService.diff_boundingBox diff)
  /\ dmg_beforePhotoUrl damage = Some (s3_url beforeUpload)
  /\ dmg_afterPhotoUrl damage = Some (s3_url afterUpload)
  /\ dmg_photos damage = [s3_url beforeUpload; s3_url afterUpload]
  /\ dmg_inspectionId damage = DamageService.d_inspectionId params
  /\ dmg_propertyId damage = DamageService.d_propertyId params
  /\ dmg_room damage = DamageService.d_room params
  /\ dmg_location damage = DamageService.d_location params
  /\ DamageService.mapAIDamageType (CVIntegrationService.diff_type diff)
     = JS.Found (dmg_damageType damage)
  /\ DamageService.mapAISeverity (CVIntegrationService.diff_severity diff)
     = JS.Found (dmg_severity damage)
  /\ is_Some (dmg_estimatedCostAi damage).

(** Identifiers "cmp-0", "cmp-1", ... would do; a unary numbering keeps the
    sample generator injective by construction. *)
Fixpoint nth_id (n : nat) : string :=
  match n with
  | O => "cmp"
  | S n' => String "x" (nth_id n')
  end.

(** One difference at confidence 0.9 and one at 0.6. *)
Definition sample_compare_world : DamageService.CompareWorld :=
  {| DamageService.cw_before :=
       Returned {| s3_url := "https://bucket/before.jpg"; s3_key := "b" |};
     DamageService.cw_after :=
       Returned {| s3_url := "https://bucket/after.jpg"; s3_key := "a" |};
     DamageService.cw_comparison := Returned two_detections;
     DamageService.cw_cost := fun _ => Thrown "timeout";
     DamageService.cw_newId := nth_id |}.

(** ** Further work-order vocabulary *)

Definition assigned_params (vendorId : string)
  : WorkOrderService.CreateWorkOrderParams :=
  {| WorkOrderService.cw_propertyId := "prop-1";
     WorkOrderService.cw_damageId := Some "dmg-1";
     WorkOrderService.cw_vendorId := Some vendorId;
     WorkOrderService.cw_scheduledAt := None;
     WorkOrderService.cw_estimatedCost := None |}.

(** A stored damage and a stored vendor, no work order yet. *)
Definition intake_db : Db :=
  with_damages {[ "dmg-1" := sample_damage ]} vendor_db.

(** An order of "vendor-1" linked to "dmg-1". *)
Definition linked_db : Db :=
  with_workOrders
    {[ "wo-3" := sample_order "wo-3" (Some "dmg-1") (Some "vendor-1") None None
                   None ]}
    intake_db.


(** ** Vendors: further sample data *)

(** A review of "vendor-1" with the given rating, as stored. *)
Definition stored_review (rating : Q) : VendorReview :=
  VendorService.review_row "vendor-1" (sample_review rating None).

(** "vendor-1" with two stored reviews, and an untouched "vendor-2". *)
Definition reviewed_db : Db :=
  with_vendorReviews [stored_review (5 # 1); stored_review (2 # 1)]
    (with_vendors {[ "vendor-1" := sample_vendor; "vendor-2" := fresh_vendor ]}
       empty_db).


(** A search parameter that is left out (or empty) does not constrain. *)
Definition unspecified (o : option string) : Prop := o = None \/ o = Some "".

(** The area lies in the wanted state and city, as far as they are given. *)
Definition serves (city state : option string)
    (area : VendorService.ServiceArea) : Prop :=
  (unspecified state \/ state = Some (VendorService.sa_state area))
  /\ (unspecified city \/ city = Some (VendorService.sa_city area)).

(** A manual report of a broken window, and a request as the routes pass
    it on. *)
Definition sample_report : DamageService.CreateDamageParams :=
  {| DamageService.cd_inspectionId := "insp-1";
     DamageService.cd_propertyId := "prop-1";
     DamageService.cd_room := "hall";
     DamageService.cd_location := "window";
     DamageService.cd_damageType := BROKEN_ITEM;
     DamageService.cd_severity := MAJOR;
     DamageService.cd_estimatedCostManual := None |}.

Definition sample_user : User := {| userId := "user-7"; role := "inspector" |}.

Definition sample_body : Controller.CreateInspectionBody :=
  {| Controller.b_propertyId := "prop-1";
     Controller.b_inspectorId := None;
     Controller.b_scheduledAt := 1000;
     Controller.b_notes := None |}.

(** ** Reports and the font *)

(** The damages that the report of inspection [id] lists. *)
Definition damages_of (id : string) (db : Db) : list Damage :=
  List.filter (fun d => String.eqb (dmg_inspectionId d) id)
    (snd <$> map_to_list (damages db)).

(** The font encodes the text of every run of the document. *)
Definition encodable (encodeText : Pdf.Encoder) (doc : Pdf.Document) : Prop :=
  Forall (fun op => encodeText (Pdf.op_content op) = Returned tt)
    (Pdf.drawn doc).

(** The font refuses the text of some run of the document. *)
Definition refused (encodeText : Pdf.Encoder) (doc : Pdf.Document) : Prop :=
  Exists (fun op => exists msg, encodeText (Pdf.op_content op) = Thrown msg)
    (Pdf.drawn doc).

(** A font for reports in plain ASCII: nothing is refused. *)
Definition ascii_font : Pdf.Encoder := fun _ => Returned tt.

(** The difference that [compareImages] makes of the second detection
    of [two_detections]. *)
Definition sample_crack : CVIntegrationService.Difference :=
  {| CVIntegrationService.diff_type := "crack";
     CVIntegrationService.diff_severity := "major";
     CVIntegrationService.diff_boundingBox := sample_box;
     CVIntegrationService.diff_confidence := 9 # 10 |}.

(** A vendor with two completed jobs and a rating of 4, and an order of
    theirs that is not linked to any damage. *)
Definition seasoned_vendor : Vendor :=
  {| v_id := "vendor-4"; v_status := V_ACTIVE; v_internalNotes := None;
     v_totalJobs := 2; v_completedJobs := 2; v_cancelledJobs := 0;
     v_avgCompletionTime := None; v_avgResponseTime := None;
     v_qualityScore := None; v_rating := Some (4 # 1) |}.

Definition seasoned_db : Db :=
  with_workOrders
    {[ "wo-5" := sample_order "wo-5" None (Some "vendor-4") None None None ]}
    (with_vendors {[ "vendor-4" := seasoned_vendor ]} empty_db).

(** * Properties *)

(** ** Running the monad *)

Lemma run_bind {A B} (m : M A) (k : A -> M B) (db : Db) :
  (m ≫= k) db =
  match m db with
  | (Returned a, db') => k a db'
  | (Thrown e, db') => (Thrown e, db')
  end.
Proof. reflexivity. Qed.

Lemma run_lift_bind {A B} (o : outcome A) (k : A -> M B) (db : Db) :
  (lift o ≫= k) db =
  match o with Returned a => k a db | Thrown e => (Thrown e, db) end.
Proof. rewrite run_bind. unfold lift. by destruct o. Qed.

(** Publishing never touches the database, whatever the channel does. *)
Lemma snd_publish_then {A} (r : RabbitMQUtil) (ev : EventPayload) (a : A)
    (db : Db) :
  snd ((lift (RabbitMQ.publishEvent r ev) ≫= fun _ => mret a) db) = db.
Proof. rewrite run_lift_bind. by destruct (RabbitMQ.publishEvent r ev). Qed.

(** A service as the application builds it cannot publish. *)
Lemma publish_unconnected (ev : EventPayload) :
  RabbitMQ.publishEvent RabbitMQ.new ev
  = Thrown "RabbitMQ channel not initialized".
Proof. reflexivity. Qed.

(** ** Inspections: [completedAt] set implies status COMPLETED *)

Lemma prisma_update_invariant (id : string) (f : Inspection -> Inspection)
    (db : Db) :
  inspection_invariant db ->
  (forall i, inspections db !! id = Some i -> completed_consistent (f i)) ->
  inspection_invariant
    (snd (Prisma.update inspections with_inspections id f db)).
Proof.
  intros Hinv Hrow. unfold Prisma.update.
  destruct (inspections db !! id) as [row|] eqn:Hlook; simpl; [|done].
  apply map_Forall_insert_2; auto.
Qed.

Lemma snd_updateInspection svc id params db :
  snd (InspectionService.updateInspection svc id params db)
  = snd (Prisma.update inspections with_inspections id
           (InspectionService.apply_update params) db).
Proof.
  unfold InspectionService.updateInspection. rewrite run_bind.
  destruct (Prisma.update _ _ _ _ db) as [[row|e] db']; [|done].
  apply snd_publish_then.
Qed.

Lemma updateInspection_invariant svc id params db :
  inspection_invariant db ->
  (forall i, inspections db !! id = Some i ->
             completed_consistent (InspectionService.apply_update params i)) ->
  inspection_invariant (snd (InspectionService.updateInspection svc id params db)).
Proof.
  intros. rewrite snd_updateInspection. by apply prisma_update_invariant.
Qed.

Lemma createInspection_invariant svc newId params db :
  inspection_invariant db ->
  inspection_invariant
    (snd (InspectionService.createInspection svc newId params db)).
Proof.
  intros Hinv. unfold InspectionService.createInspection.
  rewrite run_bind. unfold Prisma.create.
  destruct (inspections db !! newId) eqn:Hlook; [done|].
  rewrite snd_publish_then. simpl.
  apply map_Forall_insert_2; [|done].
  intros [x Hx]. discriminate.
Qed.

Lemma addPhoto_invariant svc now upload id metadata db :
  inspection_invariant db ->
  inspection_invariant
    (snd (InspectionService.addPhoto svc now upload id metadata db)).
Proof.
  intros Hinv. unfold InspectionService.addPhoto.
  rewrite run_lift_bind. destruct upload as [u|e]; [|done].
  rewrite run_bind. unfold Prisma.findUnique at 1.
  destruct (inspections db !! id) as [row|] eqn:Hlook; [|done].
  apply updateInspection_invariant; [done|].
  intros i Hi. apply (Hinv id i Hi).
Qed.

Lemma generateReport_invariant svc now encodeText uploadFile id db :
  inspection_invariant db ->
  inspection_invariant
    (snd (InspectionService.generateReport svc now encodeText uploadFile id
            db)).
Proof.
  intros Hinv. unfold InspectionService.generateReport.
  rewrite run_bind. unfold Prisma.findUnique at 1.
  destruct (inspections db !! id) as [row|] eqn:Hlook; [|done].
  rewrite run_bind. unfold Prisma.findMany at 1.
  rewrite run_lift_bind.
  destruct (Pdf.encode_all _ _) as [[]|e]; [|done].
  rewrite run_lift_bind.
  destruct (uploadFile _) as [u|e]; [|done].
  rewrite run_bind.
  pose proof (prisma_update_invariant id
                (InspectionService.set_report (s3_url u) now) db Hinv) as Hupd.
  destruct (Prisma.update _ _ _ _ db) as [[r|e] db'] eqn:Hrun; simpl in *;
    apply Hupd; intros i Hi; apply (Hinv id i Hi).
Qed.

(** C8, as stated, fails: starting an inspection that is already completed
    turns its status to IN_PROGRESS and keeps [completedAt]. *)
Lemma start_breaks_invariant :
  inspection_invariant completed_db
  /\ ~ inspection_invariant
        (snd (InspectionService.startInspection InspectionService.new 4000
                "insp-1" None completed_db)).
Proof.
  split.
  - apply (@bool_decide_unpack _ (inspection_invariant_dec _)).
    vm_compute. exact I.
  - intros Hinv. pose proof (@bool_decide_pack _ (inspection_invariant_dec _) Hinv) as Hb.
    vm_compute in Hb. exact Hb.
Qed.

(** C8 (amended): [createInspection], [completeInspection], [addPhoto] and
    [generateReport] keep "completedAt set implies status COMPLETED" on every
    row; [startInspection] keeps it when the inspection it starts has no
    [completedAt]; [updateInspection] keeps it when the patch sets the status
    to COMPLETED or sets neither the status nor [completedAt]. *)
Theorem inspection_operations_preserve_invariant
    (svc : InspectionService.t) (now : Z) (db : Db)
    (Hinv : inspection_invariant db) :
  (forall newId params,
      inspection_invariant
        (snd (InspectionService.createInspection svc newId params db)))
  /\ (forall id overallCondition notes location,
         inspection_invariant
           (snd (InspectionService.completeInspection svc now id
                   overallCondition notes location db)))
  /\ (forall upload id metadata,
         inspection_invariant
           (snd (InspectionService.addPhoto svc now upload id metadata db)))
  /\ (forall encodeText uploadFile id,
         inspection_invariant
           (snd (InspectionService.generateReport svc now encodeText uploadFile
                   id db)))
  /\ (forall id location,
         (forall i, inspections db !! id = Some i -> insp_completedAt i = None) ->
         inspection_invariant
           (snd (InspectionService.startInspection svc now id location db)))
  /\ (forall id params,
         patch_consistent params ->
         inspection_invariant
           (snd (InspectionService.updateInspection svc id params db))).
Proof.
  repeat split.
  - intros. by apply createInspection_invariant.
  - intros. by apply updateInspection_invariant.
  - intros. by apply addPhoto_invariant.
  - intros. by apply generateReport_invariant.
  - intros id location Hopen. apply updateInspection_invariant; [done|].
    intros i Hi [x Hx]. simpl in Hx. rewrite (Hopen i Hi) in Hx. discriminate.
  - intros id params Hpatch. apply updateInspection_invariant; [done|].
    intros i Hi Hsome. simpl in *.
    destruct Hpatch as [Hst | [Hst Hc]].
    + by rewrite Hst.
    + rewrite Hst. rewrite Hc in Hsome. simpl in *. by apply (Hinv id i Hi).
Qed.

Lemma inspection_operations_preserve_invariant_witness :
  inspection_invariant completed_db
  /\ inspection_invariant
       (snd (InspectionService.completeInspection InspectionService.new 5000
               "insp-1" FAIR None None completed_db)).
Proof.
  assert (H : inspection_invariant completed_db).
  { apply (@bool_decide_unpack _ (inspection_invariant_dec _)).
    vm_compute. exact I. }
  split; [exact H|].
  exact (proj1 (proj2 (inspection_operations_preserve_invariant
                         InspectionService.new 5000 completed_db H))
           "insp-1" FAIR None None).
Defined.

(** ** Report pagination *)

Create HintDb report.

Lemma drawText_all_drawn_on p c x y size bold doc :
  all_drawn_on p doc -> all_drawn_on p (Pdf.drawText p c x y size bold doc).
Proof.
  unfold all_drawn_on. simpl. intros H. apply Forall_app. split; [done|].
  by repeat constructor.
Qed.

Lemma nothing_drawn p n : all_drawn_on p {| Pdf.pageCount := n; Pdf.drawn := [] |}.
Proof. constructor. Qed.

#[local] Hint Resolve drawText_all_drawn_on nothing_drawn : report.

Lemma draw_details_all_drawn_on p ds doc y :
  all_drawn_on p doc ->
  all_drawn_on p (fst (InspectionService.draw_details p ds (doc, y))).
Proof.
  revert doc y. induction ds as [|d ds IH]; intros doc y H; simpl;
    auto with report.
Qed.

Lemma draw_damages_all_drawn_on p height ds doc y :
  all_drawn_on p doc ->
  all_drawn_on p (fst (InspectionService.draw_damages p height ds (doc, y))).
Proof.
  revert doc y. induction ds as [|d ds IH]; intros doc y H; simpl; [done|].
  destruct (y - 20 <? 100); apply IH;
    by apply (drawText_all_drawn_on p _ 70 y 11 false doc).
Qed.

Lemma draw_notes_all_drawn_on p lines doc y :
  all_drawn_on p doc ->
  all_drawn_on p (fst (InspectionService.draw_notes p lines (doc, y))).
Proof.
  revert doc y. induction lines as [|l lines IH]; intros doc y H; simpl;
    auto with report.
Qed.

#[local] Hint Resolve draw_details_all_drawn_on draw_damages_all_drawn_on
  draw_notes_all_drawn_on : report.

(** Whatever the inspection, every text run of the report goes through the
    first page object; pages appended later stay blank. *)
Lemma render_draws_on_first_page inspection inspection_damages :
  all_drawn_on 0 (InspectionService.render inspection inspection_damages).
Proof.
  unfold InspectionService.render.
  change (Pdf.addPage Pdf.create)
    with (0%nat, {| Pdf.pageCount := 1; Pdf.drawn := [] |}).
  cbv iota beta.
  destruct (InspectionService.draw_details 0 _ _) as [d1 y1] eqn:E1.
  assert (H1 : all_drawn_on 0 d1).
  { change d1 with (fst (d1, y1)). rewrite <- E1. auto with report. }
  destruct (if (0 <? length inspection_damages)%nat then _ else _)
    as [d2 y2] eqn:E2.
  assert (H2 : all_drawn_on 0 d2).
  { change d2 with (fst (d2, y2)). rewrite <- E2.
    destruct (0 <? length inspection_damages)%nat; auto with report. }
  destruct (match insp_notes inspection with Some _ => _ | None => _ end)
    as [d3 y3] eqn:E3.
  change d3 with (fst (d3, y3)). rewrite <- E3.
  destruct (insp_notes inspection) as [notes|]; [|done].
  destruct (String.eqb notes ""); auto with report.
Qed.

(** C9 at a failing input: with twenty-two damages the cursor drops below
    100 after the twenty-first line and a second page is appended, yet that
    page stays blank; the twenty-second line is drawn through the first page
    object at the top position, the very position of the title. *)
Theorem overflow_is_drawn_on_first_page :
  Pdf.pageCount long_report = 2%nat
  /\ Pdf.on_page 1 long_report = []
  /\ (Pdf.op_content <$> Pdf.drawn long_report !! 30%nat)
     = Some (Pdf.DamageLine STAIN MINOR "kitchen")
  /\ (Pdf.op_page <$> Pdf.drawn long_report !! 30%nat) = Some 0%nat
  /\ (Pdf.op_y <$> Pdf.drawn long_report !! 30%nat) = Some 742
  /\ (Pdf.op_y <$> Pdf.drawn long_report !! 0%nat) = Some 742.
Proof. vm_compute. repeat split; reflexivity. Qed.

(** ** AI detection *)

Lemma Qlt_bool_false_iff (x y : Q) : JS.Qlt_bool x y = false <-> (y <= x)%Q.
Proof.
  unfold JS.Qlt_bool. rewrite negb_false_iff. apply Qle_bool_iff.
Qed.

Lemma Qlt_bool_true_iff (x y : Q) : JS.Qlt_bool x y = true <-> (x < y)%Q.
Proof.
  unfold JS.Qlt_bool. rewrite negb_true_iff. split.
  - intros H. apply Qnot_le_lt. intros Hle.
    apply Qle_bool_iff in Hle. congruence.
  - intros H. destruct (Qle_bool y x) eqn:E; [|done].
    apply Qle_bool_iff in E. exfalso. by apply (Qlt_not_le x y).
Qed.

(** The guard of [detectDamageFromImage] lets the call through exactly when
    the detection is confident. *)
Lemma detection_guard cfg aiResult :
  (negb (detected aiResult)
   || JS.Qlt_bool (confidence aiResult) (ai_confidenceThreshold cfg)) = false
  <-> confident cfg aiResult.
Proof.
  unfold confident. rewrite orb_false_iff, negb_false_iff, Qlt_bool_false_iff.
  done.
Qed.


(** A failed upload ends the call before the vision client is asked. *)
Lemma detectDamageFromImage_upload_failure cfg svc w params db msg :
  DamageService.w_upload w = Thrown msg ->
  DamageService.detectDamageFromImage cfg svc w params db = (Thrown msg, db).
Proof.
  intros Hup. unfold DamageService.detectDamageFromImage.
  by rewrite Hup, run_lift_bind.
Qed.

(** A key that the literal does not inherit is answered with a value of
    the literal's type. *)
Lemma get_or_found {V} (literal : list (string * V)) (key : string)
    (fallback : V) :
  JS.inherited key = false ->
  exists v, JS.get_or literal key fallback = JS.Found v.
Proof.
  intros Hkey. unfold JS.get_or. destruct (JS.lookup_key key literal) as [v|].
  - by exists v.
  - rewrite Hkey. by exists fallback.
Qed.

(** Storable labels give an enum member each and a number for the cost. *)
Lemma storable_values cost damageType severity :
  storable_labels cost damageType severity ->
  exists t s c,
    DamageService.mapAIDamageType damageType = JS.Found t
    /\ DamageService.mapAISeverity severity = JS.Found s
    /\ estimatedCost
         (CVIntegrationService.estimateRepairCost cost damageType severity)
       = JS.Found c.
Proof.
  intros (Htype & Hseverity & Hcost).
  destruct (get_or_found
              [("stain", STAIN); ("hole", HOLE); ("crack", CRACK);
               ("burn", BURN); ("water_damage", WATER_DAMAGE);
               ("water", WATER_DAMAGE); ("broken", BROKEN_ITEM);
               ("scratch", SCRATCH); ("dent", DENT); ("mold", MOLD);
               ("pest", PEST)] _ OTHER Htype) as [t Ht].
  destruct (get_or_found
              [("minor", MINOR); ("moderate", MODERATE); ("major", MAJOR);
               ("critical", CRITICAL); ("severe", CRITICAL)] _ MODERATE
              Hseverity) as [sv Hs].
  exists t, sv. unfold CVIntegrationService.estimateRepairCost.
  destruct cost as [data|msg]; simpl.
  - eexists. by repeat split.
  - destruct (get_or_found CVIntegrationService.baseEstimates severity (500 # 1)
                (Hcost msg eq_refl)) as [c Hc].
    exists c. by repeat split.
Qed.

(** A type label that names, in lower case, a member of [Object.prototype]
    is mapped to what the table inherits; the store client refuses the
    row, so a confident detection with such a label stores nothing and the
    call throws. *)
Lemma detectDamageFromImage_inherited_label cfg svc w params db u :
  DamageService.w_upload w = Returned u ->
  confident cfg (CVIntegrationService.detectDamage (DamageService.w_detection w)) ->
  JS.inherited
    (JS.toLowerCase
       (JS.or_string
          (ai_damageType
             (CVIntegrationService.detectDamage (DamageService.w_detection w)))
          "OTHER")) = true ->
  exists msg,
    DamageService.detectDamageFromImage cfg svc w params db = (Thrown msg, db).
Proof.
  intros Hupload Hc Hkey. unfold DamageService.detectDamageFromImage.
  rewrite Hupload, run_lift_bind.
  rewrite (proj2 (detection_guard cfg _) Hc).
  rewrite run_bind. unfold DamageService.create_detected.
  assert (Hmap : exists key,
             DamageService.mapAIDamageType
               (JS.or_string
                  (ai_damageType
                     (CVIntegrationService.detectDamage
                        (DamageService.w_detection w))) "OTHER")
             = JS.Inherited key).
  { unfold DamageService.mapAIDamageType, JS.get_or. rewrite Hkey.
    unfold JS.inherited in Hkey. apply existsb_exists in Hkey as (m & Hin & Hm).
    apply String.eqb_eq in Hm. rewrite Hm. simpl in Hin.
    repeat (destruct Hin as [<- | Hin]; [by eexists|]). done. }
  destruct Hmap as [key ->]. by eexists.
Qed.



(** ** Vendor reviews: validation *)

Lemma rating_guard (r : Q) :
  (JS.Qlt_bool r 1 || JS.Qlt_bool 5 r) = false <-> valid_rating r.
Proof.
  unfold valid_rating. by rewrite orb_false_iff, !Qlt_bool_false_iff.
Qed.

(** C5: [addReview] returns only for a rating between 1 and 5; any other
    rating makes it throw "Rating must be between 1 and 5" with the database
    (reviews, vendor rating, quality score) exactly as before. *)
Theorem addReview_rejects_out_of_range
    (svc : VendorService.t) (vendorId : string)
    (params : VendorService.ReviewParams) (db : Db) :
  let run := VendorService.addReview svc vendorId params db in
  (is_returned (fst run) = true -> valid_rating (VendorService.r_rating params))
  /\ (~ valid_rating (VendorService.r_rating params) ->
      run = (Thrown "Rating must be between 1 and 5", db)).
Proof.
  intros run. subst run. unfold VendorService.addReview.
  pose proof (rating_guard (VendorService.r_rating params)) as Hguard.
  destruct (JS.Qlt_bool _ 1 || _) eqn:E.
  - split; [discriminate|done].
  - split; [intros _; by apply Hguard|].
    intros Hnot. exfalso. by apply Hnot, Hguard.
Qed.

Lemma addReview_rejects_out_of_range_witness :
  VendorService.addReview VendorService.new "vendor-1"
    (sample_review (6 # 1) None) vendor_db
  = (Thrown "Rating must be between 1 and 5", vendor_db).
Proof.
  apply (proj2 (addReview_rejects_out_of_range VendorService.new "vendor-1"
                  (sample_review (6 # 1) None) vendor_db)).
  intros [_ H]. vm_compute in H. by apply H.
Defined.

(** ** Vendor deletion *)

Lemma filter_nonempty_iff {A} (p : A -> bool) (l : list A) :
  (0 <? Z.of_nat (length (List.filter p l))) = true
  <-> exists x, x ∈ l /\ p x = true.
Proof.
  rewrite Z.ltb_lt. split.
  - intros Hpos. destruct (List.filter p l) as [|x rest] eqn:E; simpl in Hpos;
      [lia|].
    exists x. rewrite list_elem_of_In. apply filter_In. rewrite E. by left.
  - intros (x & Hx & Hp). rewrite list_elem_of_In in Hx.
    assert (Hin : In x (List.filter p l)) by (apply filter_In; done).
    destruct (List.filter p l); simpl in *; [done|lia].
Qed.

Lemma active_count_positive_iff (db : Db) (id : string) :
  (0 <? Z.of_nat
          (length (List.filter (VendorService.is_active_order_of id)
                     (snd <$> map_to_list (workOrders db))))) = true
  <-> has_active_order db id.
Proof.
  rewrite filter_nonempty_iff. unfold has_active_order,
    VendorService.is_active_order_of. split.
  - intros (wo & Hin & Hp). apply list_elem_of_fmap in Hin as ([k wo'] & -> & Hin).
    apply elem_of_map_to_list in Hin. apply andb_true_iff in Hp as [H1 H2].
    exists k, wo'. simpl in *.
    split; [done|]. split; by eapply bool_decide_eq_true_1.
  - intros (k & wo & Hlook & Hv & Hs). exists wo. split.
    + apply list_elem_of_fmap. exists (k, wo). split; [done|].
      by apply elem_of_map_to_list.
    + apply andb_true_iff. split; by apply bool_decide_eq_true_2.
Qed.

(** C6 at a failing input: a stored vendor without any work order is deleted
    through a service as its constructor builds it; the row is removed, but
    the call does not succeed: it throws "RabbitMQ channel not initialized"
    from the "deleted" event. *)
Lemma deleteVendor_removes_then_throws :
  ~ has_active_order vendor_db "vendor-1"
  /\ vendors vendor_db !! "vendor-1" = Some sample_vendor
  /\ fst (VendorService.deleteVendor VendorService.new "vendor-1" vendor_db)
     = Thrown "RabbitMQ channel not initialized"
  /\ vendors (snd (VendorService.deleteVendor VendorService.new "vendor-1"
                     vendor_db)) !! "vendor-1" = None.
Proof.
  split; [|split; [|split]].
  - intros (k & wo & Hlook & _). simpl in Hlook.
    by rewrite lookup_empty in Hlook.
  - reflexivity.
  - vm_compute. reflexivity.
  - vm_compute. reflexivity.
Qed.

(** What [deleteVendor] does in general: with an open work order of the
    vendor it throws "Cannot delete vendor with active work orders" and
    leaves the database as it was; without one, the vendor row is removed,
    and the call returns exactly when the "deleted" event is published: a
    publisher error surfaces after the removal. *)
Theorem deleteVendor_guarded (svc : VendorService.t) (id : string) (db : Db) :
  let run := VendorService.deleteVendor svc id db in
  (has_active_order db id ->
   run = (Thrown "Cannot delete vendor with active work orders", db))
  /\ (~ has_active_order db id ->
      is_Some (vendors db !! id) ->
      snd run = with_vendors (delete id (vendors db)) db
      /\ fst run
         = RabbitMQ.publishEvent (VendorService.rabbitMQ svc)
             {| eventType := "deleted"; entityType := "vendor";
                entityId := id |}).
Proof.
  intros run. subst run. unfold VendorService.deleteVendor.
  rewrite run_bind. unfold Prisma.count.
  pose proof (active_count_positive_iff db id) as Hcount.
  destruct (0 <? _) eqn:E.
  - split; [done|]. intros Hnot. exfalso. by apply Hnot, Hcount.
  - split.
    { intros Hact. apply Hcount in Hact. discriminate. }
    intros _ [v Hv]. rewrite run_bind. unfold Prisma.delete. rewrite Hv.
    rewrite run_lift_bind.
    by destruct (RabbitMQ.publishEvent _ _) as [[]|e].
Qed.

Lemma deleteVendor_guarded_witness :
  VendorService.deleteVendor {| VendorService.rabbitMQ := connected |}
    "vendor-1" vendor_db
  = (Returned tt, with_vendors (delete "vendor-1" (vendors vendor_db)) vendor_db).
Proof.
  assert (Hnone : ~ has_active_order vendor_db "vendor-1").
  { intros (k & wo & Hlook & _). simpl in Hlook.
    by rewrite lookup_empty in Hlook. }
  assert (Hsome : is_Some (vendors vendor_db !! "vendor-1")).
  { vm_compute. eexists. reflexivity. }
  pose proof (proj2 (deleteVendor_guarded
                       {| VendorService.rabbitMQ := connected |}
                       "vendor-1" vendor_db) Hnone Hsome) as [Hdb Hres].
  destruct (VendorService.deleteVendor _ _ _) as [r db'].
  simpl in Hdb, Hres. by rewrite Hdb, Hres.
Defined.

(** ** Vendor reviews: recomputed scores *)

Lemma sumQ_from (l : list Q) (a : Q) :
  (fold_left Qplus l a == a + fold_right Qplus 0 l)%Q.
Proof.
  revert a. induction l as [|x l IH]; intros a; simpl.
  - by rewrite Qplus_0_r.
  - rewrite IH. by rewrite Qplus_assoc.
Qed.

Lemma meanQ_arithmetic_mean (l : list Q) : (JS.meanQ l == arithmetic_mean l)%Q.
Proof.
  unfold JS.meanQ, arithmetic_mean, JS.sumQ, JS.ofZ.
  rewrite sumQ_from. by rewrite Qplus_0_l.
Qed.

Lemma reviews_of_snoc vendorId row db rest :
  rev_vendorId row = vendorId ->
  VendorService.reviews_of vendorId
    (with_vendorReviews (vendorReviews db ++ [row])%list rest)
  = (VendorService.reviews_of vendorId db ++ [row])%list.
Proof.
  intros <-. unfold VendorService.reviews_of. simpl.
  rewrite List.filter_app. simpl. by rewrite String.eqb_refl.
Qed.

(** One accepted review: the row joins the vendor's reviews and both scores
    are recomputed from all of them. *)
Lemma addReview_step svc vendorId params db vendor :
  valid_rating (VendorService.r_rating params) ->
  vendors db !! vendorId = Some vendor ->
  let rows := (VendorService.reviews_of vendorId db
               ++ [VendorService.review_row vendorId params])%list in
  let db' := snd (VendorService.addReview svc vendorId params db) in
  VendorService.reviews_of vendorId db' = rows
  /\ vendors db' !! vendorId
     = Some (VendorService.set_scores (VendorService.avgRating rows)
               (VendorService.avgQuality rows) vendor).
Proof.
  intros Hvalid Hvendor rows db'. subst db'.
  unfold VendorService.addReview.
  apply rating_guard in Hvalid. rewrite Hvalid.
  rewrite run_bind. unfold VendorService.create_review.
  rewrite run_bind. unfold VendorService.recalculateVendorRating.
  rewrite run_bind. unfold VendorService.find_reviews.
  rewrite reviews_of_snoc by done. fold rows.
  assert (Hlen : (length rows =? 0)%nat = false).
  { subst rows. rewrite length_app. simpl. apply Nat.eqb_neq. lia. }
  rewrite Hlen, run_bind. unfold Prisma.update. simpl.
  rewrite Hvendor. simpl. split.
  - by apply reviews_of_snoc.
  - by rewrite lookup_insert_eq.
Qed.

Lemma add_reviews_rows svc vendorId reviews : forall db vendor,
  Forall (fun p => valid_rating (VendorService.r_rating p)) reviews ->
  vendors db !! vendorId = Some vendor ->
  VendorService.reviews_of vendorId (add_reviews svc vendorId reviews db)
  = (VendorService.reviews_of vendorId db
     ++ (VendorService.review_row vendorId <$> reviews))%list
  /\ is_Some (vendors (add_reviews svc vendorId reviews db) !! vendorId).
Proof.
  induction reviews as [|p reviews IH]; intros db vendor Hall Hvendor.
  - simpl. rewrite app_nil_r. eauto.
  - inversion Hall as [|? ? Hp Hrest]; subst.
    destruct (addReview_step svc vendorId p db vendor Hp Hvendor)
      as [Hrows Hv].
    destruct (IH _ _ Hrest Hv) as [IHrows IHv].
    simpl. unfold add_reviews in *. rewrite IHrows, Hrows.
    by rewrite <- app_assoc.
Qed.

Lemma ratings_of_rows vendorId (reviews : list VendorService.ReviewParams) :
  rev_rating <$> (VendorService.review_row vendorId <$> reviews)
  = VendorService.r_rating <$> reviews.
Proof. induction reviews; simpl; [done|]. by f_equal. Qed.

Lemma quality_of_rows vendorId (reviews : list VendorService.ReviewParams) :
  (fun r => default 0%Q (rev_qualityRating r))
    <$> List.filter VendorService.has_quality
          (VendorService.review_row vendorId <$> reviews)
  = omap VendorService.r_qualityRating reviews.
Proof.
  induction reviews as [|p reviews IH]; [done|].
  rewrite fmap_cons. cbn [List.filter omap list_omap].
  unfold VendorService.has_quality at 1.
  cbn [rev_qualityRating VendorService.review_row].
  destruct (VendorService.r_qualityRating p) eqn:E.
  - rewrite fmap_cons. cbn [rev_qualityRating VendorService.review_row].
    by rewrite E, IH.
  - apply IH.
Qed.

(** C4: after [addReview] has stored the reviews [reviews] (all accepted, at
    least one) for a vendor that had none, the vendor's rating is the
    arithmetic mean of their ratings, and, when some of them carry a quality
    sub-rating, the vendor's quality score is the arithmetic mean of those
    sub-ratings. *)
Theorem addReview_rating_is_mean
    (svc : VendorService.t) (vendorId : string) (vendor : Vendor)
    (reviews : list VendorService.ReviewParams) (db : Db)
    (Hvendor : vendors db !! vendorId = Some vendor)
    (Hnone : VendorService.reviews_of vendorId db = [])
    (Hsome : reviews <> [])
    (Hvalid : Forall (fun p => valid_rating (VendorService.r_rating p)) reviews) :
  let db' := add_reviews svc vendorId reviews db in
  (rev_rating <$> VendorService.reviews_of vendorId db')
  = (VendorService.r_rating <$> reviews)
  /\ exists vendor' rating,
      vendors db' !! vendorId = Some vendor'
      /\ v_rating vendor' = Some rating
      /\ (rating == arithmetic_mean (VendorService.r_rating <$> reviews))%Q
      /\ (omap VendorService.r_qualityRating reviews <> [] ->
          exists quality,
            v_qualityScore vendor' = Some quality
            /\ (quality
                == arithmetic_mean
                     (omap VendorService.r_qualityRating reviews))%Q).
Proof.
  intros db'. subst db'.
  destruct (exists_last Hsome) as (front & p & ->).
  apply Forall_app in Hvalid as [Hfront Hp].
  inversion Hp as [|? ? Hlast _]; subst.
  destruct (add_reviews_rows svc vendorId front db vendor Hfront Hvendor)
    as [Hrows [mid Hmid]].
  unfold add_reviews in *. rewrite fold_left_app. simpl.
  destruct (addReview_step svc vendorId p _ mid Hlast Hmid) as [Hrows' Hv'].
  rewrite Hrows, Hnone, app_nil_l in Hrows', Hv'.
  assert (Hall : (VendorService.review_row vendorId <$> front)
                 ++ [VendorService.review_row vendorId p]
                 = VendorService.review_row vendorId <$> (front ++ [p])).
  { by rewrite fmap_app. }
  rewrite Hall in Hrows', Hv'. clear Hall.
  split.
  { rewrite Hrows'. apply ratings_of_rows. }
  eexists _, _. split; [exact Hv'|]. split; [reflexivity|]. split.
  - unfold VendorService.avgRating. rewrite ratings_of_rows.
    apply meanQ_arithmetic_mean.
  - intros Hq. unfold VendorService.avgQuality.
    pose proof (quality_of_rows vendorId (front ++ [p])) as Hmap.
    destruct (List.filter VendorService.has_quality _) as [|q qs] eqn:Efilter.
    { simpl in Hmap. by rewrite <- Hmap in Hq. }
    change (0 <? length (q :: qs))%nat with true. cbv iota.
    eexists. split; [reflexivity|]. rewrite Hmap.
    apply meanQ_arithmetic_mean.
Qed.

Lemma addReview_rating_is_mean_witness :
  exists vendor' rating,
    vendors (add_reviews VendorService.new "vendor-1" three_reviews vendor_db)
      !! "vendor-1" = Some vendor'
    /\ v_rating vendor' = Some rating
    /\ (rating == 4 # 1)%Q.
Proof.
  assert (Hsome : three_reviews <> []) by discriminate.
  assert (Hvalid : Forall (fun p => valid_rating (VendorService.r_rating p))
                     three_reviews).
  { repeat constructor; vm_compute; discriminate. }
  destruct (addReview_rating_is_mean VendorService.new "vendor-1" sample_vendor
              three_reviews vendor_db eq_refl eq_refl Hsome Hvalid)
    as [_ (vendor' & rating & Hv & Hr & Hmean & _)].
  exists vendor', rating. split; [exact Hv|]. split; [exact Hr|].
  rewrite Hmean. vm_compute. reflexivity.
Defined.

(** ** Vendor rating on verification *)

Lemma Qinject_1_r (x : Q) : (x / inject_Z 1 == x)%Q.
Proof. unfold Qdiv. change (/ inject_Z 1)%Q with 1%Q. apply Qmult_1_r. Qed.

Lemma newAvgRating_fallback (vendor : Vendor) (newRating : Q) :
  v_completedJobs vendor = 0 ->
  (WorkOrderService.newAvgRating vendor newRating == newRating)%Q.
Proof.
  intros Hzero. unfold WorkOrderService.newAvgRating,
    WorkOrderService.totalRatings, JS.or_Z, JS.ofZ.
  rewrite Hzero. simpl Z.eqb. cbv iota.
  rewrite Qinject_1_r. change (inject_Z (1 - 1)) with 0%Q.
  by rewrite Qmult_0_r, Qplus_0_l.
Qed.

Lemma newAvgRating_formula (vendor : Vendor) (newRating : Q) :
  v_completedJobs vendor <> 0 ->
  WorkOrderService.newAvgRating vendor newRating
  = incremental_rating (WorkOrderService.currentRating vendor)
      (v_completedJobs vendor) newRating.
Proof.
  intros Hnz. unfold WorkOrderService.newAvgRating,
    WorkOrderService.totalRatings, JS.or_Z, incremental_rating, JS.ofZ.
  destruct (Z.eqb_spec (v_completedJobs vendor) 0); [done|reflexivity].
Qed.

Lemma updateVendorRating_run vendorId newRating db vendor :
  vendors db !! vendorId = Some vendor ->
  WorkOrderService.updateVendorRating vendorId newRating db
  = (Returned tt,
     with_vendors
       (<[vendorId :=
            WorkOrderService.set_rating
              (WorkOrderService.newAvgRating vendor newRating) vendor]>
          (vendors db)) db).
Proof.
  intros Hv. unfold WorkOrderService.updateVendorRating.
  rewrite run_bind. unfold Prisma.findUnique. rewrite Hv.
  rewrite run_bind. unfold Prisma.update. by rewrite Hv.
Qed.

(** C10: the sample size that [updateVendorRating] divides by is never
    zero; for a vendor whose [completedJobs] is 0 it is 1, and the stored
    rating is then the submitted [vendorRating]. *)
Theorem updateVendorRating_never_divides_by_zero
    (vendorId : string) (vendor : Vendor) (vendorRating : Q) (db : Db)
    (Hvendor : vendors db !! vendorId = Some vendor) :
  WorkOrderService.totalRatings vendor <> 0
  /\ (v_completedJobs vendor = 0 ->
      WorkOrderService.totalRatings vendor = 1
      /\ exists vendor' rating,
          vendors (snd (WorkOrderService.updateVendorRating vendorId
                          vendorRating db)) !! vendorId = Some vendor'
          /\ v_rating vendor' = Some rating
          /\ (rating == vendorRating)%Q).
Proof.
  split.
  - unfold WorkOrderService.totalRatings, JS.or_Z.
    destruct (Z.eqb_spec (v_completedJobs vendor) 0); [done|done].
  - intros Hzero. split.
    + unfold WorkOrderService.totalRatings, JS.or_Z. by rewrite Hzero.
    + rewrite (updateVendorRating_run _ _ _ _ Hvendor). simpl.
      eexists _, _. rewrite lookup_insert_eq. split; [reflexivity|].
      split; [reflexivity|]. by apply newAvgRating_fallback.
Qed.

Lemma updateVendorRating_never_divides_by_zero_witness :
  exists vendor' rating,
    vendors (snd (WorkOrderService.updateVendorRating "vendor-2" (5 # 1)
                    (with_vendors {[ "vendor-2" := fresh_vendor ]} empty_db)))
      !! "vendor-2" = Some vendor'
    /\ v_rating vendor' = Some rating
    /\ (rating == 5 # 1)%Q.
Proof.
  exact (proj2 (proj2 (updateVendorRating_never_divides_by_zero "vendor-2"
                         fresh_vendor (5 # 1)
                         (with_vendors {[ "vendor-2" := fresh_vendor ]} empty_db)
                         eq_refl) eq_refl)).
Defined.

(** ** Running a work-order update *)

Lemma publish_connected r ev :
  can_publish r -> RabbitMQ.publishEvent r ev = Returned tt.
Proof. unfold can_publish, RabbitMQ.publishEvent. by intros ->. Qed.

Lemma updateWorkOrder_run svc id params db wo :
  can_publish (WorkOrderService.rabbitMQ svc) ->
  workOrders db !! id = Some wo ->
  WorkOrderService.updateWorkOrder svc id params db
  = (Returned (WorkOrderService.apply_update params wo),
     with_workOrders
       (<[id := WorkOrderService.apply_update params wo]> (workOrders db)) db).
Proof.
  intros Hpub Hwo. unfold WorkOrderService.updateWorkOrder.
  rewrite run_bind. unfold Prisma.update. rewrite Hwo.
  rewrite run_lift_bind. by rewrite publish_connected.
Qed.

(** With the publisher the constructor builds, the row is written and the
    call stops at the event. *)
Lemma updateWorkOrder_unconnected id params db wo :
  workOrders db !! id = Some wo ->
  WorkOrderService.updateWorkOrder WorkOrderService.new id params db
  = (Thrown "RabbitMQ channel not initialized",
     with_workOrders
       (<[id := WorkOrderService.apply_update params wo]> (workOrders db)) db).
Proof.
  intros Hwo. unfold WorkOrderService.updateWorkOrder.
  rewrite run_bind. unfold Prisma.update. by rewrite Hwo.
Qed.

Lemma cascade_run status actualCost damageId db :
  (forall did, WorkOrderService.truthy_id damageId = Some did ->
               is_Some (damages db !! did)) ->
  match WorkOrderService.truthy_id damageId with
  | Some did =>
      Prisma.update damages with_damages did
        (WorkOrderService.set_damage status actualCost);;
      mret tt
  | None => mret tt
  end db
  = (Returned tt, cascaded status actualCost damageId db).
Proof.
  intros Hlink. unfold cascaded.
  destruct (WorkOrderService.truthy_id damageId) as [did|]; [|done].
  destruct (Hlink did eq_refl) as [d Hd].
  rewrite run_bind. unfold Prisma.update. by rewrite Hd.
Qed.

Lemma vendors_cascaded status actualCost damageId db :
  vendors (cascaded status actualCost damageId db) = vendors db.
Proof.
  unfold cascaded. destruct (WorkOrderService.truthy_id damageId); [|done].
  by destruct (damages db !! _).
Qed.

Lemma workOrders_cascaded status actualCost damageId db :
  workOrders (cascaded status actualCost damageId db) = workOrders db.
Proof.
  unfold cascaded. destruct (WorkOrderService.truthy_id damageId); [|done].
  by destruct (damages db !! _).
Qed.

(** C7, as stated, fails: for a vendor with no completed job the formula
    has no value (its denominator is zero, and no rating satisfies
    [rating * 0 = old * (0 - 1) + vendorRating] for the stored rating
    [old = 4] and [vendorRating = 5]), while the code stores the submitted
    rating. *)
Lemma verify_with_no_completed_job :
  v_rating fresh_vendor = Some (4 # 1)
  /\ v_completedJobs fresh_vendor = 0
  /\ exists rating,
       v_rating <$> (vendors
                       (snd (WorkOrderService.verifyWorkOrder connected_orders
                               9000 "wo-1" "user-1" (5 # 1) (5 # 1) rating_db))
                     !! "vendor-2") = Some (Some rating)
       /\ (rating == 5 # 1)%Q
       /\ ~ (rating * inject_Z 0 == (4 # 1) * inject_Z (0 - 1) + (5 # 1))%Q
       /\ ~ (rating == incremental_rating (4 # 1) 0 (5 # 1))%Q.
Proof.
  split; [reflexivity|]. split; [reflexivity|].
  eexists. split; [vm_compute; reflexivity|].
  split; [|split]; vm_compute; [reflexivity|discriminate|discriminate].
Qed.

(** C7 (amended): a verification that gets past the work order's "updated"
    event and the update of the linked damage, for an order assigned to a
    stored vendor, sets the vendor's rating to
    [(old * (completedJobs - 1) + vendorRating) / completedJobs] when the
    vendor's [completedJobs] is not zero, [old] being the rating stored
    before the call (0 when none is stored), and to [vendorRating] when it
    is zero. *)
Theorem verifyWorkOrder_updates_rating
    (svc : WorkOrderService.t) (now : Z) (id verifiedBy : string)
    (qualityRating vendorRating : Q) (db : Db) (wo : WorkOrder)
    (vendorId : string) (vendor : Vendor)
    (Hpub : can_publish (WorkOrderService.rabbitMQ svc))
    (Hwo : workOrders db !! id = Some wo)
    (Hlink : link_resolves wo db)
    (Hassigned : WorkOrderService.truthy_id (wo_vendorId wo) = Some vendorId)
    (Hvendor : vendors db !! vendorId = Some vendor) :
  exists vendor' rating,
    vendors (snd (WorkOrderService.verifyWorkOrder svc now id verifiedBy
                    qualityRating vendorRating db)) !! vendorId = Some vendor'
    /\ v_rating vendor' = Some rating
    /\ (forall old, v_rating vendor = Some old ->
        v_completedJobs vendor <> 0 ->
        (rating == incremental_rating old (v_completedJobs vendor)
                     vendorRating)%Q)
    /\ (v_rating vendor = None ->
        v_completedJobs vendor <> 0 ->
        (rating == incremental_rating 0 (v_completedJobs vendor)
                     vendorRating)%Q)
    /\ (v_completedJobs vendor = 0 -> (rating == vendorRating)%Q).
Proof.
  unfold WorkOrderService.verifyWorkOrder. rewrite run_bind.
  rewrite (updateWorkOrder_run _ _ _ _ wo Hpub Hwo).
  cbn [WorkOrderService.apply_update wo_damageId wo_vendorId
       WorkOrderService.u_vendorId Prisma.patch_null].
  rewrite Hassigned, run_bind, cascade_run by exact Hlink.
  rewrite run_bind.
  rewrite (updateVendorRating_run vendorId vendorRating _ vendor)
    by (by rewrite vendors_cascaded).
  simpl. rewrite lookup_insert_eq.
  eexists _, _. split; [reflexivity|]. split; [reflexivity|].
  split; [|split].
  - intros old Hold Hnz. rewrite newAvgRating_formula by done.
    unfold WorkOrderService.currentRating. by rewrite Hold.
  - intros Hnone Hnz. rewrite newAvgRating_formula by done.
    unfold WorkOrderService.currentRating. by rewrite Hnone.
  - apply newAvgRating_fallback.
Qed.

(** A vendor with two completed jobs and a rating of 4 is verified with a
    5: the rating becomes (4 * 1 + 5) / 2 = 4.5. *)
Lemma verifyWorkOrder_updates_rating_witness :
  exists vendor' rating,
    vendors (snd (WorkOrderService.verifyWorkOrder connected_orders 9000
                    "wo-5" "user-1" (5 # 1) (5 # 1) seasoned_db))
      !! "vendor-4" = Some vendor'
    /\ v_rating vendor' = Some rating
    /\ (rating == 9 # 2)%Q.
Proof.
  destruct (verifyWorkOrder_updates_rating connected_orders 9000 "wo-5"
              "user-1" (5 # 1) (5 # 1) seasoned_db
              (sample_order "wo-5" None (Some "vendor-4") None None None)
              "vendor-4" seasoned_vendor
              eq_refl eq_refl ltac:(intros did Hdid; discriminate Hdid)
              eq_refl eq_refl)
    as (vendor' & rating & Hv & Hr & Hformula & _).
  exists vendor', rating. split; [exact Hv|]. split; [exact Hr|].
  apply (Qeq_trans _ _ _ (Hformula (4 # 1) eq_refl ltac:(discriminate))).
  reflexivity.
Defined.

(** ** Vendor statistics on completion *)

Lemma Math_round_integer (z : Z) : JS.Math_round (JS.ofZ z) = z.
Proof.
  unfold JS.Math_round, JS.ofZ, Qfloor, inject_Z. simpl.
  rewrite Z.mul_1_r. symmetry. apply (Z.div_unique _ 2 z 1); lia.
Qed.

(** [Math.round] picks the nearest integer, the upper one at a tie. *)
Lemma Math_round_nearest (x : Q) :
  (x - (1 # 2) < inject_Z (JS.Math_round x))%Q
  /\ (inject_Z (JS.Math_round x) <= x + (1 # 2))%Q.
Proof.
  unfold JS.Math_round. split.
  - pose proof (Qlt_floor (x + (1 # 2))) as H.
    rewrite inject_Z_plus in H. change (inject_Z 1) with 1%Q in H.
    lra.
  - apply Qfloor_le.
Qed.

Lemma updateVendorStats_run vendorId wo db vendor :
  vendors db !! vendorId = Some vendor ->
  WorkOrderService.updateVendorStats vendorId wo db
  = (Returned tt,
     with_vendors
       (<[vendorId :=
            WorkOrderService.stats_update vendor
              (WorkOrderService.elapsed WorkOrderService.ms_per_day
                 (wo_completedAt wo) (wo_startedAt wo))
              (WorkOrderService.elapsed WorkOrderService.ms_per_hour
                 (wo_startedAt wo) (wo_assignedAt wo))
              vendor]> (vendors db)) db).
Proof.
  intros Hv. unfold WorkOrderService.updateVendorStats.
  rewrite run_bind. unfold Prisma.findUnique. rewrite Hv.
  rewrite run_bind. unfold Prisma.update. by rewrite Hv.
Qed.

Lemma merged_average_spec old completedJobs sample :
  merged_into old completedJobs sample
    (Some (WorkOrderService.merged_average old completedJobs sample)).
Proof.
  unfold merged_into, WorkOrderService.merged_average,
    WorkOrderService.truthy_Z. split.
  - intros avg -> Hnz. by destruct (Z.eqb_spec avg 0).
  - intros ->. by rewrite Math_round_integer.
Qed.

(** C3, as stated, fails: a vendor with one completed job and no stored
    average (that job had no start date) completes a four-day job; the code
    stores 4, the formula over [completedJobsBeforeIncrement = 1] gives 2. *)
Lemma unseeded_average_takes_sample :
  wo_startedAt (four_day_order "vendor-3") = Some 0
  /\ wo_completedAt (four_day_order "vendor-3") = Some four_days
  /\ ceil_between WorkOrderService.ms_per_day four_days 0 = 4
  /\ v_avgCompletionTime
       <$> (vendors (snd (WorkOrderService.updateVendorStats "vendor-3"
                            (four_day_order "vendor-3") unseeded_db))
            !! "vendor-3") = Some (Some 4)
  /\ JS.Math_round
       (incremental_average (default 0 (v_avgCompletionTime unseeded_vendor))
          (v_completedJobs unseeded_vendor) 4) = 2.
Proof. vm_compute. repeat split; reflexivity. Qed.

(** C3 (amended): when the vendor-statistics update of a completion runs for
    a stored vendor, [totalJobs] and [completedJobs] each grow by 1; and when
    [startedAt] and [completedAt] are both known and the completion time
    ceil(days between them) is not zero, [avgCompletionTime] becomes
    round((oldAvg * completedJobsBefore + sample) / (completedJobsBefore + 1))
    for a stored non-zero [oldAvg], and the sample itself when no average is
    stored; likewise the response time ceil(hours between [assignedAt] and
    [startedAt]) and [avgResponseTime].  The job counter is taken to be
    non-negative, so that the formula divides by a positive number. *)
Theorem updateVendorStats_merges
    (vendorId : string) (vendor : Vendor) (wo : WorkOrder) (db : Db)
    (Hvendor : vendors db !! vendorId = Some vendor)
    (Hcount : 0 <= v_completedJobs vendor) :
  exists vendor',
    vendors (snd (WorkOrderService.updateVendorStats vendorId wo db))
      !! vendorId = Some vendor'
    /\ v_totalJobs vendor' = v_totalJobs vendor + 1
    /\ v_completedJobs vendor' = v_completedJobs vendor + 1
    /\ (forall completedAt startedAt,
          wo_completedAt wo = Some completedAt ->
          wo_startedAt wo = Some startedAt ->
          let completionTime :=
            ceil_between WorkOrderService.ms_per_day completedAt startedAt in
          completionTime <> 0 ->
          merged_into (v_avgCompletionTime vendor) (v_completedJobs vendor)
            completionTime (v_avgCompletionTime vendor'))
    /\ (forall startedAt assignedAt,
          wo_startedAt wo = Some startedAt ->
          wo_assignedAt wo = Some assignedAt ->
          let responseTime :=
            ceil_between WorkOrderService.ms_per_hour startedAt assignedAt in
          responseTime <> 0 ->
          merged_into (v_avgResponseTime vendor) (v_completedJobs vendor)
            responseTime (v_avgResponseTime vendor')).
Proof.
  rewrite (updateVendorStats_run _ _ _ _ Hvendor). simpl.
  rewrite lookup_insert_eq. eexists. split; [reflexivity|]. simpl.
  split; [done|]. split; [done|]. split.
  - intros c s Hc Hs Hnz. rewrite Hc, Hs.
    unfold WorkOrderService.elapsed, WorkOrderService.truthy_Z at 1.
    change (JS.Math_ceil (JS.ofZ (c - s) / JS.ofZ WorkOrderService.ms_per_day))
      with (ceil_between WorkOrderService.ms_per_day c s).
    destruct (Z.eqb_spec (ceil_between WorkOrderService.ms_per_day c s) 0);
      [done|].
    apply merged_average_spec.
  - intros s a Hs Ha Hnz. rewrite Hs, Ha.
    unfold WorkOrderService.elapsed, WorkOrderService.truthy_Z at 1.
    change (JS.Math_ceil (JS.ofZ (s - a) / JS.ofZ WorkOrderService.ms_per_hour))
      with (ceil_between WorkOrderService.ms_per_hour s a).
    destruct (Z.eqb_spec (ceil_between WorkOrderService.ms_per_hour s a) 0);
      [done|].
    apply merged_average_spec.
Qed.

(** Scenario D, second completion: average 2 over one job, then a four-day
    job, gives round((2 * 1 + 4) / 2) = 3. *)
Lemma updateVendorStats_merges_witness :
  exists vendor',
    vendors (snd (WorkOrderService.updateVendorStats "vendor-1"
                    (four_day_order "vendor-1") vendor_db))
      !! "vendor-1" = Some vendor'
    /\ v_completedJobs vendor' = 2
    /\ v_avgCompletionTime vendor' = Some 3.
Proof.
  assert (Hcount : 0 <= v_completedJobs sample_vendor) by (simpl; lia).
  destruct (updateVendorStats_merges "vendor-1" sample_vendor
              (four_day_order "vendor-1") vendor_db eq_refl Hcount)
    as (vendor' & Hv & _ & Hjobs & Hcompletion & _).
  exists vendor'. split; [exact Hv|]. split; [exact Hjobs|].
  assert (Hnz : ceil_between WorkOrderService.ms_per_day four_days 0 <> 0)
    by (vm_compute; discriminate).
  destruct (Hcompletion four_days 0 eq_refl eq_refl Hnz) as [Hmerge _].
  exact (Hmerge 2 eq_refl ltac:(discriminate)).
Defined.

(** ** Completion cascade onto the linked damage *)

(** The vendor-statistics step of a completion always returns and touches
    only the vendor table. *)
Lemma stats_step_frames (vendorId : option string) (wo : WorkOrder) (db : Db) :
  exists db',
    match WorkOrderService.truthy_id vendorId with
    | Some vid => WorkOrderService.updateVendorStats vid wo
    | None => mret tt
    end db = (Returned tt, db')
    /\ damages db' = damages db
    /\ workOrders db' = workOrders db.
Proof.
  destruct (WorkOrderService.truthy_id vendorId) as [vid|]; [|by exists db].
  destruct (vendors db !! vid) as [vendor|] eqn:Hv.
  - rewrite (updateVendorStats_run _ _ _ _ Hv). by eexists.
  - exists db. unfold WorkOrderService.updateVendorStats.
    rewrite run_bind. unfold Prisma.findUnique. by rewrite Hv.
Qed.

(** A service as its constructor builds it writes the work-order row and
    stops at the event: the damage is not reached. *)
Lemma completeWorkOrder_unconnected now notification id params db wo :
  workOrders db !! id = Some wo ->
  exists wo',
    WorkOrderService.completeWorkOrder WorkOrderService.new now notification
      id params db
    = (Thrown "RabbitMQ channel not initialized",
       with_workOrders (<[id := wo']> (workOrders db)) db)
    /\ wo_status wo' = COMPLETED.
Proof.
  intros Hwo. unfold WorkOrderService.completeWorkOrder.
  rewrite run_bind, (updateWorkOrder_unconnected _ _ _ wo Hwo).
  by eexists.
Qed.

(** C2, as stated, fails: an order that already carries a cost of 100 is
    completed without an [actualCost]; the linked damage becomes REPAIRED but
    its [actualCost] stays empty while the order's stays 100. *)
Lemma completion_without_cost :
  let db' := snd (WorkOrderService.completeWorkOrder connected_orders 9000
                    (Returned tt) "wo-2" no_costs repair_db) in
  wo_damageId <$> (workOrders repair_db !! "wo-2") = Some (Some "dmg-1")
  /\ dmg_status <$> (damages db' !! "dmg-1") = Some REPAIRED
  /\ dmg_actualCost <$> (damages db' !! "dmg-1") = Some None
  /\ wo_actualCost <$> (workOrders db' !! "wo-2") = Some (Some (100 # 1)).
Proof. vm_compute. repeat split; reflexivity. Qed.

(** C2 (amended): when the work order's "updated" event is published,
    completing a work order linked to a stored damage leaves that damage
    REPAIRED whatever its status was; with an [actualCost] supplied, the
    damage and the work order both carry it afterwards; with none supplied,
    each keeps the [actualCost] it had. *)
Theorem completeWorkOrder_repairs_damage
    (svc : WorkOrderService.t) (now : Z) (notification : outcome unit)
    (id : string) (params : WorkOrderService.CompleteParams) (db : Db)
    (wo : WorkOrder) (damageId : string) (d : Damage)
    (Hpub : can_publish (WorkOrderService.rabbitMQ svc))
    (Hwo : workOrders db !! id = Some wo)
    (Hlink : WorkOrderService.truthy_id (wo_damageId wo) = Some damageId)
    (Hdamage : damages db !! damageId = Some d) :
  let run := WorkOrderService.completeWorkOrder svc now notification id params
               db in
  exists wo' d',
    fst run = Returned wo'
    /\ workOrders (snd run) !! id = Some wo'
    /\ damages (snd run) !! damageId = Some d'
    /\ wo_status wo' = COMPLETED
    /\ dmg_status d' = REPAIRED
    /\ (forall c, WorkOrderService.cp_actualCost params = Some c ->
          wo_actualCost wo' = Some c /\ dmg_actualCost d' = Some c)
    /\ (WorkOrderService.cp_actualCost params = None ->
          wo_actualCost wo' = wo_actualCost wo
          /\ dmg_actualCost d' = dmg_actualCost d).
Proof.
  intros run. subst run. unfold WorkOrderService.completeWorkOrder.
  rewrite run_bind, (updateWorkOrder_run _ _ _ _ wo Hpub Hwo).
  set (wo' := WorkOrderService.apply_update _ wo).
  set (db1 := with_workOrders _ db).
  assert (Hid : wo_damageId wo' = wo_damageId wo) by reflexivity.
  assert (Hres : forall did,
             WorkOrderService.truthy_id (wo_damageId wo') = Some did ->
             is_Some (damages db1 !! did)).
  { intros did. rewrite Hid, Hlink. intros [= <-]. simpl. eauto. }
  rewrite run_bind, (cascade_run _ _ _ _ Hres).
  set (db2 := cascaded _ _ _ db1).
  destruct (stats_step_frames (wo_vendorId wo') wo' db2)
    as (db3 & Hrun & Hdamages & Horders).
  rewrite run_bind, Hrun. rewrite run_bind.
  unfold WorkOrderService.notify, swallow, lift. simpl.
  rewrite Horders, Hdamages. subst db2.
  rewrite workOrders_cascaded. unfold cascaded. rewrite Hid, Hlink.
  subst db1. simpl. rewrite Hdamage. simpl. rewrite !lookup_insert_eq.
  eexists _, _. do 3 (split; [reflexivity|]). subst wo'. simpl.
  split; [done|]. split; [done|]. split.
  - by intros c ->.
  - by intros ->.
Qed.

Lemma completeWorkOrder_repairs_damage_witness :
  exists wo' d',
    workOrders (snd (WorkOrderService.completeWorkOrder connected_orders 9000
                       (Thrown "timeout") "wo-2" (with_cost (250 # 1))
                       repair_db)) !! "wo-2" = Some wo'
    /\ damages (snd (WorkOrderService.completeWorkOrder connected_orders 9000
                       (Thrown "timeout") "wo-2" (with_cost (250 # 1))
                       repair_db)) !! "dmg-1" = Some d'
    /\ dmg_status d' = REPAIRED
    /\ wo_actualCost wo' = Some (250 # 1)
    /\ dmg_actualCost d' = Some (250 # 1).
Proof.
  destruct (completeWorkOrder_repairs_damage connected_orders 9000
              (Thrown "timeout") "wo-2" (with_cost (250 # 1)) repair_db
              _ "dmg-1" sample_damage eq_refl eq_refl eq_refl eq_refl)
    as (wo' & d' & _ & Hwo & Hd & _ & Hst & Hcost & _).
  exists wo', d'. split; [exact Hwo|]. split; [exact Hd|].
  split; [exact Hst|]. exact (Hcost (250 # 1) eq_refl).
Defined.

(** A completion whose event is published reaches the vendor-statistics
    update with [completedAt] set to the time of the call. *)
Lemma completeWorkOrder_reaches_stats svc now notification id params db wo
    vendorId vendor :
  can_publish (WorkOrderService.rabbitMQ svc) ->
  workOrders db !! id = Some wo ->
  link_resolves wo db ->
  WorkOrderService.truthy_id (wo_vendorId wo) = Some vendorId ->
  vendors db !! vendorId = Some vendor ->
  vendors (snd (WorkOrderService.completeWorkOrder svc now notification id
                  params db)) !! vendorId
  = Some (WorkOrderService.stats_update vendor
            (WorkOrderService.elapsed WorkOrderService.ms_per_day (Some now)
               (wo_startedAt wo))
            (WorkOrderService.elapsed WorkOrderService.ms_per_hour
               (wo_startedAt wo) (wo_assignedAt wo))
            vendor).
Proof.
  intros Hpub Hwo Hlink Hassigned Hvendor.
  unfold WorkOrderService.completeWorkOrder.
  rewrite run_bind, (updateWorkOrder_run _ _ _ _ wo Hpub Hwo).
  set (wo' := WorkOrderService.apply_update _ wo).
  set (db1 := with_workOrders _ db).
  assert (Hres : forall did,
             WorkOrderService.truthy_id (wo_damageId wo') = Some did ->
             is_Some (damages db1 !! did)) by exact Hlink.
  rewrite run_bind, (cascade_run _ _ _ _ Hres).
  set (db2 := cascaded _ _ _ db1).
  assert (Hv2 : vendors db2 !! vendorId = Some vendor).
  { subst db2. by rewrite vendors_cascaded. }
  change (wo_vendorId wo') with (wo_vendorId wo).
  rewrite Hassigned, run_bind, (updateVendorStats_run _ _ _ _ Hv2).
  rewrite run_bind. unfold WorkOrderService.notify, swallow, lift. simpl.
  by rewrite lookup_insert_eq.
Qed.

(** * Further properties of the services *)

(** ** Inspection life cycle *)

Lemma snd_createInspection svc newId params db :
  inspections db !! newId = None ->
  exists i,
    snd (InspectionService.createInspection svc newId params db)
    = with_inspections (<[newId := i]> (inspections db)) db
    /\ insp_status i = I_SCHEDULED
    /\ insp_startedAt i = None
    /\ insp_completedAt i = None
    /\ insp_startLocation i = None
    /\ insp_scheduledAt i = InspectionService.c_scheduledAt params.
Proof.
  intros Hfresh. unfold InspectionService.createInspection.
  rewrite run_bind. unfold Prisma.create. rewrite Hfresh.
  rewrite snd_publish_then. by eexists.
Qed.

Lemma snd_updateInspection_stored svc id params db i :
  inspections db !! id = Some i ->
  snd (InspectionService.updateInspection svc id params db)
  = with_inspections
      (<[id := InspectionService.apply_update params i]> (inspections db)) db.
Proof.
  intros Hi. rewrite snd_updateInspection. unfold Prisma.update. by rewrite Hi.
Qed.

(** X1: an inspection created under a fresh identifier, then started at
    [t1], then completed at [t2] with condition [condition], is stored as
    COMPLETED with [startedAt = t1], [completedAt = t2], that overall
    condition and its original schedule, whether or not the events of the
    three calls could be published. *)
Theorem inspection_lifecycle
    (svc : InspectionService.t) (newId : string)
    (params : InspectionService.CreateInspectionParams)
    (t1 t2 : Z) (loc1 loc2 : option GeoFix) (condition : Condition)
    (notes : option string) (db : Db)
    (Hfresh : inspections db !! newId = None) :
  let db1 := snd (InspectionService.createInspection svc newId params db) in
  let db2 := snd (InspectionService.startInspection svc t1 newId loc1 db1) in
  let db3 := snd (InspectionService.completeInspection svc t2 newId condition
                    notes loc2 db2) in
  exists i,
    inspections db3 !! newId = Some i
    /\ insp_status i = I_COMPLETED
    /\ insp_startedAt i = Some t1
    /\ insp_completedAt i = Some t2
    /\ insp_overallCondition i = Some condition
    /\ insp_scheduledAt i = InspectionService.c_scheduledAt params
    /\ insp_startLocation i = loc1.
Proof.
  intros db1 db2 db3.
  destruct (snd_createInspection svc newId params db Hfresh)
    as (i0 & Hdb1 & _ & _ & _ & Hloc & Hsched).
  fold db1 in Hdb1.
  assert (H1 : inspections db1 !! newId = Some i0).
  { rewrite Hdb1. simpl. apply lookup_insert_eq. }
  assert (Hdb2 : exists i1,
             inspections db2 !! newId = Some i1
             /\ insp_startedAt i1 = Some t1
             /\ insp_startLocation i1 = loc1
             /\ insp_scheduledAt i1 = insp_scheduledAt i0).
  { subst db2. unfold InspectionService.startInspection.
    rewrite (snd_updateInspection_stored _ _ _ _ i0 H1). simpl.
    rewrite lookup_insert_eq. eexists. split; [reflexivity|]. simpl.
    repeat split. rewrite Hloc. by destruct loc1. }
  destruct Hdb2 as (i1 & H2 & Hs1 & Hl1 & Hsch1).
  subst db3. unfold InspectionService.completeInspection.
  rewrite (snd_updateInspection_stored _ _ _ _ i1 H2). simpl.
  rewrite lookup_insert_eq. eexists. split; [reflexivity|]. simpl.
  repeat split; try done. by rewrite Hsch1.
Qed.

Lemma inspection_lifecycle_witness :
  exists i,
    inspections
      (snd (InspectionService.completeInspection InspectionService.new 3000
              "insp-7" GOOD None None
              (snd (InspectionService.startInspection InspectionService.new
                      2000 "insp-7" None
                      (snd (InspectionService.createInspection
                              InspectionService.new "insp-7" sample_create
                              empty_db)))))) !! "insp-7" = Some i
    /\ insp_status i = I_COMPLETED
    /\ insp_overallCondition i = Some GOOD.
Proof.
  destruct (inspection_lifecycle InspectionService.new "insp-7" sample_create
              2000 3000 None None GOOD None empty_db eq_refl)
    as (i & Hi & Hst & _ & _ & Hc & _).
  exists i. split; [exact Hi|]. split; [exact Hst | exact Hc].
Defined.

(** ** Inspection photos *)

(** X2: a photo added to a stored inspection is appended after the photos
    already there, with the uploaded URL and the time of the call; status,
    [startedAt] and [completedAt] stay as they were. *)
Theorem inspection_addPhoto_appends
    (svc : InspectionService.t) (now : Z) (upload : S3UploadResult)
    (id : string) (metadata : InspectionService.PhotoParams) (db : Db)
    (i : Inspection)
    (Hstored : inspections db !! id = Some i) :
  exists i' photo,
    inspections (snd (InspectionService.addPhoto svc now (Returned upload) id
                        metadata db)) !! id = Some i'
    /\ insp_photos i' = Some (default [] (insp_photos i) ++ [photo])
    /\ photo_url photo = s3_url upload
    /\ photo_timestamp photo = now
    /\ photo_room photo = InspectionService.p_room metadata
    /\ insp_status i' = insp_status i
    /\ insp_startedAt i' = insp_startedAt i
    /\ insp_completedAt i' = insp_completedAt i.
Proof.
  unfold InspectionService.addPhoto. rewrite run_lift_bind, run_bind.
  unfold Prisma.findUnique at 1. rewrite Hstored.
  rewrite (snd_updateInspection_stored _ _ _ _ i Hstored). simpl.
  rewrite lookup_insert_eq. eexists _, _. split; [reflexivity|].
  simpl. repeat split; reflexivity.
Qed.

Lemma inspection_addPhoto_appends_witness :
  exists i' photo,
    inspections (snd (InspectionService.addPhoto InspectionService.new 5000
                        (Returned sample_upload) "insp-1" sample_photo_params
                        completed_db)) !! "insp-1" = Some i'
    /\ insp_photos i' = Some [photo]
    /\ photo_url photo = "https://bucket/photo.jpg".
Proof.
  destruct (inspection_addPhoto_appends InspectionService.new 5000
              sample_upload "insp-1" sample_photo_params completed_db
              sample_inspection eq_refl)
    as (i' & photo & Hi & Hphotos & Hurl & _).
  exists i', photo. split; [exact Hi|]. split; [exact Hphotos | exact Hurl].
Defined.

(** X3: [addPhoto] stores nothing when the upload fails or when no
    inspection has the identifier; in the second case the image has been
    uploaded all the same and the call throws "Inspection <id> not found". *)
Theorem inspection_addPhoto_failures
    (svc : InspectionService.t) (now : Z) (upload : outcome S3UploadResult)
    (id : string) (metadata : InspectionService.PhotoParams) (db : Db) :
  (forall msg, upload = Thrown msg ->
     InspectionService.addPhoto svc now upload id metadata db = (Thrown msg, db))
  /\ (forall u, upload = Returned u -> inspections db !! id = None ->
        InspectionService.addPhoto svc now upload id metadata db
        = (Thrown ("Inspection " +:+ id +:+ " not found"), db)).
Proof.
  split.
  - intros msg ->. unfold InspectionService.addPhoto. by rewrite run_lift_bind.
  - intros u -> Hnone. unfold InspectionService.addPhoto.
    rewrite run_lift_bind, run_bind. unfold Prisma.findUnique.
    by rewrite Hnone.
Qed.

Lemma inspection_addPhoto_failures_witness :
  InspectionService.addPhoto InspectionService.new 5000 (Returned sample_upload)
    "insp-404" sample_photo_params completed_db
  = (Thrown "Inspection insp-404 not found", completed_db).
Proof.
  exact (proj2 (inspection_addPhoto_failures InspectionService.new 5000
                  (Returned sample_upload) "insp-404" sample_photo_params
                  completed_db) sample_upload eq_refl eq_refl).
Defined.

(** ** Report generation *)

Lemma encode_all_encodable encodeText doc :
  encodable encodeText doc ->
  Pdf.encode_all encodeText (Pdf.drawn doc) = Returned tt.
Proof.
  unfold encodable. induction 1 as [|op ops Hop _ IH]; simpl; [done|].
  by rewrite Hop.
Qed.

Lemma encode_all_refused encodeText doc :
  refused encodeText doc ->
  exists msg, Pdf.encode_all encodeText (Pdf.drawn doc) = Thrown msg.
Proof.
  unfold refused. induction 1 as [op ops [msg Hop]|op ops _ [msg IH]]; simpl.
  - rewrite Hop. by exists msg.
  - destruct (encodeText (Pdf.op_content op)) as [[]|e]; [by exists msg|].
    by exists e.
Qed.

Lemma ascii_font_encodes doc : encodable ascii_font doc.
Proof. unfold encodable. by apply Forall_forall. Qed.

Lemma generateReport_run svc now encodeText uploadFile id db i u :
  inspections db !! id = Some i ->
  encodable encodeText (InspectionService.render i (damages_of id db)) ->
  (forall doc, uploadFile doc = Returned u) ->
  InspectionService.generateReport svc now encodeText uploadFile id db
  = (Returned (s3_url u),
     with_inspections
       (<[id := InspectionService.set_report (s3_url u) now i]>
          (inspections db)) db).
Proof.
  intros Hstored Hencode Hupload. unfold InspectionService.generateReport.
  rewrite run_bind. unfold Prisma.findUnique at 1. rewrite Hstored.
  rewrite run_bind. unfold Prisma.findMany at 1.
  fold (damages_of id db).
  rewrite run_lift_bind, (encode_all_encodable _ _ Hencode).
  rewrite run_lift_bind, Hupload, run_bind. unfold Prisma.update.
  by rewrite Hstored.
Qed.

(** X4: for a stored inspection whose rendered report is uploaded,
    [generateReport] returns the uploaded URL and records it with the time
    of the call on the inspection, provided the font can encode the text
    of every run of the report; nothing else of the inspection and no
    other table changes, and no event is published.  When the font refuses
    the text of some run (a character outside WinAnsi in the notes or in a
    room, say) the call throws and the database is as before. *)
Theorem generateReport_records_url
    (svc : InspectionService.t) (now : Z) (encodeText : Pdf.Encoder)
    (uploadFile : Pdf.Document -> outcome S3UploadResult) (id : string)
    (db : Db) (i : Inspection) (u : S3UploadResult)
    (Hstored : inspections db !! id = Some i)
    (Hupload : forall doc, uploadFile doc = Returned u) :
  let report := InspectionService.render i (damages_of id db) in
  let run :=
    InspectionService.generateReport svc now encodeText uploadFile id db in
  (encodable encodeText report ->
   fst run = Returned (s3_url u)
   /\ exists i',
        snd run = with_inspections (<[id := i']> (inspections db)) db
        /\ insp_reportUrl i' = Some (s3_url u)
        /\ insp_reportGeneratedAt i' = Some now
        /\ insp_status i' = insp_status i
        /\ insp_completedAt i' = insp_completedAt i
        /\ insp_photos i' = insp_photos i
        /\ insp_notes i' = insp_notes i)
  /\ (refused encodeText report -> exists msg, run = (Thrown msg, db)).
Proof.
  intros report run. subst run report. split.
  - intros Hencode.
    rewrite (generateReport_run _ _ _ _ _ _ i u Hstored Hencode Hupload). simpl.
    split; [reflexivity|]. eexists. split; [reflexivity|]. by simpl.
  - intros Hrefused. apply encode_all_refused in Hrefused as [msg Hmsg].
    exists msg. unfold InspectionService.generateReport.
    rewrite run_bind. unfold Prisma.findUnique at 1. rewrite Hstored.
    rewrite run_bind. unfold Prisma.findMany at 1. fold (damages_of id db).
    by rewrite run_lift_bind, Hmsg.
Qed.

Lemma generateReport_records_url_witness :
  fst (InspectionService.generateReport InspectionService.new 6000 ascii_font
         (fun _ => Returned sample_upload) "insp-1" completed_db)
  = Returned "https://bucket/photo.jpg".
Proof.
  exact (proj1 (proj1 (generateReport_records_url InspectionService.new 6000
                         ascii_font (fun _ => Returned sample_upload) "insp-1"
                         completed_db sample_inspection sample_upload eq_refl
                         (fun _ => eq_refl))
                  (ascii_font_encodes _))).
Defined.

(** ** Wrapping of the notes *)

Lemma string_length_app (s t : string) :
  String.length (s +:+ t) = (String.length s + String.length t)%nat.
Proof. induction s as [|c s IH]; simpl; [done|]. by rewrite IH. Qed.

Lemma string_app_assoc (s t u : string) : s +:+ t +:+ u = (s +:+ t) +:+ u.
Proof.
  induction s as [|c s IH]; [done|].
  change (String c s +:+ t +:+ u) with (String c (s +:+ t +:+ u)).
  by rewrite IH.
Qed.

Lemma trimStart_length (s : string) :
  (String.length (InspectionService.trimStart s) <= String.length s)%nat.
Proof.
  induction s as [|c s IH]; simpl; [done|].
  destruct (InspectionService.is_white c); simpl; lia.
Qed.

Lemma trimEnd_length (s : string) :
  (String.length (InspectionService.trimEnd s) <= String.length s)%nat.
Proof.
  induction s as [|c s IH]; simpl; [done|].
  destruct (InspectionService.is_white c && _); simpl; lia.
Qed.

Lemma trimEnd_space_length (s : string) :
  (String.length (InspectionService.trimEnd (s +:+ " ")) <= String.length s)%nat.
Proof.
  induction s as [|c s IH]; [done|].
  change (String c s +:+ " ") with (String c (s +:+ " ")).
  cbn [InspectionService.trimEnd].
  destruct (InspectionService.is_white c && _); simpl; lia.
Qed.

Lemma trimStart_space (s : string) :
  InspectionService.trimStart (s +:+ " ")
  = InspectionService.trimStart s +:+ " "
  \/ InspectionService.trimStart (s +:+ " ") = "".
Proof.
  induction s as [|c s IH]; [by right|].
  change (String c s +:+ " ") with (String c (s +:+ " ")).
  cbn [InspectionService.trimStart].
  destruct (InspectionService.is_white c); [exact IH|by left].
Qed.

Lemma trim_space_length (s : string) :
  (String.length (InspectionService.trim (s +:+ " ")) <= String.length s)%nat.
Proof.
  unfold InspectionService.trim.
  destruct (trimStart_space s) as [-> | ->]; [|simpl; lia].
  etransitivity; [apply trimEnd_space_length|apply trimStart_length].
Qed.

Lemma fitting_line_trim maxLength currentLine :
  fitting_line maxLength currentLine ->
  (String.length (InspectionService.trim currentLine) <= maxLength)%nat.
Proof.
  intros [-> | (body & -> & Hfit)]; [simpl; lia|].
  etransitivity; [apply trim_space_length|exact Hfit].
Qed.

Lemma wrap_words_fit maxLength words : forall lines currentLine,
  Forall (fun w => (String.length w <= maxLength)%nat) words ->
  Forall (fun l => (String.length l <= maxLength)%nat) lines ->
  fitting_line maxLength currentLine ->
  Forall (fun l => (String.length l <= maxLength)%nat)
    (fst (InspectionService.wrap_words maxLength words lines currentLine))
  /\ fitting_line maxLength
       (snd (InspectionService.wrap_words maxLength words lines currentLine)).
Proof.
  induction words as [|w words IH]; intros lines currentLine Hwords Hlines Hcur.
  - done.
  - inversion Hwords as [|? ? Hw Hrest]; subst. simpl.
    destruct (Nat.ltb_spec maxLength (String.length (currentLine +:+ w))).
    + apply IH; [done| |].
      * apply Forall_app. split; [done|]. constructor; [|done].
        by apply fitting_line_trim.
      * right. by exists w.
    + apply IH; [done|done|]. right. exists (currentLine +:+ w).
      split; [|done]. apply string_app_assoc.
Qed.

(** X5: when no space-separated word of the text is longer than [maxLength],
    no line that [wrapText] returns is longer than [maxLength]. *)
Theorem wrapText_lines_fit (text : string) (maxLength : nat)
    (Hwords : Forall (fun w => (String.length w <= maxLength)%nat)
                (InspectionService.split_spaces text)) :
  Forall (fun line => (String.length line <= maxLength)%nat)
    (InspectionService.wrapText text maxLength).
Proof.
  unfold InspectionService.wrapText.
  destruct (wrap_words_fit maxLength (InspectionService.split_spaces text)
              [] "" Hwords (List.Forall_nil _) (or_introl eq_refl))
    as [Hlines Hcur].
  destruct (InspectionService.wrap_words _ _ _ _) as [lines currentLine].
  simpl in *. destruct (String.eqb _ _); [done|].
  apply Forall_app. split; [done|]. constructor; [|done].
  by apply fitting_line_trim.
Qed.

Lemma wrapText_lines_fit_witness :
  Forall (fun line => (String.length line <= 10)%nat)
    (InspectionService.wrapText "hello  world this is  a test " 10).
Proof.
  apply wrapText_lines_fit. vm_compute. repeat constructor.
Defined.

(** A word longer than [maxLength] is not broken, and when the text starts
    with one an empty line comes first. *)
Lemma wrapText_long_first_word :
  InspectionService.wrapText "abcdefgh ij" 5 = [""; "abcdefgh"; "ij"].
Proof. reflexivity. Qed.

(** ** Contents and page count of the report *)

Lemma contents_drawText p c x y size bold doc :
  contents_of (Pdf.drawText p c x y size bold doc) = contents_of doc ++ [c].
Proof. unfold contents_of. simpl. by rewrite fmap_app. Qed.

Lemma contents_draw_details p ds doc y :
  contents_of (fst (InspectionService.draw_details p ds (doc, y)))
  = contents_of doc ++ (Pdf.Detail <$> ds).
Proof.
  revert doc y. induction ds as [|d ds IH]; intros doc y; simpl.
  - by rewrite app_nil_r.
  - rewrite IH, contents_drawText. by rewrite <- app_assoc.
Qed.

Lemma contents_draw_damages p height ds doc y :
  contents_of (fst (InspectionService.draw_damages p height ds (doc, y)))
  = contents_of doc ++ (damage_line <$> ds).
Proof.
  revert doc y. induction ds as [|d ds IH]; intros doc y; simpl.
  - by rewrite app_nil_r.
  - destruct (y - 20 <? 100); rewrite IH; unfold contents_of; simpl;
      rewrite fmap_app; by rewrite <- app_assoc.
Qed.

Lemma contents_draw_notes p lines doc y :
  contents_of (fst (InspectionService.draw_notes p lines (doc, y)))
  = contents_of doc ++ (Pdf.NotesLine <$> lines).
Proof.
  revert doc y. induction lines as [|l lines IH]; intros doc y; simpl.
  - by rewrite app_nil_r.
  - rewrite IH, contents_drawText. by rewrite <- app_assoc.
Qed.

(** X6: the report consists of the title, the seven detail lines, then,
    if there are damages, their heading and one line per damage in the
    order of the query, then, if there are notes, their heading and the
    wrapped lines: nothing is left out or drawn twice, however many pages
    are appended. *)
Theorem render_contents (inspection : Inspection)
    (inspection_damages : list Damage) :
  contents_of (InspectionService.render inspection inspection_damages)
  = report_contents inspection inspection_damages.
Proof.
  unfold InspectionService.render, report_contents.
  change (Pdf.addPage Pdf.create)
    with (0%nat, {| Pdf.pageCount := 1; Pdf.drawn := [] |}).
  cbv iota beta.
  destruct (InspectionService.draw_details 0 _ _) as [d1 y1] eqn:E1.
  assert (H1 : contents_of d1
               = [Pdf.Title] ++ (Pdf.Detail <$> InspectionService.details)).
  { change d1 with (fst (d1, y1)). rewrite <- E1.
    by rewrite contents_draw_details. }
  destruct (if (0 <? length inspection_damages)%nat then _ else _)
    as [d2 y2] eqn:E2.
  assert (H2 : contents_of d2
               = contents_of d1
                 ++ match inspection_damages with
                    | [] => []
                    | _ => Pdf.DamagesHeading
                           :: (damage_line <$> inspection_damages)
                    end).
  { change d2 with (fst (d2, y2)). rewrite <- E2.
    destruct inspection_damages as [|d ds]; [by rewrite app_nil_r|].
    change (0 <? length (d :: ds))%nat with true. cbv iota.
    rewrite contents_draw_damages, contents_drawText.
    by rewrite <- app_assoc. }
  destruct (match insp_notes inspection with Some _ => _ | None => _ end)
    as [d3 y3] eqn:E3.
  change d3 with (fst (d3, y3)). rewrite <- E3.
  rewrite !app_assoc, <- H1, <- H2.
  destruct (insp_notes inspection) as [notes|]; [|by rewrite app_nil_r].
  destruct (String.eqb notes ""); [by rewrite app_nil_r|].
  rewrite contents_draw_notes, contents_drawText.
  by rewrite <- app_assoc.
Qed.

Lemma pageCount_draw_details p ds doc y :
  Pdf.pageCount (fst (InspectionService.draw_details p ds (doc, y)))
  = Pdf.pageCount doc
  /\ snd (InspectionService.draw_details p ds (doc, y))
     = y - 20 * Z.of_nat (length ds).
Proof.
  revert doc y. induction ds as [|d ds IH]; intros doc y.
  - simpl. split; [done|lia].
  - cbn [InspectionService.draw_details].
    destruct (IH (Pdf.drawText p (Pdf.Detail d) 50 y 12 false doc) (y - 20))
      as [-> ->].
    split; [done|]. rewrite length_cons. lia.
Qed.

Lemma pageCount_draw_notes p lines doc y :
  Pdf.pageCount (fst (InspectionService.draw_notes p lines (doc, y)))
  = Pdf.pageCount doc.
Proof.
  revert doc y. induction lines as [|l lines IH]; intros doc y; [done|].
  cbn [InspectionService.draw_notes]. by rewrite IH.
Qed.

(** While the cursor stays at or above 100 after each line, no page is
    appended. *)
Lemma draw_damages_room p height ds : forall doc y,
  100 <= y - 20 * Z.of_nat (length ds) ->
  Pdf.pageCount (fst (InspectionService.draw_damages p height ds (doc, y)))
  = Pdf.pageCount doc
  /\ snd (InspectionService.draw_damages p height ds (doc, y))
     = y - 20 * Z.of_nat (length ds).
Proof.
  induction ds as [|d ds IH]; intros doc y Hroom.
  - simpl. split; [done|lia].
  - rewrite length_cons in Hroom. cbn [InspectionService.draw_damages].
    destruct (Z.ltb_spec (y - 20) 100); [lia|].
    destruct (IH (Pdf.drawText p (damage_line d) 70 y 11 false doc) (y - 20))
      as [Hc Hy]; [lia|].
    unfold damage_line in *. rewrite Hc, Hy. split; [done|].
    rewrite length_cons. lia.
Qed.

Lemma draw_damages_monotone p height ds : forall doc y,
  (Pdf.pageCount doc
   <= Pdf.pageCount
        (fst (InspectionService.draw_damages p height ds (doc, y))))%nat.
Proof.
  induction ds as [|d ds IH]; intros doc y; [done|].
  cbn [InspectionService.draw_damages].
  destruct (y - 20 <? 100).
  - etransitivity; [|apply IH]. simpl. lia.
  - etransitivity; [|apply IH]. done.
Qed.

Lemma draw_damages_app p height l1 l2 cur :
  InspectionService.draw_damages p height (l1 ++ l2) cur
  = InspectionService.draw_damages p height l2
      (InspectionService.draw_damages p height l1 cur).
Proof.
  revert cur. induction l1 as [|d l1 IH]; intros [doc y]; [done|].
  cbn [app InspectionService.draw_damages].
  destruct (y - 20 <? 100); apply IH.
Qed.

Lemma render_pageCount inspection inspection_damages :
  Pdf.pageCount (InspectionService.render inspection inspection_damages)
  = match inspection_damages with
    | [] => 1%nat
    | _ =>
        Pdf.pageCount
          (fst (InspectionService.draw_damages 0 Pdf.page_height
                  inspection_damages
                  ({| Pdf.pageCount := 1; Pdf.drawn := [] |}, 512)))
    end.
Proof.
  unfold InspectionService.render.
  change (Pdf.addPage Pdf.create)
    with (0%nat, {| Pdf.pageCount := 1; Pdf.drawn := [] |}).
  cbv iota beta.
  set (d0 := Pdf.drawText 0 Pdf.Title 50 (Pdf.page_height - 50) 24 true _).
  destruct (pageCount_draw_details 0 InspectionService.details d0
              (Pdf.page_height - 50 - 40)) as [Hc1 Hy1].
  destruct (InspectionService.draw_details 0 _ _) as [d1 y1].
  simpl in Hc1, Hy1.
  destruct (if (0 <? length inspection_damages)%nat then _ else _)
    as [d2 y2] eqn:E2.
  assert (H2 : Pdf.pageCount d2
               = match inspection_damages with
                 | [] => 1%nat
                 | _ =>
                     Pdf.pageCount
                       (fst (InspectionService.draw_damages 0 Pdf.page_height
                               inspection_damages
                               ({| Pdf.pageCount := 1; Pdf.drawn := [] |},
                                512)))
                 end).
  { change d2 with (fst (d2, y2)). rewrite <- E2.
    destruct inspection_damages as [|d ds]; [done|].
    change (0 <? length (d :: ds))%nat with true. cbv iota.
    rewrite Hy1. change (Pdf.page_height - 50 - 40 - 140 - 20 - 30) with 512.
    generalize (d :: ds). intros l.
    assert (Hgen : forall doc doc' y,
               Pdf.pageCount doc = Pdf.pageCount doc' ->
               Pdf.pageCount
                 (fst (InspectionService.draw_damages 0 Pdf.page_height l
                         (doc, y)))
               = Pdf.pageCount
                   (fst (InspectionService.draw_damages 0 Pdf.page_height l
                           (doc', y)))).
    { induction l as [|x l IH]; intros doc doc' y Heq; [done|].
      cbn [InspectionService.draw_damages].
      destruct (y - 20 <? 100); apply IH; simpl; by rewrite ?Heq. }
    apply Hgen. by simpl. }
  destruct (match insp_notes inspection with Some _ => _ | None => _ end)
    as [d3 y3] eqn:E3.
  change d3 with (fst (d3, y3)). rewrite <- E3, <- H2.
  destruct (insp_notes inspection) as [notes|]; [|done].
  destruct (String.eqb notes ""); [done|].
  by rewrite pageCount_draw_notes.
Qed.

(** X7: the report has a single page exactly when the inspection has at
    most twenty damages; from the twenty-first damage on a second page
    exists.  The notes never add a page, however long they are. *)
Theorem report_single_page_iff (inspection : Inspection)
    (inspection_damages : list Damage) :
  Pdf.pageCount (InspectionService.render inspection inspection_damages) = 1%nat
  <-> (length inspection_damages <= 20)%nat.
Proof.
  rewrite render_pageCount.
  destruct inspection_damages as [|d ds]; [simpl; split; [lia|done]|].
  set (l := d :: ds). set (doc := {| Pdf.pageCount := 1; Pdf.drawn := [] |}).
  destruct (le_lt_dec (length l) 20) as [Hle | Hgt].
  - split; [done|]. intros _.
    destruct (draw_damages_room 0 Pdf.page_height l doc 512) as [-> _];
      [lia|done].
  - split; [|lia]. intros Hone. exfalso.
    rewrite <- (firstn_skipn 20 l) in Hone.
    rewrite draw_damages_app in Hone.
    assert (Hlen : length (firstn 20 l) = 20%nat)
      by (rewrite length_firstn; lia).
    destruct (draw_damages_room 0 Pdf.page_height (firstn 20 l) doc 512)
      as [Hc Hy]; [lia|].
    rewrite Hlen in Hy.
    destruct (InspectionService.draw_damages 0 Pdf.page_height (firstn 20 l)
                (doc, 512)) as [doc20 y20].
    cbn [fst snd] in Hc, Hy.
    destruct (skipn 20 l) as [|x rest] eqn:Hskip.
    { apply (f_equal length) in Hskip. rewrite length_skipn in Hskip.
      change (length (@nil Damage)) with 0%nat in Hskip. lia. }
    cbn [InspectionService.draw_damages] in Hone.
    destruct (Z.ltb_spec (y20 - 20) 100); [|lia].
    pose proof (draw_damages_monotone 0 Pdf.page_height rest
                  (Pdf.addPage
                     (Pdf.drawText 0 (damage_line x) 70 y20 11 false doc20)).2
                  (Pdf.page_height - 50)) as Hmono.
    unfold damage_line in Hmono. simpl in Hmono, Hone.
    rewrite Hone in Hmono. subst doc. simpl in Hc. lia.
Qed.

(** ** Vision client: best detection, comparison, fallbacks *)

Lemma bestDetection_spec others : forall first,
  let best := CVIntegrationService.bestDetection first others in
  (best = first \/ In best others)
  /\ (det_confidence first <= det_confidence best)%Q
  /\ (forall d, In d others -> (det_confidence d <= det_confidence best)%Q).
Proof.
  unfold CVIntegrationService.bestDetection.
  induction others as [|x others IH]; intros first; simpl.
  - split; [by left|]. split; [apply Qle_refl|tauto].
  - destruct (JS.Qlt_bool (det_confidence first) (det_confidence x)) eqn:E.
    + destruct (IH x) as (Hin & Hx & Hall).
      apply Qlt_bool_true_iff in E. split; [|split].
      * destruct Hin as [-> | Hin]; right; [by left|by right].
      * eapply Qle_trans; [apply Qlt_le_weak, E|exact Hx].
      * intros d [<- | Hd]; [exact Hx|by apply Hall].
    + destruct (IH first) as (Hin & Hf & Hall).
      apply Qlt_bool_false_iff in E. split; [|split].
      * destruct Hin as [-> | Hin]; [by left|right; by right].
      * exact Hf.
      * intros d [<- | Hd]; [|by apply Hall].
        eapply Qle_trans; [exact E|exact Hf].
Qed.

(** X8: from a successful answer with at least one detection,
    [detectDamage] reports one of the detections, and no detection of the
    answer has a higher confidence than the reported one. *)
Theorem detectDamage_reports_best
    (data : CVDetectionResponse) (first : Detection) (others : list Detection)
    (Hsuccess : cv_success data = true)
    (Hdetections : cv_detections data = Some (first :: others)) :
  let result := CVIntegrationService.detectDamage (Returned data) in
  detected result = true
  /\ (forall d, In d (first :: others) ->
        (det_confidence d <= confidence result)%Q)
  /\ exists d, In d (first :: others)
       /\ confidence result = det_confidence d
       /\ ai_damageType result = Some (det_type d)
       /\ ai_severity result = Some (det_severity d)
       /\ ai_boundingBox result = Some (det_boundingBox d).
Proof.
  intros result. subst result. unfold CVIntegrationService.detectDamage.
  rewrite Hsuccess, Hdetections. simpl.
  destruct (bestDetection_spec others first) as (Hin & Hf & Hall).
  split; [done|]. split.
  - intros d [<- | Hd]; [exact Hf|by apply Hall].
  - exists (CVIntegrationService.bestDetection first others).
    split; [|done]. destruct Hin as [-> | Hin]; [by left|by right].
Qed.

Lemma detectDamage_reports_best_witness :
  confidence (CVIntegrationService.detectDamage (Returned two_detections))
  = 9 # 10
  /\ ai_damageType (CVIntegrationService.detectDamage (Returned two_detections))
     = Some "crack".
Proof.
  destruct (detectDamage_reports_best two_detections _ _ eq_refl eq_refl)
    as (_ & _ & d & _ & Hc & Ht & _).
  split; reflexivity.
Defined.

Lemma Math_max_spec others : forall first,
  let m := CVIntegrationService.Math_max first others in
  (m = first \/ In m others)
  /\ (first <= m)%Q
  /\ (forall x, In x others -> (x <= m)%Q).
Proof.
  unfold CVIntegrationService.Math_max.
  induction others as [|x others IH]; intros first; simpl.
  - split; [by left|]. split; [apply Qle_refl|tauto].
  - destruct (JS.Qlt_bool first x) eqn:E.
    + destruct (IH x) as (Hin & Hx & Hall).
      apply Qlt_bool_true_iff in E. split; [|split].
      * destruct Hin as [-> | Hin]; right; [by left|by right].
      * eapply Qle_trans; [apply Qlt_le_weak, E|exact Hx].
      * intros d [<- | Hd]; [exact Hx|by apply Hall].
    + destruct (IH first) as (Hin & Hf & Hall).
      apply Qlt_bool_false_iff in E. split; [|split].
      * destruct Hin as [-> | Hin]; [by left|right; by right].
      * exact Hf.
      * intros d [<- | Hd]; [|by apply Hall].
        eapply Qle_trans; [exact E|exact Hf].
Qed.

(** X9: whatever the vision service answers, [compareImages] reports
    changes exactly when it returns at least one difference; its confidence
    is the confidence of one of the differences and no difference has a
    higher one; a failed or unsuccessful request yields no difference and
    confidence 0. *)
Theorem compareImages_confidence_is_maximum
    (response : outcome CVDetectionResponse) :
  let c := CVIntegrationService.compareImages response in
  (CVIntegrationService.hasChanges c = true
   <-> CVIntegrationService.differences c <> [])
  /\ (forall d, In d (CVIntegrationService.differences c) ->
        (CVIntegrationService.diff_confidence d
         <= CVIntegrationService.cmp_confidence c)%Q)
  /\ (CVIntegrationService.differences c <> [] ->
      exists d, In d (CVIntegrationService.differences c)
        /\ CVIntegrationService.cmp_confidence c
           = CVIntegrationService.diff_confidence d)
  /\ (CVIntegrationService.differences c = [] ->
      CVIntegrationService.cmp_confidence c = 0%Q)
  /\ ((forall data, response = Returned data -> cv_success data = false) ->
      c = CVIntegrationService.no_changes).
Proof.
  intros c. subst c. unfold CVIntegrationService.compareImages.
  destruct response as [data|msg]; [|by repeat split].
  destruct (cv_success data) eqn:Hs; simpl.
  2:{ by repeat split. }
  destruct (cv_detections data) as [dets|]; simpl.
  2:{ by repeat split. }
  destruct dets as [|d0 dets]; simpl.
  { by repeat split. }
  destruct (Math_max_spec
              (CVIntegrationService.diff_confidence
                 <$> (CVIntegrationService.to_difference <$> dets))
              (det_confidence d0)) as (Hin & Hf & Hall).
  split; [done|]. split; [|split; [|split]].
  - intros d [<- | Hd]; [exact Hf|].
    apply Hall. apply in_map_iff. by exists d.
  - intros _. destruct Hin as [Heq | Hin].
    + exists (CVIntegrationService.to_difference d0). split; [by left|done].
    + apply in_map_iff in Hin as (d & Hd & Hin).
      exists d. split; [by right|done].
  - done.
  - intros H. specialize (H data eq_refl). congruence.
Qed.

(** X10: the names of the severities map back to themselves, and so do the
    names of the damage types except BROKEN_ITEM, whose name is not a key of
    the table (the key is "broken") and falls back to OTHER. *)
Theorem enum_labels_map_back :
  (forall s, DamageService.mapAISeverity (severity_label s) = JS.Found s)
  /\ (forall t, DamageService.mapAIDamageType (damageType_label t)
                = JS.Found (match t with BROKEN_ITEM => OTHER | _ => t end)).
Proof. split; intros []; reflexivity. Qed.

(** X11: when the cost request fails, the fallback table answers for the
    upper-case names of the severities only (100, 500, 2000, 5000).  For
    each of the lower-case labels that [mapAISeverity] understands the
    estimate is the default of 500 at confidence 0.3, whatever severity the
    label stands for, although the table has a figure for that severity. *)
Theorem fallback_estimate_ignores_lower_case
    (msg damageType severity : string)
    (Hlabel : In severity ["minor"; "moderate"; "major"; "critical"; "severe"]) :
  CVIntegrationService.estimateRepairCost (Thrown msg) damageType severity
  = {| estimatedCost := JS.Found (500 # 1); estimate_confidence := 3 # 10 |}
  /\ exists mapped,
       DamageService.mapAISeverity severity = JS.Found mapped
       /\ estimatedCost
            (CVIntegrationService.estimateRepairCost (Thrown msg) damageType
               (severity_label mapped))
          = JS.Found match mapped with
                     | MINOR => 100 # 1
                     | MODERATE => 500 # 1
                     | MAJOR => 2000 # 1
                     | CRITICAL => 5000 # 1
                     end.
Proof.
  simpl in Hlabel.
  destruct Hlabel as [<- | [<- | [<- | [<- | [<- | []]]]]];
    (split; [reflexivity|]; eexists; split; reflexivity).
Qed.

Lemma fallback_estimate_ignores_lower_case_witness :
  estimatedCost
    (CVIntegrationService.estimateRepairCost (Thrown "timeout") "crack"
       "critical") = JS.Found (500 # 1).
Proof.
  destruct (fallback_estimate_ignores_lower_case "timeout" "crack" "critical"
              ltac:(simpl; tauto)) as [Hlow _].
  by rewrite Hlow.
Defined.

(** ** Before/after comparison *)

Lemma qualifies_guard cfg diff :
  JS.Qlt_bool (CVIntegrationService.diff_confidence diff)
    (ai_confidenceThreshold cfg) = negb (qualifies cfg diff).
Proof. unfold JS.Qlt_bool, qualifies. reflexivity. Qed.

Lemma compare_loop_spec cfg w params b a
    (Hinj : forall n m, DamageService.cw_newId w n = DamageService.cw_newId w m
                        -> n = m)
    diffs : forall created db,
  Forall (fun diff =>
            storable_labels (DamageService.cw_cost w diff)
              (CVIntegrationService.diff_type diff)
              (CVIntegrationService.diff_severity diff))
    (List.filter (qualifies cfg) diffs) ->
  (forall n, (length created <= n)%nat ->
             damages db !! DamageService.cw_newId w n = None) ->
  exists new db',
    DamageService.compare_loop cfg w params b a diffs created db
    = (Returned (created ++ new), db')
    /\ Forall2 (records_difference params b a) new
         (List.filter (qualifies cfg) diffs)
    /\ (forall d, In d new -> damages db' !! dmg_id d = Some d)
    /\ (forall k, (forall n, (length created <= n)%nat ->
                             k <> DamageService.cw_newId w n) ->
                  damages db' !! k = damages db !! k)
    /\ inspections db' = inspections db
    /\ workOrders db' = workOrders db
    /\ vendors db' = vendors db
    /\ vendorReviews db' = vendorReviews db.
Proof.
  induction diffs as [|diff diffs IH]; intros created db Hlabels Hfresh.
  - exists [], db. rewrite app_nil_r. simpl.
    repeat split; first [done | constructor].
  - cbn [DamageService.compare_loop List.filter] in *.
    rewrite qualifies_guard. destruct (qualifies cfg diff) eqn:Eq; cbn [negb].
    + inversion Hlabels as [|? ? Hdiff Hrest]; subst.
      destruct (storable_values _ _ _ Hdiff) as (t & sv & c & Ht & Hs & Hc).
      rewrite run_bind. unfold DamageService.create_detected.
      rewrite Ht, Hs, Hc. unfold Prisma.create.
      rewrite (Hfresh (length created) (le_n _)).
      set (id0 := DamageService.cw_newId w (length created)).
      set (row := DamageService.comparison_row params b a id0 diff t sv c).
      set (db1 := with_damages (<[id0 := row]> (damages db)) db).
      destruct (IH (created ++ [row]) db1 Hrest)
        as (new & db' & Hrun & Hall & Hstored & Hframe & Hi & Hw & Hv & Hr).
      { intros n Hn. rewrite length_app in Hn. simpl in Hn.
        subst db1. simpl. rewrite lookup_insert_ne.
        - apply Hfresh. lia.
        - subst id0. intros Heq. apply Hinj in Heq. lia. }
      exists (row :: new), db'. split; [|split; [|split; [|split]]].
      * rewrite Hrun. by rewrite <- app_assoc.
      * constructor; [|done]. subst row. unfold records_difference. simpl.
        rewrite Ht, Hs. repeat split; eauto.
      * intros d [<- | Hd]; [|by apply Hstored].
        rewrite Hframe.
        -- subst db1. simpl. subst row. simpl. apply lookup_insert_eq.
        -- intros n Hn. rewrite length_app in Hn. simpl in Hn.
           subst row. simpl. subst id0. intros Heq. apply Hinj in Heq. lia.
      * intros k Hk. rewrite Hframe.
        -- subst db1. simpl. rewrite lookup_insert_ne; [done|].
           intros Heq. by apply (Hk (length created) (le_n _)).
        -- intros n Hn. apply Hk. rewrite length_app in Hn. simpl in Hn. lia.
      * by rewrite Hi, Hw, Hv, Hr.
    + by apply IH.
Qed.

(** X12: with both images uploaded, the inspection stored, storable labels
    on the differences that qualify and the identifier generator handing
    out fresh, distinct identifiers, [compareBeforeAfter] returns one damage
    per difference whose confidence is at or above the threshold, in the
    order of the differences.  Each is stored under its own identifier as an
    AI-detected damage UNDER_REVIEW of the inspection, property, room and
    location given, carrying the difference's confidence, its two labels as
    reported, its bounding box, the mapped type and severity, an estimate
    and both photo URLs; every other row of the database is as before.  No
    event is published. *)
Theorem compareBeforeAfter_one_per_difference
    (cfg : Config) (svc : DamageService.t) (w : DamageService.CompareWorld)
    (params : DamageService.DetectParams) (db : Db)
    (b a : S3UploadResult)
    (Hbefore : DamageService.cw_before w = Returned b)
    (Hafter : DamageService.cw_after w = Returned a)
    (Hinspection : is_Some (inspections db
                              !! DamageService.d_inspectionId params))
    (Hlabels :
       Forall (fun diff =>
                 storable_labels (DamageService.cw_cost w diff)
                   (CVIntegrationService.diff_type diff)
                   (CVIntegrationService.diff_severity diff))
         (List.filter (qualifies cfg)
            (CVIntegrationService.differences
               (CVIntegrationService.compareImages
                  (DamageService.cw_comparison w)))))
    (Hinj : forall n m, DamageService.cw_newId w n = DamageService.cw_newId w m
                        -> n = m)
    (Hfresh : forall n, damages db !! DamageService.cw_newId w n = None) :
  let diffs :=
    CVIntegrationService.differences
      (CVIntegrationService.compareImages (DamageService.cw_comparison w)) in
  exists created db',
    DamageService.compareBeforeAfter cfg svc w params db
    = (Returned created, db')
    /\ Forall2 (records_difference params b a) created
         (List.filter (qualifies cfg) diffs)
    /\ (forall d, In d created -> damages db' !! dmg_id d = Some d)
    /\ (forall k, (forall n, k <> DamageService.cw_newId w n) ->
                  damages db' !! k = damages db !! k)
    /\ inspections db' = inspections db
    /\ workOrders db' = workOrders db
    /\ vendors db' = vendors db.
Proof.
  intros diffs. unfold DamageService.compareBeforeAfter.
  rewrite run_lift_bind. unfold DamageService.upload_both.
  rewrite Hbefore, Hafter.
  destruct (compare_loop_spec cfg w params b a Hinj diffs [] db Hlabels)
    as (new & db' & Hrun & Hall & Hstored & Hframe & Hi & Hw & Hv & _).
  { intros n _. apply Hfresh. }
  exists new, db'. fold diffs. rewrite Hrun. simpl.
  repeat split; try done.
  intros k Hk. apply Hframe. intros n _. apply Hk.
Qed.

Lemma nth_id_length n : String.length (nth_id n) = (n + 3)%nat.
Proof. induction n as [|n IH]; simpl; [done|]. by rewrite IH. Qed.

Lemma nth_id_injective n m : nth_id n = nth_id m -> n = m.
Proof.
  intros H. apply (f_equal String.length) in H.
  rewrite !nth_id_length in H. lia.
Qed.

Lemma Forall2_one {A B} (R : A -> B -> Prop) (l : list A) (y : B) :
  Forall2 R l [y] -> exists x, l = [x] /\ R x y.
Proof.
  intros H. inversion H as [|x ? l' ? Hx Hrest]; subst.
  inversion Hrest; subst. by exists x.
Qed.

Lemma sample_differences_qualify :
  List.filter (qualifies default_config)
    (CVIntegrationService.differences
       (CVIntegrationService.compareImages
          (DamageService.cw_comparison sample_compare_world)))
  = [sample_crack].
Proof. reflexivity. Qed.

Lemma sample_crack_storable :
  Forall (fun diff =>
            storable_labels (DamageService.cw_cost sample_compare_world diff)
              (CVIntegrationService.diff_type diff)
              (CVIntegrationService.diff_severity diff))
    (List.filter (qualifies default_config)
       (CVIntegrationService.differences
          (CVIntegrationService.compareImages
             (DamageService.cw_comparison sample_compare_world)))).
Proof.
  rewrite sample_differences_qualify. constructor; [|constructor].
  by repeat split.
Qed.

(** Scenario B: of a difference at 0.9 and one at 0.6, with the default
    threshold of 0.75, exactly the first is stored, with its labels and
    box. *)
Lemma compareBeforeAfter_one_per_difference_witness :
  exists d db',
    DamageService.compareBeforeAfter default_config DamageService.new
      sample_compare_world sample_detect_params completed_db
    = (Returned [d], db')
    /\ records_difference sample_detect_params
         {| s3_url := "https://bucket/before.jpg"; s3_key := "b" |}
         {| s3_url := "https://bucket/after.jpg"; s3_key := "a" |}
         d sample_crack
    /\ damages db' !! dmg_id d = Some d.
Proof.
  destruct (compareBeforeAfter_one_per_difference default_config
              DamageService.new sample_compare_world sample_detect_params
              completed_db _ _ eq_refl eq_refl
              ltac:(vm_compute; eexists; reflexivity)
              sample_crack_storable
              nth_id_injective (fun n => lookup_empty _))
    as (created & db' & Hrun & Hall & Hstored & _).
  rewrite sample_differences_qualify in Hall.
  destruct (Forall2_one _ _ _ Hall) as (d & Hcreated & Hd).
  exists d, db'. rewrite Hcreated in Hrun, Hstored.
  split; [exact Hrun|]. split; [exact Hd|]. apply Hstored. by left.
Defined.

(** X13: when no difference reaches the threshold, in particular when the
    vision service is down or answers without success, [compareBeforeAfter]
    returns the empty list and leaves the database exactly as it was: the
    outage is not reported to the caller. *)
Theorem compareBeforeAfter_nothing_qualifies
    (cfg : Config) (svc : DamageService.t) (w : DamageService.CompareWorld)
    (params : DamageService.DetectParams) (db : Db)
    (b a : S3UploadResult)
    (Hbefore : DamageService.cw_before w = Returned b)
    (Hafter : DamageService.cw_after w = Returned a)
    (Hnone : List.filter (qualifies cfg)
               (CVIntegrationService.differences
                  (CVIntegrationService.compareImages
                     (DamageService.cw_comparison w))) = []) :
  DamageService.compareBeforeAfter cfg svc w params db = (Returned [], db).
Proof.
  unfold DamageService.compareBeforeAfter.
  rewrite run_lift_bind. unfold DamageService.upload_both.
  rewrite Hbefore, Hafter.
  revert Hnone.
  generalize (CVIntegrationService.differences
                (CVIntegrationService.compareImages
                   (DamageService.cw_comparison w))).
  intros diffs. induction diffs as [|diff diffs IH]; [done|].
  cbn [List.filter DamageService.compare_loop]. rewrite qualifies_guard.
  destruct (qualifies cfg diff); [discriminate|]. exact IH.
Qed.

Lemma compareBeforeAfter_nothing_qualifies_witness :
  DamageService.compareBeforeAfter default_config DamageService.new
    {| DamageService.cw_before := DamageService.cw_before sample_compare_world;
       DamageService.cw_after := DamageService.cw_after sample_compare_world;
       DamageService.cw_comparison := Thrown "ECONNREFUSED";
       DamageService.cw_cost := fun _ => Thrown "ECONNREFUSED";
       DamageService.cw_newId := nth_id |}
    sample_detect_params vendor_db
  = (Returned [], vendor_db).
Proof.
  apply (compareBeforeAfter_nothing_qualifies default_config DamageService.new
           _ sample_detect_params vendor_db
           {| s3_url := "https://bucket/before.jpg"; s3_key := "b" |}
           {| s3_url := "https://bucket/after.jpg"; s3_key := "a" |});
    reflexivity.
Defined.

(** ** Photos of a damage *)

Lemma snd_updateDamage_stored svc id params db d :
  damages db !! id = Some d ->
  snd (DamageService.updateDamage svc id params db)
  = with_damages (<[id := DamageService.apply_update params d]> (damages db)) db.
Proof.
  intros Hd. unfold DamageService.updateDamage. rewrite run_bind.
  unfold Prisma.update. rewrite Hd. apply snd_publish_then.
Qed.

(** X14: [DamageService.addPhoto] looks the damage up before uploading: for
    an unknown identifier it throws "Damage <id> not found" whatever the
    upload would have answered; for a stored damage a failed upload leaves
    the database as it was, and a successful one appends the URL after the
    photos already there without touching the status. *)
Theorem damage_addPhoto_appends
    (svc : DamageService.t) (upload : outcome S3UploadResult) (id : string)
    (db : Db) :
  (damages db !! id = None ->
   DamageService.addPhoto svc upload id db
   = (Thrown ("Damage " +:+ id +:+ " not found"), db))
  /\ (forall d msg, damages db !! id = Some d -> upload = Thrown msg ->
        DamageService.addPhoto svc upload id db = (Thrown msg, db))
  /\ (forall d u, damages db !! id = Some d -> upload = Returned u ->
        exists d',
          damages (snd (DamageService.addPhoto svc upload id db)) !! id
          = Some d'
          /\ dmg_photos d' = dmg_photos d ++ [s3_url u]
          /\ dmg_status d' = dmg_status d
          /\ dmg_actualCost d' = dmg_actualCost d).
Proof.
  unfold DamageService.addPhoto, DamageService.getDamage.
  split; [|split].
  - intros Hnone. rewrite run_bind. unfold Prisma.findUnique. by rewrite Hnone.
  - intros d msg Hd ->. rewrite run_bind. unfold Prisma.findUnique.
    rewrite Hd. by rewrite run_lift_bind.
  - intros d u Hd ->. rewrite run_bind. unfold Prisma.findUnique.
    rewrite Hd, run_lift_bind.
    rewrite (snd_updateDamage_stored _ _ _ _ d Hd). simpl.
    rewrite lookup_insert_eq. by eexists.
Qed.

Lemma damage_addPhoto_appends_witness :
  exists d',
    damages (snd (DamageService.addPhoto DamageService.new
                    (Returned sample_upload) "dmg-1" intake_db)) !! "dmg-1"
    = Some d'
    /\ dmg_photos d' = ["https://bucket/photo.jpg"].
Proof.
  destruct (proj2 (proj2 (damage_addPhoto_appends DamageService.new
                            (Returned sample_upload) "dmg-1" intake_db))
              sample_damage sample_upload eq_refl eq_refl)
    as (d' & Hd & Hphotos & _).
  exists d'. split; [exact Hd | exact Hphotos].
Defined.

(** ** Creating, verifying and cancelling work orders *)

(** Telling the vendor, when there is one, never changes the database. *)
Lemma snd_notify_then {A} (vendorId : option string)
    (notification : outcome unit) (a : A) (db : Db) :
  snd ((match vendorId with
        | Some _ => WorkOrderService.notify notification
        | None => mret tt
        end ≫= fun _ => mret a) db) = db.
Proof.
  rewrite run_bind. destruct vendorId; [|done].
  unfold WorkOrderService.notify, swallow, lift. by destruct notification.
Qed.

(** X15: a work order created under a fresh identifier, for a stored damage
    and a stored vendor where it names them, is stored ASSIGNED with
    [assignedAt] set to the time of the call when a vendor is given, and
    PENDING without [assignedAt] otherwise; the linked damage becomes
    REPAIR_SCHEDULED with its [actualCost] untouched.  Both writes precede
    the event, so they happen whether or not the event can be published. *)
Theorem createWorkOrder_assigns_and_schedules
    (svc : WorkOrderService.t) (now : Z) (newId : string)
    (notification : outcome unit)
    (params : WorkOrderService.CreateWorkOrderParams) (db : Db)
    (Hfresh : workOrders db !! newId = None)
    (Hdamage : forall did,
        WorkOrderService.cw_damageId params = Some did ->
        is_Some (damages db !! did))
    (Hvendor : forall vid,
        WorkOrderService.cw_vendorId params = Some vid ->
        is_Some (vendors db !! vid)) :
  let db' := snd (WorkOrderService.createWorkOrder svc now newId notification
                    params db) in
  exists wo,
    workOrders db' !! newId = Some wo
    /\ wo_damageId wo = WorkOrderService.cw_damageId params
    /\ wo_vendorId wo = WorkOrderService.cw_vendorId params
    /\ (is_Some (WorkOrderService.truthy_id (WorkOrderService.cw_vendorId params))
        -> wo_status wo = ASSIGNED /\ wo_assignedAt wo = Some now)
    /\ (WorkOrderService.truthy_id (WorkOrderService.cw_vendorId params) = None
        -> wo_status wo = PENDING /\ wo_assignedAt wo = None)
    /\ (forall did d,
          WorkOrderService.truthy_id (WorkOrderService.cw_damageId params)
          = Some did ->
          damages db !! did = Some d ->
          exists d', damages db' !! did = Some d'
                     /\ dmg_status d' = REPAIR_SCHEDULED
                     /\ dmg_actualCost d' = dmg_actualCost d).
Proof.
  intros db'. subst db'.
  assert (Hlink : forall did,
             WorkOrderService.truthy_id (WorkOrderService.cw_damageId params)
             = Some did -> is_Some (damages db !! did)).
  { intros did Hdid. apply Hdamage.
    destruct (WorkOrderService.cw_damageId params) as [x|]; [|done].
    simpl in Hdid. by destruct (String.eqb x ""). }
  unfold WorkOrderService.createWorkOrder.
  rewrite run_bind. unfold Prisma.create. rewrite Hfresh.
  set (row := {| wo_id := newId |}).
  set (db1 := with_workOrders (<[newId := row]> (workOrders db)) db).
  rewrite run_bind, (cascade_run REPAIR_SCHEDULED None _ db1) by exact Hlink.
  set (db2 := cascaded _ _ _ db1).
  assert (Hrest : forall (k : M WorkOrder),
             (forall d, snd (k d) = d) ->
             snd ((lift (RabbitMQ.publishEvent (WorkOrderService.rabbitMQ svc)
                           {| eventType := "created";
                              entityType := "work_order";
                              entityId := wo_id row |}) ≫= fun _ => k) db2)
             = db2).
  { intros k Hk. rewrite run_lift_bind.
    destruct (RabbitMQ.publishEvent _ _); [apply Hk|done]. }
  rewrite Hrest.
  2:{ intros d. apply snd_notify_then. }
  exists row. split.
  { subst db2. rewrite workOrders_cascaded. subst db1. simpl.
    apply lookup_insert_eq. }
  split; [done|]. split; [done|]. split; [|split].
  - intros [v Hv]. subst row. simpl. by rewrite Hv.
  - intros Hv. subst row. simpl. by rewrite Hv.
  - intros did d Hdid Hd. subst db2. unfold cascaded. rewrite Hdid.
    subst db1. simpl. rewrite Hd. simpl. rewrite lookup_insert_eq.
    by eexists.
Qed.

Lemma createWorkOrder_assigns_and_schedules_witness :
  exists wo d',
    workOrders (snd (WorkOrderService.createWorkOrder WorkOrderService.new 7000
                       "wo-9" (Returned tt) (assigned_params "vendor-1")
                       intake_db)) !! "wo-9" = Some wo
    /\ wo_status wo = ASSIGNED
    /\ damages (snd (WorkOrderService.createWorkOrder WorkOrderService.new 7000
                       "wo-9" (Returned tt) (assigned_params "vendor-1")
                       intake_db)) !! "dmg-1" = Some d'
    /\ dmg_status d' = REPAIR_SCHEDULED.
Proof.
  assert (Hdamage : forall did,
             WorkOrderService.cw_damageId (assigned_params "vendor-1")
             = Some did -> is_Some (damages intake_db !! did)).
  { intros did Hdid. injection Hdid as <-. vm_compute. eexists. reflexivity. }
  assert (Hvendor : forall vid,
             WorkOrderService.cw_vendorId (assigned_params "vendor-1")
             = Some vid -> is_Some (vendors intake_db !! vid)).
  { intros vid Hvid. injection Hvid as <-. vm_compute. eexists. reflexivity. }
  destruct (createWorkOrder_assigns_and_schedules WorkOrderService.new 7000
              "wo-9" (Returned tt) (assigned_params "vendor-1") intake_db
              eq_refl Hdamage Hvendor)
    as (wo & Hwo & _ & _ & Hassigned & _ & Hrepair).
  destruct (Hrepair "dmg-1" sample_damage eq_refl eq_refl)
    as (d' & Hd' & Hst & _).
  exists wo, d'. split; [exact Hwo|]. split.
  - apply Hassigned. vm_compute. eexists. reflexivity.
  - split; [exact Hd' | exact Hst].
Defined.

(** X16: a verification whose event is published leaves the work order
    VERIFIED with the verifier and the two ratings recorded, and a linked
    stored damage VERIFIED with its [actualCost] untouched. *)
Theorem verifyWorkOrder_verifies_damage
    (svc : WorkOrderService.t) (now : Z) (id verifiedBy : string)
    (qualityRating vendorRating : Q) (db : Db) (wo : WorkOrder)
    (damageId : string) (d : Damage)
    (Hpub : can_publish (WorkOrderService.rabbitMQ svc))
    (Hwo : workOrders db !! id = Some wo)
    (Hlink : WorkOrderService.truthy_id (wo_damageId wo) = Some damageId)
    (Hdamage : damages db !! damageId = Some d) :
  let run := WorkOrderService.verifyWorkOrder svc now id verifiedBy
               qualityRating vendorRating db in
  exists wo' d',
    fst run = Returned wo'
    /\ workOrders (snd run) !! id = Some wo'
    /\ damages (snd run) !! damageId = Some d'
    /\ wo_status wo' = VERIFIED
    /\ wo_verifiedAt wo' = Some now
    /\ wo_verifiedBy wo' = Some verifiedBy
    /\ wo_vendorRating wo' = Some vendorRating
    /\ dmg_status d' = D_VERIFIED
    /\ dmg_actualCost d' = dmg_actualCost d.
Proof.
  intros run. subst run. unfold WorkOrderService.verifyWorkOrder.
  rewrite run_bind, (updateWorkOrder_run _ _ _ _ wo Hpub Hwo).
  set (wo' := WorkOrderService.apply_update _ wo).
  set (db1 := with_workOrders _ db).
  assert (Hres : forall did,
             WorkOrderService.truthy_id (wo_damageId wo') = Some did ->
             is_Some (damages db1 !! did)).
  { intros did. change (wo_damageId wo') with (wo_damageId wo).
    rewrite Hlink. intros [= <-]. simpl. eauto. }
  rewrite run_bind, (cascade_run _ _ _ _ Hres).
  set (db2 := cascaded _ _ _ db1).
  assert (Hstep : exists db3,
             match WorkOrderService.truthy_id (wo_vendorId wo') with
             | Some vendorId =>
                 WorkOrderService.updateVendorRating vendorId vendorRating
             | None => mret tt
             end db2 = (Returned tt, db3)
             /\ damages db3 = damages db2 /\ workOrders db3 = workOrders db2).
  { destruct (WorkOrderService.truthy_id (wo_vendorId wo')) as [vid|];
      [|by exists db2].
    destruct (vendors db2 !! vid) as [vendor|] eqn:Hv.
    - eexists. split; [exact (updateVendorRating_run _ _ _ _ Hv)|]. by split.
    - exists db2. unfold WorkOrderService.updateVendorRating.
      rewrite run_bind. unfold Prisma.findUnique. by rewrite Hv. }
  destruct Hstep as (db3 & Hrun & Hdamages & Horders).
  rewrite run_bind, Hrun. simpl. rewrite Horders, Hdamages. subst db2.
  rewrite workOrders_cascaded. unfold cascaded.
  change (wo_damageId wo') with (wo_damageId wo). rewrite Hlink.
  subst db1. simpl. rewrite Hdamage. simpl. rewrite !lookup_insert_eq.
  eexists _, _. by repeat split.
Qed.

Lemma verifyWorkOrder_verifies_damage_witness :
  exists d',
    damages (snd (WorkOrderService.verifyWorkOrder connected_orders 9000 "wo-3"
                    "user-1" (5 # 1) (4 # 1) linked_db)) !! "dmg-1" = Some d'
    /\ dmg_status d' = D_VERIFIED.
Proof.
  destruct (verifyWorkOrder_verifies_damage connected_orders 9000 "wo-3"
              "user-1" (5 # 1) (4 # 1) linked_db _ "dmg-1" sample_damage
              eq_refl eq_refl eq_refl eq_refl)
    as (wo' & d' & _ & _ & Hd & _ & _ & _ & _ & Hst & _).
  exists d'. split; [exact Hd | exact Hst].
Defined.

(** X17: a cancellation whose event is published sets the work order to
    CANCELLED and raises the assigned stored vendor's [cancelledJobs] by 1,
    leaving [totalJobs], [completedJobs], the averages and the rating as
    they were; the damage table is not touched, so a linked damage keeps the
    status the work order gave it. *)
Theorem cancelWorkOrder_counts_cancellation
    (svc : WorkOrderService.t) (id : string) (reason : option string) (db : Db)
    (wo : WorkOrder) (vendorId : string) (vendor : Vendor)
    (Hpub : can_publish (WorkOrderService.rabbitMQ svc))
    (Hwo : workOrders db !! id = Some wo)
    (Hassigned : WorkOrderService.truthy_id (wo_vendorId wo) = Some vendorId)
    (Hvendor : vendors db !! vendorId = Some vendor) :
  let run := WorkOrderService.cancelWorkOrder svc id reason db in
  exists wo' vendor',
    fst run = Returned wo'
    /\ workOrders (snd run) !! id = Some wo'
    /\ wo_status wo' = CANCELLED
    /\ vendors (snd run) !! vendorId = Some vendor'
    /\ v_cancelledJobs vendor' = v_cancelledJobs vendor + 1
    /\ v_totalJobs vendor' = v_totalJobs vendor
    /\ v_completedJobs vendor' = v_completedJobs vendor
    /\ v_avgCompletionTime vendor' = v_avgCompletionTime vendor
    /\ v_rating vendor' = v_rating vendor
    /\ damages (snd run) = damages db.
Proof.
  intros run. subst run. unfold WorkOrderService.cancelWorkOrder.
  rewrite run_bind, (updateWorkOrder_run _ _ _ _ wo Hpub Hwo).
  set (wo' := WorkOrderService.apply_update _ wo).
  change (wo_vendorId wo') with (wo_vendorId wo). rewrite Hassigned.
  rewrite !run_bind. unfold Prisma.update. simpl. rewrite Hvendor. simpl.
  rewrite !lookup_insert_eq. eexists _, _. by repeat split.
Qed.

Lemma cancelWorkOrder_counts_cancellation_witness :
  exists vendor',
    vendors (snd (WorkOrderService.cancelWorkOrder connected_orders "wo-3"
                    (Some "tenant withdrew") linked_db)) !! "vendor-1"
    = Some vendor'
    /\ v_cancelledJobs vendor' = 1
    /\ damages (snd (WorkOrderService.cancelWorkOrder connected_orders "wo-3"
                       (Some "tenant withdrew") linked_db))
       = damages linked_db.
Proof.
  destruct (cancelWorkOrder_counts_cancellation connected_orders "wo-3"
              (Some "tenant withdrew") linked_db _ "vendor-1" sample_vendor
              eq_refl eq_refl eq_refl eq_refl)
    as (wo' & vendor' & _ & _ & _ & Hv & Hc & _ & _ & _ & _ & Hd).
  exists vendor'. split; [exact Hv|]. split; [exact Hc | exact Hd].
Defined.

(** ** Arithmetic of the running rating and averages *)

Lemma inject_Z_pred (c : Z) : (inject_Z (c - 1) == inject_Z c - 1)%Q.
Proof.
  unfold Z.sub. rewrite inject_Z_plus, inject_Z_opp. reflexivity.
Qed.

Lemma incremental_rating_bounds (old vr lo hi : Q) (c : Z) :
  1 <= c ->
  (lo <= old)%Q -> (old <= hi)%Q -> (lo <= vr)%Q -> (vr <= hi)%Q ->
  (lo <= incremental_rating old c vr)%Q
  /\ (incremental_rating old c vr <= hi)%Q.
Proof.
  intros Hc Hlo Hhi Hvlo Hvhi. unfold incremental_rating.
  assert (HC : (1 <= inject_Z c)%Q).
  { change 1%Q with (inject_Z 1). by rewrite <- Zle_Qle. }
  assert (Hpos : (0 < inject_Z c)%Q) by lra.
  split.
  - apply Qle_shift_div_l; [exact Hpos|]. rewrite inject_Z_pred. nra.
  - apply Qle_shift_div_r; [exact Hpos|]. rewrite inject_Z_pred. nra.
Qed.

(** X18: [updateVendorRating] weighs the old rating by
    [(completedJobs - 1) / completedJobs]: for a stored vendor with exactly
    one completed job the new rating is the submitted [vendorRating],
    whatever rating the vendor had (from reviews or otherwise) and whatever
    the submitted value is; no range check is made. *)
Theorem first_verification_overwrites_rating
    (vendorId : string) (vendor : Vendor) (vendorRating : Q) (db : Db)
    (Hvendor : vendors db !! vendorId = Some vendor)
    (Hone : v_completedJobs vendor = 1) :
  exists vendor' rating,
    vendors (snd (WorkOrderService.updateVendorRating vendorId vendorRating db))
      !! vendorId = Some vendor'
    /\ v_rating vendor' = Some rating
    /\ (rating == vendorRating)%Q
    /\ v_completedJobs vendor' = 1
    /\ v_qualityScore vendor' = v_qualityScore vendor.
Proof.
  rewrite (updateVendorRating_run _ _ _ _ Hvendor). simpl.
  rewrite lookup_insert_eq. eexists _, _. split; [reflexivity|].
  split; [reflexivity|]. split; [|by simpl].
  rewrite newAvgRating_formula by lia. unfold incremental_rating.
  rewrite Hone. change (inject_Z (1 - 1)) with 0%Q.
  rewrite Qinject_1_r. lra.
Qed.

Lemma first_verification_overwrites_rating_witness :
  exists vendor' rating,
    vendors (snd (WorkOrderService.updateVendorRating "vendor-1" (9 # 1)
                    vendor_db)) !! "vendor-1" = Some vendor'
    /\ v_rating vendor' = Some rating
    /\ (rating == 9 # 1)%Q.
Proof.
  destruct (first_verification_overwrites_rating "vendor-1" sample_vendor
              (9 # 1) vendor_db eq_refl eq_refl)
    as (vendor' & rating & Hv & Hr & Heq & _).
  exists vendor', rating. split; [exact Hv|]. split; [exact Hr | exact Heq].
Defined.

(** X19: for a stored vendor with at least one completed job whose rating lies
    between 1 and 5, a verification with a [vendorRating] between 1 and 5
    leaves the rating between 1 and 5 (it lies between the old rating and
    the submitted one). *)
Theorem updateVendorRating_stays_in_range
    (vendorId : string) (vendor : Vendor) (old vendorRating : Q) (db : Db)
    (Hvendor : vendors db !! vendorId = Some vendor)
    (Hrating : v_rating vendor = Some old)
    (Hjobs : 1 <= v_completedJobs vendor)
    (Hold : valid_rating old)
    (Hnew : valid_rating vendorRating) :
  exists vendor' rating,
    vendors (snd (WorkOrderService.updateVendorRating vendorId vendorRating db))
      !! vendorId = Some vendor'
    /\ v_rating vendor' = Some rating
    /\ valid_rating rating.
Proof.
  rewrite (updateVendorRating_run _ _ _ _ Hvendor). simpl.
  rewrite lookup_insert_eq. eexists _, _. split; [reflexivity|].
  split; [reflexivity|].
  rewrite newAvgRating_formula by lia.
  unfold WorkOrderService.currentRating. rewrite Hrating. simpl.
  destruct Hold, Hnew. by apply incremental_rating_bounds.
Qed.

Lemma updateVendorRating_stays_in_range_witness :
  exists vendor' rating,
    vendors (snd (WorkOrderService.updateVendorRating "vendor-1" (2 # 1)
                    vendor_db)) !! "vendor-1" = Some vendor'
    /\ v_rating vendor' = Some rating
    /\ valid_rating rating.
Proof.
  apply (updateVendorRating_stays_in_range "vendor-1" sample_vendor (4 # 1)
           (2 # 1) vendor_db eq_refl eq_refl).
  - simpl. lia.
  - split; vm_compute; discriminate.
  - split; vm_compute; discriminate.
Defined.

Lemma Math_round_resp_le (x y : Q) :
  (x <= y)%Q -> JS.Math_round x <= JS.Math_round y.
Proof.
  intros H. unfold JS.Math_round. apply Qfloor_resp_le. lra.
Qed.

Lemma incremental_average_bounds (avg c sample lo hi : Z) :
  0 <= c -> lo <= avg <= hi -> lo <= sample <= hi ->
  (inject_Z lo <= incremental_average avg c sample)%Q
  /\ (incremental_average avg c sample <= inject_Z hi)%Q.
Proof.
  intros Hc [Hal Hah] [Hsl Hsh]. unfold incremental_average.
  assert (Hpos : (0 < inject_Z (c + 1))%Q).
  { change 0%Q with (inject_Z 0). rewrite <- Zlt_Qlt. lia. }
  split.
  - apply Qle_shift_div_l; [exact Hpos|].
    rewrite <- !inject_Z_mult, <- inject_Z_plus, <- Zle_Qle. nia.
  - apply Qle_shift_div_r; [exact Hpos|].
    rewrite <- !inject_Z_mult, <- inject_Z_plus, <- Zle_Qle. nia.
Qed.

(** X20: the average that [updateVendorStats] stores never leaves the range
    spanned by the old average and the new sample: with a non-negative job
    count, merging a sample into a stored non-zero average gives a value
    between the smaller and the larger of the two, and without a stored
    average it gives the sample. *)
Theorem merged_average_between (old : option Z) (completedJobs sample : Z)
    (Hjobs : 0 <= completedJobs) :
  let merged := WorkOrderService.merged_average old completedJobs sample in
  match WorkOrderService.truthy_Z old with
  | Some avg => Z.min avg sample <= merged <= Z.max avg sample
  | None => merged = sample
  end.
Proof.
  intros merged. subst merged. unfold WorkOrderService.merged_average.
  destruct (WorkOrderService.truthy_Z old) as [avg|].
  - destruct (incremental_average_bounds avg completedJobs sample
                (Z.min avg sample) (Z.max avg sample)) as [Hlo Hhi];
      [lia|lia|lia|].
    unfold incremental_average in *. split.
    + rewrite <- (Math_round_integer (Z.min avg sample)).
      by apply Math_round_resp_le.
    + rewrite <- (Math_round_integer (Z.max avg sample)).
      by apply Math_round_resp_le.
  - apply Math_round_integer.
Qed.

Lemma merged_average_between_witness :
  2 <= WorkOrderService.merged_average (Some 2) 1 5 <= 5.
Proof.
  exact (merged_average_between (Some 2) 1 5 ltac:(lia)).
Defined.

(** [ceil] brackets the quotient: [n = ceil((later - earlier) / unit)] is
    the one integer with [(n - 1) * unit < later - earlier <= n * unit]. *)
Lemma ceil_between_bracket (unit later earlier : Z) (Hunit : 0 < unit) :
  let n := ceil_between unit later earlier in
  (n - 1) * unit < later - earlier <= n * unit.
Proof.
  intros n. subst n. unfold ceil_between.
  set (x := (inject_Z (later - earlier) / inject_Z unit)%Q).
  assert (Hpos : (0 < inject_Z unit)%Q).
  { change 0%Q with (inject_Z 0). by rewrite <- Zlt_Qlt. }
  assert (Hx : (x * inject_Z unit == inject_Z (later - earlier))%Q).
  { subst x. field. lra. }
  pose proof (Qle_ceiling x) as Hup. pose proof (Qceiling_lt x) as Hlow.
  split.
  - rewrite Zlt_Qlt, inject_Z_mult, <- Hx.
    apply Qmult_lt_compat_r; [exact Hpos|exact Hlow].
  - rewrite Zle_Qle, inject_Z_mult, <- Hx.
    apply Qmult_le_compat_r; [exact Hup|lra].
Qed.


(** X21: a work order that is started at [t0] and then completed at a later
    instant [t1] (events published, vendor assigned and stored, damage link
    resolving if present) is measured in started days: the vendor's
    completion average is merged with the one integer [days >= 1] such that
    [(days - 1) * 86400000 < t1 - t0 <= days * 86400000], and the vendor's
    total and completed job counters each grow by one.  If the order was
    assigned at [ta < t0], the response average is merged likewise with the
    started hours between [ta] and [t0]; without an assignment date it stays
    as it was. *)
Theorem started_job_is_measured_in_days
    (svc : WorkOrderService.t) (t0 t1 : Z) (notification : outcome unit)
    (id : string) (params : WorkOrderService.CompleteParams) (db : Db)
    (wo : WorkOrder) (vendorId : string) (vendor : Vendor)
    (Hpub : can_publish (WorkOrderService.rabbitMQ svc))
    (Hwo : workOrders db !! id = Some wo)
    (Hlink : link_resolves wo db)
    (Hassigned : WorkOrderService.truthy_id (wo_vendorId wo) = Some vendorId)
    (Hvendor : vendors db !! vendorId = Some vendor)
    (Hlater : t0 < t1) :
  let db1 := snd (WorkOrderService.startWorkOrder svc t0 id db) in
  let db2 :=
    snd (WorkOrderService.completeWorkOrder svc t1 notification id params db1)
  in
  exists vendor' days,
    vendors db2 !! vendorId = Some vendor'
    /\ 1 <= days
    /\ (days - 1) * WorkOrderService.ms_per_day < t1 - t0
       <= days * WorkOrderService.ms_per_day
    /\ v_avgCompletionTime vendor'
       = Some (WorkOrderService.merged_average (v_avgCompletionTime vendor)
                 (v_completedJobs vendor) days)
    /\ v_completedJobs vendor' = v_completedJobs vendor + 1
    /\ v_totalJobs vendor' = v_totalJobs vendor + 1
    /\ (forall ta, wo_assignedAt wo = Some ta -> ta < t0 ->
        exists hours,
          1 <= hours
          /\ (hours - 1) * WorkOrderService.ms_per_hour < t0 - ta
             <= hours * WorkOrderService.ms_per_hour
          /\ v_avgResponseTime vendor'
             = Some (WorkOrderService.merged_average (v_avgResponseTime vendor)
                       (v_completedJobs vendor) hours))
    /\ (wo_assignedAt wo = None ->
        v_avgResponseTime vendor' = v_avgResponseTime vendor).
Proof.
  intros db1 db2. subst db2 db1. unfold WorkOrderService.startWorkOrder.
  rewrite (updateWorkOrder_run _ _ _ _ wo Hpub Hwo). simpl snd.
  set (wo1 := WorkOrderService.apply_update _ wo).
  set (db1 := with_workOrders _ db).
  assert (Hwo1 : workOrders db1 !! id = Some wo1).
  { subst db1. simpl. by rewrite lookup_insert_eq. }
  rewrite (completeWorkOrder_reaches_stats svc t1 notification id params db1
             wo1 vendorId vendor Hpub Hwo1 Hlink Hassigned Hvendor).
  pose proof (ceil_between_bracket WorkOrderService.ms_per_day t1 t0
                ltac:(done)) as Hbr.
  simpl in Hbr.
  set (days := ceil_between WorkOrderService.ms_per_day t1 t0) in *.
  assert (Hdays : 1 <= days).
  { assert (0 < WorkOrderService.ms_per_day) by done. nia. }
  eexists _, days. split; [reflexivity|]. split; [exact Hdays|].
  split; [exact Hbr|]. split; [|split; [done|split; [done|split]]].
  - simpl.
    change (JS.Math_ceil
              (JS.ofZ (t1 - t0) / JS.ofZ WorkOrderService.ms_per_day))
      with days.
    destruct (Z.eqb_spec days 0) as [Hz|_]; [lia|reflexivity].
  - intros ta Hta Hlt.
    pose proof (ceil_between_bracket WorkOrderService.ms_per_hour t0 ta
                  ltac:(done)) as Hbh.
    simpl in Hbh.
    set (hours := ceil_between WorkOrderService.ms_per_hour t0 ta) in *.
    assert (Hhours : 1 <= hours).
    { assert (0 < WorkOrderService.ms_per_hour) by done. nia. }
    exists hours. split; [exact Hhours|]. split; [exact Hbh|].
    simpl. rewrite Hta. simpl.
    change (JS.Math_ceil
              (JS.ofZ (t0 - ta) / JS.ofZ WorkOrderService.ms_per_hour))
      with hours.
    destruct (Z.eqb_spec hours 0) as [Hz|_]; [lia|reflexivity].
  - intros Hnone. simpl. by rewrite Hnone.
Qed.

Lemma started_job_is_measured_in_days_witness :
  exists vendor' days,
    vendors
      (snd (WorkOrderService.completeWorkOrder connected_orders four_days
              (Returned tt) "wo-1" no_costs
              (snd (WorkOrderService.startWorkOrder connected_orders 0 "wo-1"
                      rating_db)))) !! "vendor-2" = Some vendor'
    /\ 1 <= days
    /\ (days - 1) * WorkOrderService.ms_per_day < four_days - 0
       <= days * WorkOrderService.ms_per_day
    /\ v_avgCompletionTime vendor'
       = Some (WorkOrderService.merged_average None 0 days)
    /\ v_completedJobs vendor' = 1
    /\ v_totalJobs vendor' = 1.
Proof.
  destruct (started_job_is_measured_in_days connected_orders 0 four_days
              (Returned tt) "wo-1" no_costs rating_db
              (sample_order "wo-1" None (Some "vendor-2") None None None)
              "vendor-2" fresh_vendor eq_refl eq_refl
              ltac:(intros did Hdid; discriminate Hdid)
              eq_refl eq_refl eq_refl)
    as (vendor' & days & Hv & Hd & Hbr & Havg & Hc & Ht & _).
  exists vendor', days. split; [exact Hv|]. split; [exact Hd|].
  split; [exact Hbr|]. split; [exact Havg|]. split; [exact Hc | exact Ht].
Defined.

(** ** Vendor status, reviews and their pages *)

Lemma snd_updateVendor_stored svc id params db vendor :
  vendors db !! id = Some vendor ->
  snd (VendorService.updateVendor svc id params db)
  = with_vendors (<[id := VendorService.apply_update params vendor]> (vendors db))
      db.
Proof.
  intros Hv. unfold VendorService.updateVendor. rewrite run_bind.
  unfold Prisma.update. rewrite Hv. apply snd_publish_then.
Qed.

(** X22: suspending a stored vendor sets its status to SUSPENDED and, when a
    reason is given, overwrites the internal notes with it (without a reason
    the notes stay); activating it afterwards sets the status to ACTIVE
    whatever it was before the suspension and leaves the notes as the
    suspension wrote them.  Neither call touches the job counters or the
    rating, and both rows are written whether or not the event that follows
    is published. *)
Theorem suspend_then_activate
    (svc : VendorService.t) (id : string) (reason : option string) (db : Db)
    (vendor : Vendor)
    (Hvendor : vendors db !! id = Some vendor) :
  let db1 := snd (VendorService.suspendVendor svc id reason db) in
  let db2 := snd (VendorService.activateVendor svc id db1) in
  exists suspended active,
    vendors db1 !! id = Some suspended
    /\ v_status suspended = V_SUSPENDED
    /\ v_internalNotes suspended
       = match reason with
         | Some text => Some text
         | None => v_internalNotes vendor
         end
    /\ vendors db2 !! id = Some active
    /\ v_status active = V_ACTIVE
    /\ v_internalNotes active = v_internalNotes suspended
    /\ v_rating active = v_rating vendor
    /\ v_totalJobs active = v_totalJobs vendor
    /\ v_completedJobs active = v_completedJobs vendor
    /\ v_cancelledJobs active = v_cancelledJobs vendor.
Proof.
  intros db1 db2. subst db2 db1.
  unfold VendorService.suspendVendor, VendorService.activateVendor.
  rewrite (snd_updateVendor_stored _ _ _ _ _ Hvendor).
  set (v1 := VendorService.apply_update _ vendor).
  set (db1 := with_vendors _ db).
  assert (H1 : vendors db1 !! id = Some v1).
  { subst db1. simpl. by rewrite lookup_insert_eq. }
  rewrite (snd_updateVendor_stored _ _ _ _ _ H1).
  exists v1, (VendorService.apply_update
                {| VendorService.uv_status := Some V_ACTIVE;
                   VendorService.uv_internalNotes := None |} v1).
  split; [exact H1|]. split; [reflexivity|].
  split; [by destruct reason|].
  split; [simpl; by rewrite lookup_insert_eq|]. by repeat split.
Qed.

Lemma suspend_then_activate_witness :
  exists suspended active,
    vendors (snd (VendorService.suspendVendor VendorService.new "vendor-1"
                    (Some "no insurance") vendor_db)) !! "vendor-1"
    = Some suspended
    /\ v_status suspended = V_SUSPENDED
    /\ vendors
         (snd (VendorService.activateVendor VendorService.new "vendor-1"
                 (snd (VendorService.suspendVendor VendorService.new "vendor-1"
                         (Some "no insurance") vendor_db)))) !! "vendor-1"
       = Some active
    /\ v_status active = V_ACTIVE
    /\ v_internalNotes active = Some "no insurance".
Proof.
  destruct (suspend_then_activate VendorService.new "vendor-1"
              (Some "no insurance") vendor_db sample_vendor eq_refl)
    as (suspended & active & H1 & H2 & H3 & H4 & H5 & H6 & _).
  exists suspended, active. split; [exact H1|]. split; [exact H2|].
  split; [exact H4|]. split; [exact H5|]. by rewrite H6, H3.
Defined.

Lemma sum_bounds (l : list Q) (lo hi : Q) :
  Forall (fun x => (lo <= x)%Q /\ (x <= hi)%Q) l ->
  (lo * inject_Z (Z.of_nat (length l)) <= fold_right Qplus 0 l)%Q
  /\ (fold_right Qplus 0 l <= hi * inject_Z (Z.of_nat (length l)))%Q.
Proof.
  induction 1 as [|x l [Hlo Hhi] _ [IHlo IHhi]].
  - simpl. change (inject_Z (Z.of_nat 0)) with 0%Q. split; lra.
  - change (length (x :: l)) with (S (length l)).
    rewrite Nat2Z.inj_succ. unfold Z.succ. rewrite inject_Z_plus.
    change (inject_Z 1) with 1%Q. simpl fold_right. split; lra.
Qed.

Lemma meanQ_bounds (l : list Q) (lo hi : Q) :
  l <> [] ->
  Forall (fun x => (lo <= x)%Q /\ (x <= hi)%Q) l ->
  (lo <= JS.meanQ l)%Q /\ (JS.meanQ l <= hi)%Q.
Proof.
  intros Hne Hall. rewrite meanQ_arithmetic_mean. unfold arithmetic_mean.
  destruct (sum_bounds l lo hi Hall) as [Hlo Hhi].
  assert (Hpos : (0 < inject_Z (Z.of_nat (length l)))%Q).
  { change 0%Q with (inject_Z 0). rewrite <- Zlt_Qlt.
    destruct l; [done|]. simpl. lia. }
  split.
  - by apply Qle_shift_div_l.
  - by apply Qle_shift_div_r.
Qed.

(** X23: reviews keep the rating in range.  If every stored review of a stored
    vendor has a rating between 1 and 5, then after one more accepted review
    the vendor's rating is between 1 and 5 again, and so is the rating of
    every stored review of that vendor. *)
Theorem addReview_rating_in_range
    (svc : VendorService.t) (vendorId : string)
    (params : VendorService.ReviewParams) (db : Db) (vendor : Vendor)
    (Hvalid : valid_rating (VendorService.r_rating params))
    (Hvendor : vendors db !! vendorId = Some vendor)
    (Hstored : Forall (fun r => valid_rating (rev_rating r))
                 (VendorService.reviews_of vendorId db)) :
  let db' := snd (VendorService.addReview svc vendorId params db) in
  (exists vendor' rating,
      vendors db' !! vendorId = Some vendor'
      /\ v_rating vendor' = Some rating
      /\ valid_rating rating)
  /\ Forall (fun r => valid_rating (rev_rating r))
       (VendorService.reviews_of vendorId db').
Proof.
  intros db'. subst db'.
  destruct (addReview_step svc vendorId params db vendor Hvalid Hvendor)
    as [Hrows Hrow].
  assert (Hall : Forall (fun r => valid_rating (rev_rating r))
                   (VendorService.reviews_of vendorId db
                    ++ [VendorService.review_row vendorId params])).
  { apply Forall_app. split; [exact Hstored|]. by constructor. }
  split; [|by rewrite Hrows].
  eexists _, _. split; [exact Hrow|]. split; [reflexivity|].
  unfold valid_rating, VendorService.avgRating. apply meanQ_bounds.
  - by destruct (VendorService.reviews_of vendorId db).
  - rewrite Forall_fmap. exact Hall.
Qed.

Lemma addReview_rating_in_range_witness :
  exists vendor' rating,
    vendors (snd (VendorService.addReview VendorService.new "vendor-1"
                    (sample_review (4 # 1) None) reviewed_db)) !! "vendor-1"
    = Some vendor'
    /\ v_rating vendor' = Some rating
    /\ valid_rating rating.
Proof.
  apply (addReview_rating_in_range VendorService.new "vendor-1"
           (sample_review (4 # 1) None) reviewed_db sample_vendor).
  - split; vm_compute; discriminate.
  - reflexivity.
  - repeat constructor; vm_compute; discriminate.
Defined.

(** X24: a review of one vendor concerns that vendor only: whatever the
    parameters and whether the call returns or throws, [addReview] leaves
    the row of every other vendor and the stored reviews of every other
    vendor as they were. *)
Theorem addReview_leaves_other_vendors
    (svc : VendorService.t) (vendorId other : string)
    (params : VendorService.ReviewParams) (db : Db)
    (Hother : other <> vendorId) :
  let db' := snd (VendorService.addReview svc vendorId params db) in
  vendors db' !! other = vendors db !! other
  /\ VendorService.reviews_of other db' = VendorService.reviews_of other db.
Proof.
  intros db'. subst db'. unfold VendorService.addReview.
  destruct (_ || _); [done|].
  rewrite run_bind. unfold VendorService.create_review.
  rewrite run_bind. unfold VendorService.recalculateVendorRating.
  rewrite run_bind. unfold VendorService.find_reviews.
  set (db1 := with_vendorReviews _ db).
  assert (Hrev : VendorService.reviews_of other db1
                 = VendorService.reviews_of other db).
  { subst db1. unfold VendorService.reviews_of. simpl.
    rewrite List.filter_app. simpl.
    destruct (String.eqb_spec vendorId other) as [->|_]; [done|].
    by rewrite app_nil_r. }
  destruct (length _ =? 0)%nat.
  - simpl. by split.
  - rewrite run_bind. unfold Prisma.update.
    destruct (vendors db1 !! vendorId) as [row|] eqn:E.
    + simpl. split; [by rewrite lookup_insert_ne|exact Hrev].
    + simpl. by split.
Qed.

Lemma addReview_leaves_other_vendors_witness :
  vendors (snd (VendorService.addReview VendorService.new "vendor-1"
                  (sample_review (4 # 1) None) reviewed_db)) !! "vendor-2"
  = Some fresh_vendor.
Proof.
  exact (proj1 (addReview_leaves_other_vendors VendorService.new "vendor-1"
                  "vendor-2" (sample_review (4 # 1) None) reviewed_db
                  ltac:(discriminate))).
Defined.

Lemma given_None (o : option string) :
  VendorService.given o = None <-> unspecified o.
Proof.
  unfold unspecified. destruct o as [s|]; simpl.
  - destruct (String.eqb_spec s "") as [->|Hne].
    + split; [by right|done].
    + split; [done|]. intros [H|H]; [done|congruence].
  - split; [by left|done].
Qed.

Lemma given_Some (o : option string) (s : string) :
  VendorService.given o = Some s <-> o = Some s /\ s <> "".
Proof.
  destruct o as [x|]; simpl.
  - destruct (String.eqb_spec x "") as [->|Hne].
    + split; [done|]. intros [[= <-] Hne]. done.
    + split; [intros [= ->]; by split|]. by intros [H _].
  - split; [done|]. by intros [? _].
Qed.

Lemma area_matches_serves city state a :
  VendorService.area_matches city state a = true <-> serves city state a.
Proof.
  unfold VendorService.area_matches, serves. rewrite andb_true_iff.
  assert (Hone : forall o actual,
             match VendorService.given o with
             | Some s => String.eqb actual s
             | None => true
             end = true
             <-> unspecified o \/ o = Some actual).
  { intros o actual. destruct (VendorService.given o) as [s|] eqn:E.
    - apply given_Some in E as [-> Hne]. rewrite String.eqb_eq. split.
      + intros ->. by right.
      + intros [[H|H]|H]; [done|congruence|congruence].
    - apply given_None in E. split; [by left|done]. }
  by rewrite !Hone.
Qed.

Lemma list_filter_sublist {A} (p : A -> bool) (l : list A) :
  sublist (List.filter p l) l.
Proof.
  induction l as [|x l IH]; simpl; [constructor|].
  destruct (p x); by constructor.
Qed.

(** X25: the service-area pass of [searchVendorsBySpecialty] keeps the query's
    order and never adds a vendor.  With neither city nor state given (or
    both empty) every vendor the query found is returned, also one without
    service areas; otherwise a vendor is returned exactly when one of its
    service areas lies in the given state and in the given city at once (two
    areas that match one criterion each do not count). *)
Theorem filterByServiceArea_spec {A : Type} (city state : option string)
    (found : list (A * list VendorService.ServiceArea)) :
  sublist (VendorService.filterByServiceArea city state found) found
  /\ forall vendor,
       vendor ∈ VendorService.filterByServiceArea city state found
       <-> vendor ∈ found
           /\ ((unspecified city /\ unspecified state)
               \/ exists a, a ∈ snd vendor /\ serves city state a).
Proof.
  unfold VendorService.filterByServiceArea.
  assert (Hfilter : forall vendor,
             vendor ∈ List.filter
                        (fun v => existsb (VendorService.area_matches city state)
                                    (snd v)) found
             <-> vendor ∈ found /\ exists a, a ∈ snd vendor /\ serves city state a).
  { intros vendor. rewrite list_elem_of_In, filter_In, <- list_elem_of_In.
    rewrite existsb_exists. split; intros [Hin (a & Ha & Hm)]; (split; [done|]);
      exists a.
    - rewrite list_elem_of_In. by rewrite <- area_matches_serves.
    - rewrite <- list_elem_of_In. by rewrite area_matches_serves. }
  destruct (VendorService.given city) as [c|] eqn:Ec;
    [|destruct (VendorService.given state) as [s|] eqn:Es].
  - split; [apply list_filter_sublist|]. intros vendor. rewrite Hfilter.
    apply given_Some in Ec as [-> Hne].
    split; intros [Hin H]; (split; [done|]); [by right|].
    destruct H as [[[H|H] _]|H]; [done|congruence|done].
  - split; [apply list_filter_sublist|]. intros vendor. rewrite Hfilter.
    apply given_Some in Es as [-> Hne].
    split; intros [Hin H]; (split; [done|]); [by right|].
    destruct H as [[_ [H|H]]|H]; [done|congruence|done].
  - apply given_None in Ec, Es. split; [done|]. intros vendor.
    split; [|by intros [? _]]. intros Hin. split; [done|]. by left.
Qed.

Lemma Qceiling_bracket (a unit : Z) :
  0 < unit ->
  (JS.Math_ceil (JS.ofZ a / JS.ofZ unit) - 1) * unit < a
  <= JS.Math_ceil (JS.ofZ a / JS.ofZ unit) * unit.
Proof.
  intros Hunit. pose proof (ceil_between_bracket unit a 0 Hunit) as H.
  unfold ceil_between in H. simpl in H. rewrite Z.sub_0_r in H. exact H.
Qed.

(** X26: pages of reviews.  For [page >= 1] and [limit >= 1], [getReviews]
    changes nothing and reports [total] matching reviews on
    [totalPages = ceil(total / limit)] pages, the least number of pages of
    [limit] entries that hold them all; the page holds
    [min(limit, max(0, total - (page - 1) * limit))] reviews, so it is empty
    exactly when [page > totalPages]; every review on it is one of the
    vendor's, and has at least the minimum rating when a non-zero one is
    given. *)
Theorem getReviews_page
    (vendorId : string) (page limit : Z) (minRating : option Z) (db : Db)
    (Hpage : 1 <= page) (Hlimit : 1 <= limit) :
  exists result,
    VendorService.getReviews vendorId page limit minRating db
    = (Returned result, db)
    /\ VendorService.pg_total result
       = Z.of_nat
           (length (List.filter
                      (VendorService.review_matches vendorId minRating)
                      (vendorReviews db)))
    /\ (VendorService.pg_totalPages result - 1) * limit
       < VendorService.pg_total result
       <= VendorService.pg_totalPages result * limit
    /\ Z.of_nat (length (VendorService.pg_data result))
       = Z.min limit
           (Z.max 0 (VendorService.pg_total result - (page - 1) * limit))
    /\ (VendorService.pg_data result = []
        <-> VendorService.pg_totalPages result < page)
    /\ Forall (fun r => rev_vendorId r = vendorId)
         (VendorService.pg_data result)
    /\ (forall m, minRating = Some m -> m <> 0 ->
        Forall (fun r => (inject_Z m <= rev_rating r)%Q)
          (VendorService.pg_data result)).
Proof.
  unfold VendorService.getReviews. rewrite run_bind. unfold get_db.
  eexists. split; [reflexivity|]. simpl.
  set (matching := List.filter _ (rev (vendorReviews db))).
  assert (Htotal : length matching
                   = length (List.filter
                               (VendorService.review_matches vendorId minRating)
                               (vendorReviews db))).
  { subst matching. induction (vendorReviews db) as [|r l IH]; [done|].
    simpl. rewrite List.filter_app, length_app, IH. simpl.
    destruct (VendorService.review_matches _ _ r); simpl; lia. }
  pose proof (Qceiling_bracket (Z.of_nat (length matching)) limit
                ltac:(lia)) as Hbr.
  set (pages := JS.Math_ceil _) in *.
  assert (Hskip : 0 <= (page - 1) * limit) by nia.
  set (skip := (page - 1) * limit) in *.
  assert (Hlen : Z.of_nat (length (firstn (Z.to_nat limit)
                                     (skipn (Z.to_nat skip) matching)))
                 = Z.min limit (Z.max 0 (Z.of_nat (length matching) - skip))).
  { rewrite length_take, length_drop. lia. }
  assert (Hall : Forall (fun r => VendorService.review_matches vendorId
                                    minRating r = true) matching).
  { subst matching. apply Forall_forall. intros r Hr.
    apply list_elem_of_In, filter_In in Hr as [_ Hr]. exact Hr. }
  split; [by rewrite Htotal|]. split; [exact Hbr|]. split; [exact Hlen|].
  split; [|split].
  - rewrite <- length_zero_iff_nil. split.
    + intros Hz. rewrite Hz in Hlen. subst skip. nia.
    + intros Hlt. assert (Hle : Z.of_nat (length matching) <= skip)
        by (subst skip; nia). lia.
  - apply Forall_take, Forall_drop. eapply Forall_impl; [exact Hall|].
    intros r Hr. unfold VendorService.review_matches in Hr.
    apply andb_true_iff in Hr as [Hr _]. by apply String.eqb_eq.
  - intros m -> Hm. apply Forall_take, Forall_drop.
    eapply Forall_impl; [exact Hall|].
    intros r Hr. unfold VendorService.review_matches in Hr.
    apply andb_true_iff in Hr as [_ Hr]. simpl in Hr.
    destruct (Z.eqb_spec m 0); [done|]. by apply Qle_bool_iff.
Qed.

Lemma getReviews_page_witness :
  exists result,
    VendorService.getReviews "vendor-1" 2 1 None reviewed_db
    = (Returned result, reviewed_db)
    /\ VendorService.pg_total result = 2
    /\ Z.of_nat (length (VendorService.pg_data result)) = 1.
Proof.
  destruct (getReviews_page "vendor-1" 2 1 None reviewed_db
              ltac:(lia) ltac:(lia))
    as (result & Hrun & Htotal & _ & Hlen & _).
  exists result. split; [exact Hrun|]. split; [exact Htotal|].
  rewrite Hlen, Htotal. reflexivity.
Defined.

(** ** Manual damage reports *)

(** X27: a damage reported by hand for a stored inspection under a fresh
    identifier is stored with status REPORTED and the type, severity and place given; every other
    damage row is as before.  The call returns that row exactly when the
    "created" event is published, also when the notification that follows
    fails; with the publisher the constructor builds it throws after the row
    has been written and before any notification is sent. *)
Theorem createDamage_reports
    (svc : DamageService.t) (newId : string) (notification : outcome unit)
    (params : DamageService.CreateDamageParams) (db : Db)
    (Hinspection : is_Some (inspections db
                              !! DamageService.cd_inspectionId params))
    (Hfresh : damages db !! newId = None) :
  let run := DamageService.createDamage svc newId notification params db in
  exists d,
    damages (snd run) !! newId = Some d
    /\ dmg_status d = REPORTED
    /\ dmg_damageType d = DamageService.cd_damageType params
    /\ dmg_severity d = DamageService.cd_severity params
    /\ dmg_room d = DamageService.cd_room params
    /\ (forall k, k <> newId -> damages (snd run) !! k = damages db !! k)
    /\ (can_publish (DamageService.rabbitMQ svc) -> fst run = Returned d)
    /\ (DamageService.rabbitMQ svc = RabbitMQ.new ->
        fst run = Thrown "RabbitMQ channel not initialized").
Proof.
  intros run.
  set (row := {| dmg_id := newId;
                 dmg_inspectionId := DamageService.cd_inspectionId params;
                 dmg_propertyId := DamageService.cd_propertyId params;
                 dmg_room := DamageService.cd_room params;
                 dmg_location := DamageService.cd_location params;
                 dmg_damageType := DamageService.cd_damageType params;
                 dmg_severity := DamageService.cd_severity params;
                 dmg_status := REPORTED;
                 dmg_estimatedCostManual :=
                   DamageService.cd_estimatedCostManual params;
                 dmg_estimatedCostAi := None; dmg_actualCost := None;
                 dmg_beforePhotoUrl := None; dmg_afterPhotoUrl := None;
                 dmg_photos := []; dmg_aiDetected := false;
                 dmg_aiConfidence := None; dmg_aiDamageType := None;
                 dmg_aiSeverity := None; dmg_aiBoundingBox := None;
                 dmg_aiMetadata := None |}).
  assert (Hrun : run
                 = (match RabbitMQ.publishEvent (DamageService.rabbitMQ svc)
                            {| eventType := "created"; entityType := "damage";
                               entityId := newId |} with
                    | Returned _ => Returned row
                    | Thrown e => Thrown e
                    end,
                    with_damages (<[newId := row]> (damages db)) db)).
  { subst run. unfold DamageService.createDamage.
    rewrite run_bind. unfold Prisma.create. rewrite Hfresh.
    rewrite run_lift_bind. fold row.
    destruct (RabbitMQ.publishEvent _ _) as [[]|e]; [|done].
    rewrite run_bind. unfold DamageService.sendDamageNotification, swallow,
      lift. by destruct notification. }
  rewrite Hrun. exists row. simpl.
  split; [by rewrite lookup_insert_eq|]. do 4 (split; [reflexivity|]).
  split; [|split].
  - intros k Hk. by rewrite lookup_insert_ne.
  - intros Hpub. by rewrite (publish_connected _ _ Hpub).
  - intros ->. by rewrite publish_unconnected.
Qed.

Lemma createDamage_reports_witness :
  exists d,
    damages (snd (DamageService.createDamage DamageService.new "dmg-2"
                    (Thrown "ECONNREFUSED") sample_report completed_db))
      !! "dmg-2" = Some d
    /\ dmg_status d = REPORTED
    /\ fst (DamageService.createDamage DamageService.new "dmg-2"
              (Thrown "ECONNREFUSED") sample_report completed_db)
       = Thrown "RabbitMQ channel not initialized".
Proof.
  destruct (createDamage_reports DamageService.new "dmg-2"
              (Thrown "ECONNREFUSED") sample_report completed_db
              ltac:(vm_compute; eexists; reflexivity) eq_refl)
    as (d & Hd & Hst & _ & _ & _ & _ & _ & Hthrown).
  exists d. split; [exact Hd|]. split; [exact Hst | exact (Hthrown eq_refl)].
Defined.

(** ** What the HTTP handlers answer *)

(** X28: the handler for deleting a vendor, over the service its constructor
    builds, never confirms a deletion: whatever the identifier and the
    database it answers 500.  With an open work order of the vendor the
    message is "Cannot delete vendor with active work orders" and nothing is
    changed; for a stored vendor without one the message is "RabbitMQ
    channel not initialized" and the vendor row is gone. *)
Theorem deleteVendor_endpoint_as_built (id : string) (db : Db) :
  let run := Controller.deleteVendor VendorService.new id db in
  reply_code (fst run) = 500
  /\ (has_active_order db id ->
      run = (Failed 500 "Internal Server Error"
               "Cannot delete vendor with active work orders", db))
  /\ (~ has_active_order db id -> is_Some (vendors db !! id) ->
      fst run = Failed 500 "Internal Server Error"
                  "RabbitMQ channel not initialized"
      /\ vendors (snd run) !! id = None).
Proof.
  intros run. subst run. unfold Controller.deleteVendor.
  destruct (deleteVendor_guarded VendorService.new id db) as [Hbusy Hfree].
  simpl in Hbusy, Hfree. split; [|split].
  - unfold VendorService.deleteVendor. rewrite run_bind. unfold Prisma.count.
    destruct (0 <? _); [done|]. rewrite run_bind. unfold Prisma.delete.
    destruct (vendors db !! id); [|done]. by rewrite run_lift_bind.
  - intros Hactive. by rewrite (Hbusy Hactive).
  - intros Hnone Hstored. destruct (Hfree Hnone Hstored) as [Hdb Hres].
    destruct (VendorService.deleteVendor _ _ _) as [res db'].
    simpl in Hdb, Hres. subst res db'. simpl. split; [done|].
    apply lookup_delete_eq.
Qed.

Lemma deleteVendor_endpoint_as_built_witness :
  fst (Controller.deleteVendor VendorService.new "vendor-1" vendor_db)
  = Failed 500 "Internal Server Error" "RabbitMQ channel not initialized"
  /\ vendors (snd (Controller.deleteVendor VendorService.new "vendor-1"
                     vendor_db)) !! "vendor-1" = None.
Proof.
  apply (proj2 (proj2 (deleteVendor_endpoint_as_built "vendor-1" vendor_db))).
  - intros (k & wo & Hlook & _). simpl in Hlook.
    by rewrite lookup_empty in Hlook.
  - vm_compute. eexists. reflexivity.
Defined.

(** X29: the handler for adding a review answers 201 with the stored review
    exactly when the rating lies between 1 and 5 (for a stored vendor); a
    rating outside that range is answered with 500 "Internal Server Error"
    and the message "Rating must be between 1 and 5", not with a 4xx code,
    and nothing is stored. *)
Theorem addReview_endpoint
    (svc : VendorService.t) (id : string) (params : VendorService.ReviewParams)
    (db : Db) (vendor : Vendor)
    (Hvendor : vendors db !! id = Some vendor) :
  let run := Controller.addReview svc id params db in
  (valid_rating (VendorService.r_rating params) ->
   fst run = Sent 201 (VendorService.review_row id params)
   /\ VendorService.reviews_of id (snd run)
      = VendorService.reviews_of id db ++ [VendorService.review_row id params])
  /\ (~ valid_rating (VendorService.r_rating params) ->
      run = (Failed 500 "Internal Server Error"
               "Rating must be between 1 and 5", db)).
Proof.
  intros run. subst run. unfold Controller.addReview. split.
  - intros Hvalid.
    destruct (addReview_step svc id params db vendor Hvalid Hvendor)
      as [Hrows _].
    assert (Hfst : fst (VendorService.addReview svc id params db)
                   = Returned (VendorService.review_row id params)).
    { unfold VendorService.addReview.
      rewrite (proj2 (rating_guard _) Hvalid).
      rewrite run_bind. unfold VendorService.create_review.
      rewrite run_bind. unfold VendorService.recalculateVendorRating.
      rewrite run_bind. unfold VendorService.find_reviews.
      rewrite reviews_of_snoc by done.
      destruct (length _ =? 0)%nat eqn:E.
      { apply Nat.eqb_eq in E. rewrite length_app in E. simpl in E. lia. }
      rewrite run_bind. unfold Prisma.update. simpl. by rewrite Hvendor. }
    destruct (VendorService.addReview svc id params db) as [res db'].
    simpl in Hrows, Hfst. subst res. simpl. by split.
  - intros Hinvalid. unfold VendorService.addReview.
    destruct (_ || _) eqn:E; [done|].
    exfalso. by apply Hinvalid, rating_guard.
Qed.

Lemma addReview_endpoint_witness :
  Controller.addReview VendorService.new "vendor-1" (sample_review (6 # 1) None)
    vendor_db
  = (Failed 500 "Internal Server Error" "Rating must be between 1 and 5",
     vendor_db).
Proof.
  apply (proj2 (addReview_endpoint VendorService.new "vendor-1"
                  (sample_review (6 # 1) None) vendor_db sample_vendor
                  eq_refl)).
  intros [_ H]. apply H. reflexivity.
Defined.

(** X30: the handler for creating an inspection stores the inspection before
    the event is published.  Over the service its constructor builds, a
    request under a fresh identifier is answered with 500 "RabbitMQ channel
    not initialized", and yet a GET for that identifier then answers 200
    with an inspection that is SCHEDULED, for the property given, and whose
    inspector is the one named in the body or else the requesting user.
    With a publisher that accepts the event the answer is 201 with that
    same inspection. *)
Theorem createInspection_endpoint
    (svc : InspectionService.t) (newId : string) (user : User)
    (body : Controller.CreateInspectionBody) (db : Db)
    (Hfresh : inspections db !! newId = None) :
  let post := Controller.createInspection svc newId user body db in
  exists i,
    Controller.getInspection newId (snd post) = (Sent 200 i, snd post)
    /\ insp_status i = I_SCHEDULED
    /\ insp_propertyId i = Controller.b_propertyId body
    /\ insp_inspectorId i
       = match Controller.b_inspectorId body with
         | Some inspector => if String.eqb inspector "" then userId user
                             else inspector
         | None => userId user
         end
    /\ (InspectionService.rabbitMQ svc = RabbitMQ.new ->
        fst post = Failed 500 "Internal Server Error"
                     "RabbitMQ channel not initialized")
    /\ (can_publish (InspectionService.rabbitMQ svc) ->
        fst post = Sent 201 i).
Proof.
  intros post. subst post.
  unfold Controller.createInspection, InspectionService.createInspection.
  rewrite run_bind. unfold Prisma.create. rewrite Hfresh.
  rewrite run_lift_bind.
  set (row := {| insp_id := newId |}).
  exists row.
  assert (Hget : forall db',
             inspections db' !! newId = Some row ->
             Controller.getInspection newId db' = (Sent 200 row, db')).
  { intros db' Hrow. unfold Controller.getInspection,
      InspectionService.getInspection, Prisma.findUnique.
    by rewrite Hrow. }
  split.
  { destruct (RabbitMQ.publishEvent _ _) as [[]|e]; simpl;
      apply Hget; simpl; apply lookup_insert_eq. }
  do 3 (split; [reflexivity|]). split.
  - intros ->. by rewrite publish_unconnected.
  - intros Hpub. by rewrite (publish_connected _ _ Hpub).
Qed.

Lemma createInspection_endpoint_witness :
  exists i,
    Controller.getInspection "insp-9"
      (snd (Controller.createInspection InspectionService.new "insp-9"
              sample_user sample_body empty_db))
    = (Sent 200 i,
       snd (Controller.createInspection InspectionService.new "insp-9"
              sample_user sample_body empty_db))
    /\ insp_inspectorId i = "user-7"
    /\ fst (Controller.createInspection InspectionService.new "insp-9"
              sample_user sample_body empty_db)
       = Failed 500 "Internal Server Error" "RabbitMQ channel not initialized".
Proof.
  destruct (createInspection_endpoint InspectionService.new "insp-9"
              sample_user sample_body empty_db eq_refl)
    as (i & Hget & _ & _ & Hinsp & Hpost & _).
  exists i. split; [exact Hget|]. split; [exact Hinsp | exact (Hpost eq_refl)].
Defined.
